(** * CandyShop benchmark: normalization, consensus triage and scoring

    A shallow embedding of the three batch scripts of
    [candyshop-benchmark/scripts] (and of the grouping loop of
    [ai-code-security-study-2026/scripts/validate.py]):

    - [normalize-results.py]  : schema adapters and severity normalization;
    - [triage-consensus.py]   : location matching, clustering, consensus;
    - [calculate-fmeasure.py] : per-tool TP/FP extraction and P/R/F1.

    Python strings are modelled by [string]; the [str] methods the scripts
    call are modelled on ASCII characters (code points below 128), bytes
    from 128 on are neither whitespace nor digits nor letters.  Python
    dictionaries are association lists in insertion order.  A raised
    exception is the [Raise] result of the error monad [Py.result]. *)

From Stdlib Require Import String Ascii DecimalString DecimalNat List Permutation Sorted
  Bool Arith ZArith QArith Lia Lqa.
Import ListNotations.

Local Close Scope Q_scope.
Local Open Scope string_scope.
Local Open Scope list_scope.
Local Open Scope nat_scope.

(* ------------------------------------------------------------------ *)
(** ** Python built-ins used by the scripts *)
(* ------------------------------------------------------------------ *)

Module Py.

(** The exceptions the modelled code can raise. *)
Inductive exn : Type :=
| AttributeError
| TypeError
| KeyError
| IndexError
| ValueError
| ZeroDivisionError.

Inductive result (A : Type) : Type :=
| Ok (a : A)
| Raise (e : exn).
Arguments Ok {A} a.
Arguments Raise {A} e.

Definition bind {A B} (m : result A) (k : A -> result B) : result B :=
  match m with
  | Ok a => k a
  | Raise e => Raise e
  end.

(** [bool(s)] for a [str]. *)
Definition truthy (s : string) : bool :=
  match s with EmptyString => false | String _ _ => true end.

(** [a or b] on strings. *)
Definition or_else (a b : string) : string := if truthy a then a else b.

Definition code (c : ascii) : nat := nat_of_ascii c.

Definition isspace_char (c : ascii) : bool :=
  let n := code c in
  ((9 <=? n) && (n <=? 13)) || ((28 <=? n) && (n <=? 32)).

Definition isdigit_char (c : ascii) : bool :=
  let n := code c in (48 <=? n) && (n <=? 57).

Definition upper_char (c : ascii) : ascii :=
  let n := code c in
  if (97 <=? n) && (n <=? 122) then ascii_of_nat (n - 32) else c.

Definition lower_char (c : ascii) : ascii :=
  let n := code c in
  if (65 <=? n) && (n <=? 90) then ascii_of_nat (n + 32) else c.

Fixpoint map_chars (f : ascii -> ascii) (s : string) : string :=
  match s with
  | EmptyString => EmptyString
  | String c r => String (f c) (map_chars f r)
  end.

Definition upper : string -> string := map_chars upper_char.
Definition lower : string -> string := map_chars lower_char.

Fixpoint all_chars (p : ascii -> bool) (s : string) : bool :=
  match s with
  | EmptyString => true
  | String c r => p c && all_chars p r
  end.

(** [s.isdigit()]: non-empty and digits only. *)
Definition isdigit (s : string) : bool := truthy s && all_chars isdigit_char s.

Fixpoint lstrip (s : string) : string :=
  match s with
  | EmptyString => EmptyString
  | String c r => if isspace_char c then lstrip r else s
  end.

Fixpoint rstrip (s : string) : string :=
  match s with
  | EmptyString => EmptyString
  | String c r =>
      match rstrip r with
      | EmptyString => if isspace_char c then EmptyString else String c EmptyString
      | r' => String c r'
      end
  end.

(** [s.strip()] *)
Definition strip (s : string) : string := rstrip (lstrip s).

(** [s.startswith(p)] *)
Definition startswith (p s : string) : bool := String.prefix p s.

(** [s.split(sep)] for a one-character separator: never the empty list. *)
Fixpoint split (sep : ascii) (s : string) : list string :=
  match s with
  | EmptyString => [EmptyString]
  | String c r =>
      if Ascii.eqb c sep then EmptyString :: split sep r
      else match split sep r with
           | [] => [String c EmptyString]
           | h :: t => String c h :: t
           end
  end.

(** [sep.join(parts)] *)
Fixpoint join (sep : string) (parts : list string) : string :=
  match parts with
  | [] => EmptyString
  | [p] => p
  | p :: rest => p ++ sep ++ join sep rest
  end.

(** [s.split()]: the maximal runs of non-whitespace characters. *)
Fixpoint words_aux (cur : string) (s : string) : list string :=
  match s with
  | EmptyString => if truthy cur then [cur] else []
  | String c r =>
      if isspace_char c
      then (if truthy cur then cur :: words_aux EmptyString r
            else words_aux EmptyString r)
      else words_aux (cur ++ String c EmptyString) r
  end.
Definition words (s : string) : list string := words_aux EmptyString s.

(** [os.path.basename(p)]: what follows the last slash. *)
Fixpoint basename (p : string) : string :=
  match p with
  | EmptyString => EmptyString
  | String c r =>
      if existsb (Ascii.eqb "/"%char) (list_ascii_of_string r) then basename r
      else if Ascii.eqb c "/"%char then r else p
  end.

(** Prefix of [s] before the first character satisfying [p]. *)
Fixpoint take_until (p : ascii -> bool) (s : string) : string :=
  match s with
  | EmptyString => EmptyString
  | String c r => if p c then EmptyString else String c (take_until p r)
  end.

(** Suffix of [s] from the first character satisfying [p] on. *)
Fixpoint drop_until (p : ascii -> bool) (s : string) : string :=
  match s with
  | EmptyString => EmptyString
  | String c r => if p c then s else drop_until p r
  end.

Definition contains_char (c : ascii) (s : string) : bool :=
  existsb (Ascii.eqb c) (list_ascii_of_string s).

(** [n] printed in decimal, as [str(n)] does for a non-negative [int]. *)
Definition str_of_nat (n : nat) : string :=
  NilZero.string_of_uint (Nat.to_uint n).

(** [f"{n:03d}"] *)
Definition format_03d (n : nat) : string :=
  let s := str_of_nat n in
  match String.length s with
  | 1 => "00" ++ s
  | 2 => "0" ++ s
  | _ => s
  end.

(** Dictionaries: association lists in insertion order. *)
Section Dict.
Context {K V : Type} (eqk : K -> K -> bool).

Fixpoint get (d : list (K * V)) (k : K) : option V :=
  match d with
  | [] => None
  | (k', v) :: r => if eqk k k' then Some v else get r k
  end.

(** [d[k] = v]: overwrite in place, or append a new key last. *)
Fixpoint set (d : list (K * V)) (k : K) (v : V) : list (K * V) :=
  match d with
  | [] => [(k, v)]
  | (k', v') :: r => if eqk k k' then (k', v) :: r else (k', v') :: set r k v
  end.

(** [defaultdict]: [d[k] = f(d[k])], creating [dflt] first if missing. *)
Definition update (d : list (K * V)) (k : K) (dflt : V) (f : V -> V)
  : list (K * V) :=
  match get d k with
  | Some v => set d k (f v)
  | None => set d k (f dflt)
  end.
End Dict.

(** A stable insertion sort, as [sorted] and [list.sort] are stable. *)
Section Sort.
Context {A : Type} (le : A -> A -> bool).

Fixpoint insert (x : A) (l : list A) : list A :=
  match l with
  | [] => [x]
  | y :: r => if le y x then y :: insert x r else x :: l
  end.

Definition sorted (l : list A) : list A :=
  fold_left (fun acc x => insert x acc) l [].
End Sort.

(** [sorted(set(l))] on strings. *)
Fixpoint dedup (l : list string) : list string :=
  match l with
  | [] => []
  | x :: r => if existsb (String.eqb x) r then dedup r else x :: dedup r
  end.

Definition sorted_set (l : list string) : list string :=
  sorted String.leb (dedup l).

End Py.

Import Py.

Declare Scope py_scope.
Notation "x <- m ;; k" := (Py.bind m (fun x => k))
  (at level 61, m at next level, right associativity) : py_scope.
Local Open Scope py_scope.

(* ------------------------------------------------------------------ *)
(** ** triage-consensus.py *)
(* ------------------------------------------------------------------ *)

Module Triage.

(** *** Helpers *)

Definition SEVERITY_ORDER : list (string * Z) :=
  [("critical", 4%Z); ("high", 3%Z); ("medium", 2%Z); ("low", 1%Z);
   ("info", 0%Z)].

Definition severity_rank (sev : string) : Z :=
  match Py.get String.eqb SEVERITY_ORDER (lower (strip sev)) with
  | Some r => r
  | None => (-1)%Z
  end.

(** [max(severities, key=severity_rank, default="unknown")]: the first
    element of maximal rank. *)
Fixpoint max_by_rank (best : string) (l : list string) : string :=
  match l with
  | [] => best
  | s :: r =>
      if (severity_rank best <? severity_rank s)%Z then max_by_rank s r
      else max_by_rank best r
  end.

Definition highest_severity (severities : list string) : string :=
  let best := match severities with
              | [] => "unknown"
              | s :: r => max_by_rank s r
              end in
  if (0 <=? severity_rank best)%Z then best else "unknown".

Section Locations.

(** [urlparse(loc).path] of the standard library, called only on a
    [loc] that starts with [http://] or [https://]; [None] stands for
    the [ValueError] that [urlparse] raises on a URL it rejects. *)
Variable urlparse_path : string -> option string.

Definition is_url (loc : string) : bool :=
  startswith "http://" loc || startswith "https://" loc.

Definition url_path (loc : string) : result string :=
  match urlparse_path loc with
  | Some p => Ok p
  | None => Raise ValueError
  end.

Definition extract_basename (location : string) : result string :=
  if negb (truthy location) then Ok ""
  else
    let loc := strip location in
    loc <- (if is_url loc then url_path loc else Ok loc) ;;
    let parts := split ":" loc in
    let n := List.length parts in
    let loc :=
      if (1 <? n) && isdigit (nth (n - 1) parts "")
      then if (2 <? n) && isdigit (nth (n - 2) parts "")
           then join ":" (firstn (n - 2) parts)
           else nth 0 parts ""
      else loc in
    Ok (if truthy loc then basename loc else "").

Definition extract_url_path (location : string) : result string :=
  if negb (truthy location) then Ok ""
  else
    let loc := strip location in
    if is_url loc then url_path loc else Ok "".

Definition locations_match (loc_a loc_b : string) : result bool :=
  if negb (truthy loc_a) || negb (truthy loc_b) then Ok false
  else
    url_a <- extract_url_path loc_a ;;
    url_b <- extract_url_path loc_b ;;
    if truthy url_a && truthy url_b then Ok (String.eqb url_a url_b)
    else
      base_a <- extract_basename loc_a ;;
      base_b <- extract_basename loc_b ;;
      if truthy base_a && truthy base_b then Ok (String.eqb base_a base_b)
      else Ok false.

End Locations.

Definition normalize_cwe (cwe_str : string) : string :=
  if negb (truthy cwe_str) then ""
  else
    let cwe := upper (strip cwe_str) in
    if startswith "CWE-" cwe then cwe
    else if isdigit cwe then "CWE-" ++ cwe
    else cwe.

(** *** Data loading *)

(** A row of the normalized CSV, as [csv.DictReader] yields it. *)
Record finding : Type := mkFinding {
  finding_id : string;
  tool : string;
  target : string;
  category : string;
  cwe : string;
  severity : string;
  location : string;
  description : string;
  raw_id : string
}.

(** The per-row rewriting of [load_normalized]. *)
Definition normalize_row (row : finding) : finding :=
  {| finding_id := finding_id row;
     tool := strip (tool row);
     target := strip (target row);
     category := category row;
     cwe := normalize_cwe (cwe row);
     severity := lower (strip (or_else (severity row) "unknown"));
     location := strip (location row);
     description := strip (description row);
     raw_id := raw_id row |}.

Definition load_normalized (rows : list finding) : list finding :=
  map normalize_row rows.

(** A ground-truth row; of its columns only these three are read. *)
Record gt_entry : Type := mkGt {
  gt_target : string;
  gt_cwe : string;
  gt_location : string
}.

(** The URL path of CPython's [urlsplit]/[urlparse] for an [http(s)] URL:
    tab, CR and LF are removed, the network location runs to the first
    slash, question mark or hash, the path stops at the first question
    mark or hash, and the parameters after a semicolon in the last
    segment are cut.  A square bracket without its partner in the network
    location is rejected; the address inside a matched pair is not
    validated here. *)
Definition is_unsafe (c : ascii) : bool :=
  let n := code c in (n =? 9) || (n =? 10) || (n =? 13).

Fixpoint remove_chars (p : ascii -> bool) (s : string) : string :=
  match s with
  | EmptyString => EmptyString
  | String c r => if p c then remove_chars p r else String c (remove_chars p r)
  end.

Definition is_delim (c : ascii) : bool :=
  Ascii.eqb c "/" || Ascii.eqb c "?" || Ascii.eqb c "#".

Definition is_query_or_fragment (c : ascii) : bool :=
  Ascii.eqb c "?" || Ascii.eqb c "#".

(** [_splitparams]: cut at the first semicolon after the last slash. *)
Fixpoint split_params (url : string) : string :=
  match url with
  | EmptyString => EmptyString
  | String c r =>
      if contains_char "/" r then String c (split_params r)
      else if Ascii.eqb c "/" then String c (take_until (Ascii.eqb ";") r)
      else take_until (Ascii.eqb ";") url
  end.

Definition cpython_urlparse_path (loc : string) : option string :=
  let url := remove_chars is_unsafe loc in
  let rest := drop_until (Ascii.eqb ":") url in
  match rest with
  | String _ (String "/" (String "/" after)) =>
      let netloc := take_until is_delim after in
      let url := drop_until is_delim after in
      if xorb (contains_char "[" netloc) (contains_char "]" netloc)
      then None
      else Some (split_params (take_until is_query_or_fragment url))
  | _ => Some (split_params (take_until is_query_or_fragment rest))
  end.

Definition lm := locations_match cpython_urlparse_path.

(** *** Grouping *)

Definition key2 : Type := string * string.
Definition key3 : Type := string * string * nat.

Definition key2_eqb (a b : key2) : bool :=
  String.eqb (fst a) (fst b) && String.eqb (snd a) (snd b).

Definition key3_eqb (a b : key3) : bool :=
  key2_eqb (fst a) (fst b) && Nat.eqb (snd a) (snd b).

Definition groups_t : Type := list (key3 * list finding).

(** First pass of [group_findings]: bucket by [(target, cwe)]. *)
Definition bucketize (findings : list finding) : list (key2 * list finding) :=
  fold_left
    (fun buckets f =>
       Py.update key2_eqb buckets (target f, cwe f) [] (fun l => l ++ [f]))
    findings [].

Section Grouping.

Variable urlparse_path : string -> option string.

(** The inner [for existing in cluster] loop: does [f] match a member? *)
Fixpoint matches_cluster (f : finding) (cluster : list finding)
  : result bool :=
  match cluster with
  | [] => Ok false
  | existing :: rest =>
      m <- locations_match urlparse_path (location f) (location existing) ;;
      if m then Ok true else matches_cluster f rest
  end.

(** The [for cluster in clusters] loop with its [merged] flag: [f] is
    appended to the first cluster with a matching member, or opens a
    new cluster at the end. *)
Fixpoint place (f : finding) (clusters : list (list finding))
  : result (list (list finding)) :=
  match clusters with
  | [] => Ok [[f]]
  | cluster :: rest =>
      m <- matches_cluster f cluster ;;
      if m then Ok ((cluster ++ [f]) :: rest)
      else rest' <- place f rest ;; Ok (cluster :: rest')
  end.

Fixpoint cluster_bucket (bucket_findings : list finding)
  (clusters : list (list finding)) : result (list (list finding)) :=
  match bucket_findings with
  | [] => Ok clusters
  | f :: rest => clusters' <- place f clusters ;; cluster_bucket rest clusters'
  end.

(** [for idx, cluster in enumerate(clusters): groups[(target, cwe, idx)] = cluster] *)
Fixpoint store_clusters (tc : key2) (idx : nat)
  (clusters : list (list finding)) (groups : groups_t) : groups_t :=
  match clusters with
  | [] => groups
  | cluster :: rest =>
      store_clusters tc (S idx) rest (Py.set key3_eqb groups (tc, idx) cluster)
  end.

Fixpoint group_buckets (buckets : list (key2 * list finding))
  (groups : groups_t) : result groups_t :=
  match buckets with
  | [] => Ok groups
  | (tc, bucket_findings) :: rest =>
      clusters <- cluster_bucket bucket_findings [] ;;
      group_buckets rest (store_clusters tc 0 clusters groups)
  end.

Definition group_findings (findings : list finding) : result groups_t :=
  group_buckets (bucketize findings) [].

End Grouping.

(** *** Ground-truth matching *)

Definition gt_index_t : Type := list (key2 * list gt_entry).

Definition build_gt_index (gt_entries : list gt_entry) : gt_index_t :=
  fold_left
    (fun index entry =>
       Py.update key2_eqb index (gt_target entry, gt_cwe entry) []
         (fun l => l ++ [entry]))
    gt_entries [].

Definition check_ground_truth (target cwe : string) (gt_index : gt_index_t)
  : bool :=
  match Py.get key2_eqb gt_index (target, cwe) with
  | Some l => 0 <? List.length l
  | None => false
  end.

(** *** Consensus triage *)

(** A row of the triage CSV ([TRIAGE_COLUMNS]). *)
Record triage_row : Type := mkRow {
  finding_group_id : string;
  tools : string;
  row_target : string;
  row_cwe : string;
  row_severity : string;
  row_location : string;
  row_description : string;
  verdict : string;
  confidence : string;
  ground_truth_match : string;
  tool_count : string
}.

(** Python's ordering of the tuples [(k[0], k[1], k[2])]. *)
Definition key3_leb (a b : key3) : bool :=
  let '(t1, c1, i1) := a in
  let '(t2, c2, i2) := b in
  match String.compare t1 t2 with
  | Lt => true
  | Gt => false
  | Eq => match String.compare c1 c2 with
          | Lt => true
          | Gt => false
          | Eq => i1 <=? i2
          end
  end.

(** First non-empty value of a column among the cluster's members. *)
Fixpoint first_non_empty (get : finding -> string) (cluster : list finding)
  : string :=
  match cluster with
  | [] => ""
  | f :: rest => if truthy (get f) then get f else first_non_empty get rest
  end.

(** The body of the loop of [triage_groups] for one group; [seq] is the
    group's sequence number within its target. *)
Definition triage_one (target cwe : string) (cluster : list finding)
  (gt_index : gt_index_t) (seq : nat) : triage_row :=
  let tools := sorted_set (map tool cluster) in
  let tool_count := List.length tools in
  let sev := highest_severity (map severity cluster) in
  let location := first_non_empty location cluster in
  let description := first_non_empty description cluster in
  let gt_match := check_ground_truth target cwe gt_index in
  let '(verdict, confidence) :=
    if 2 <=? tool_count then ("TP", "high")
    else if (tool_count =? 1) && gt_match then ("TP", "medium")
    else ("pending", "low") in
  {| finding_group_id :=
       "GRP-" ++ target ++ "-" ++ cwe ++ "-" ++ format_03d seq;
     tools := join "|" tools;
     row_target := target;
     row_cwe := cwe;
     row_severity := sev;
     row_location := location;
     row_description := description;
     verdict := verdict;
     confidence := confidence;
     ground_truth_match := if gt_match then "yes" else "no";
     tool_count := str_of_nat tool_count |}.

Fixpoint triage_loop (groups : groups_t) (gt_index : gt_index_t)
  (sorted_keys : list key3) (target_counters : list (string * nat))
  (results : list triage_row) : result (list triage_row) :=
  match sorted_keys with
  | [] => Ok results
  | (target, cwe, idx) :: rest =>
      match Py.get key3_eqb groups (target, cwe, idx) with
      | None => Raise KeyError
      | Some cluster =>
          let target_counters :=
            Py.update String.eqb target_counters target 0 S in
          let seq := match Py.get String.eqb target_counters target with
                     | Some n => n
                     | None => 0
                     end in
          triage_loop groups gt_index rest target_counters
            (results ++ [triage_one target cwe cluster gt_index seq])
      end
  end.

Definition triage_groups (groups : groups_t) (gt_index : gt_index_t)
  : result (list triage_row) :=
  triage_loop groups gt_index (sorted key3_leb (map fst groups)) [] [].

(** *** Output *)

(** [write_triage_files] groups the rows by target and writes one file
    [<target>-auto.csv] per target, in sorted target order; the result is
    the files written, each with its rows. *)
Definition by_target (results : list triage_row)
  : list (string * list triage_row) :=
  fold_left
    (fun acc r => Py.update String.eqb acc (row_target r) [] (fun l => l ++ [r]))
    results [].

Definition write_triage_files (results : list triage_row)
  : list (string * list triage_row) :=
  let bt := by_target results in
  flat_map
    (fun target =>
       match Py.get String.eqb bt target with
       | Some rows => [((target ++ "-auto.csv")%string, rows)]
       | None => []
       end)
    (sorted String.leb (map fst bt)).

(** [sum(1 for r in rows if r["verdict"] == v)] *)
Definition count_verdict (v : string) (rows : list triage_row) : nat :=
  List.length (filter (fun r => String.eqb (verdict r) v) rows).

(** The per-target statistics [write_triage_files] returns: for each
    target its numbers of [TP] and of [pending] rows. *)
Definition triage_stats (results : list triage_row)
  : list (string * (nat * nat)) :=
  let bt := by_target results in
  fold_left
    (fun stats target =>
       let rows := match Py.get String.eqb bt target with
                   | Some rows => rows
                   | None => []
                   end in
       Py.set String.eqb stats target
         (count_verdict "TP" rows, count_verdict "pending" rows))
    (sorted String.leb (map fst bt)) [].

End Triage.

(* ------------------------------------------------------------------ *)
(** ** calculate-fmeasure.py *)
(* ------------------------------------------------------------------ *)

Module Metrics.

(** A CSV row as [csv.DictReader] yields it: column name to value. *)
Definition csv_row : Type := list (string * string).

(** [row.get(column, "")] *)
Definition field (row : csv_row) (column : string) : string :=
  match Py.get String.eqb row column with
  | Some v => v
  | None => ""
  end.

(** What [csv.DictWriter] with [TRIAGE_COLUMNS] writes for a triage row
    and [csv.DictReader] reads back. *)
Definition to_csv_row (r : Triage.triage_row) : csv_row :=
  [("finding_group_id", Triage.finding_group_id r);
   ("tools", Triage.tools r);
   ("target", Triage.row_target r);
   ("cwe", Triage.row_cwe r);
   ("severity", Triage.row_severity r);
   ("location", Triage.row_location r);
   ("description", Triage.row_description r);
   ("verdict", Triage.verdict r);
   ("confidence", Triage.confidence r);
   ("ground_truth_match", Triage.ground_truth_match r);
   ("tool_count", Triage.tool_count r)].

(** [name.endswith(suffix)] and, when it holds, [name.rsplit(suffix, 1)[0]]. *)
Fixpoint strip_suffix (suffix name : string) : option string :=
  if String.eqb name suffix then Some ""
  else match name with
       | EmptyString => None
       | String c r =>
           match strip_suffix suffix r with
           | Some t => Some (String c t)
           | None => None
           end
       end.

Definition triage_data_t : Type := list (string * list csv_row).

(** [load_triage_files] on the [*.csv] files of the triage directory, each
    given by its stem and its rows, in sorted file order: [-final] files
    win over [-auto] files, and every row gets its [_target]. *)
Definition load_triage_files (files : list (string * list csv_row))
  : triage_data_t :=
  let final_files :=
    fold_left (fun d '(name, rows) =>
                 match strip_suffix "-final" name with
                 | Some target => Py.set String.eqb d target rows
                 | None => d
                 end) files [] in
  let auto_files :=
    fold_left (fun d '(name, rows) =>
                 match strip_suffix "-final" name, strip_suffix "-auto" name with
                 | None, Some target => Py.set String.eqb d target rows
                 | _, _ => d
                 end) files [] in
  let all_targets :=
    sorted_set (map fst auto_files ++ map fst final_files) in
  flat_map
    (fun target =>
       let chosen := match Py.get String.eqb final_files target with
                     | Some rows => Some rows
                     | None => Py.get String.eqb auto_files target
                     end in
       match chosen with
       | Some rows => [(target, map (fun row => Py.set String.eqb row "_target" target) rows)]
       | None => []
       end)
    all_targets.

Record stats : Type := mkStats {
  tp : nat;
  fp : nat;
  tp_cwes : list string
}.

Definition tool_key : Type := string * string.
Definition tool_stats_t : Type := list (tool_key * stats).

Definition empty_stats : stats := {| tp := 0; fp := 0; tp_cwes := [] |}.

(** [s.add(x)] on a set kept as a duplicate-free list. *)
Definition set_add (x : string) (s : list string) : list string :=
  if existsb (String.eqb x) s then s else s ++ [x].

(** [[t.strip().lower() for t in tools_str.split(",") if t.strip()]] *)
Definition split_tools (tools_str : string) : list string :=
  map (fun t => lower (strip t))
    (filter (fun t => truthy (strip t)) (split "," tools_str)).

(** The body of the row loop of [extract_tool_findings]. *)
Definition credit_row (target : string) (tool_stats : tool_stats_t)
  (row : csv_row) : tool_stats_t :=
  let tools_str := strip (field row "tools") in
  if negb (truthy tools_str) then tool_stats
  else
    let tools := split_tools tools_str in
    let verdict := upper (strip (field row "verdict")) in
    let cwe := strip (field row "cwe") in
    fold_left
      (fun ts tool =>
         let key := (tool, target) in
         if String.eqb verdict "TP" then
           Py.update Triage.key2_eqb ts key empty_stats
             (fun s => {| tp := S (tp s); fp := fp s;
                          tp_cwes := if truthy cwe then set_add cwe (tp_cwes s)
                                     else tp_cwes s |})
         else if String.eqb verdict "FP" then
           Py.update Triage.key2_eqb ts key empty_stats
             (fun s => {| tp := tp s; fp := S (fp s); tp_cwes := tp_cwes s |})
         else ts)
      tools tool_stats.

Definition extract_tool_findings (triage_data : triage_data_t)
  : tool_stats_t :=
  fold_left
    (fun ts '(target, rows) => fold_left (credit_row target) rows ts)
    triage_data [].

(** *** Precision, recall, F1

    Python floats are modelled by exact rationals; [round(x, 3)] rounds
    to three decimals, ties to even.  True division raises
    [ZeroDivisionError] on a zero divisor. *)

Local Open Scope Q_scope.

Definition Qnat (n : nat) : Q := inject_Z (Z.of_nat n).

Definition truediv (a b : Q) : result Q :=
  if Qeq_bool b 0 then Raise ZeroDivisionError else Ok (a / b).

Definition round_half_even (q : Q) : Z :=
  let n := Qnum q in
  let d := Zpos (Qden q) in
  let f := (n / d)%Z in
  let r := (n mod d)%Z in
  if (2 * r <? d)%Z then f
  else if (d <? 2 * r)%Z then (f + 1)%Z
  else if Z.even f then f else (f + 1)%Z.

Definition round3 (q : Q) : Q := round_half_even (q * 1000) # 1000.

Definition Qgt_bool (a b : Q) : bool := negb (Qle_bool a b).

Record scores : Type := mkScores {
  precision : Q;
  recall : Q;
  f1 : Q
}.

(** The three guarded divisions of [calculate_fmeasure]. *)
Definition compute_scores (tp fp fn : nat) : result scores :=
  precision <- (if (0 <? tp + fp)%nat
                then q <- truediv (Qnat tp) (Qnat (tp + fp)) ;; Ok (round3 q)
                else Ok 0) ;;
  recall <- (if (0 <? tp + fn)%nat
             then q <- truediv (Qnat tp) (Qnat (tp + fn)) ;; Ok (round3 q)
             else Ok 0) ;;
  f1 <- (if Qgt_bool (precision + recall) 0
         then q <- truediv (2 * precision * recall) (precision + recall) ;;
              Ok (round3 q)
         else Ok 0) ;;
  Ok {| precision := precision; recall := recall; f1 := f1 |}.

(** The false-negative loop: one per ground-truth row whose CWE is not
    among the tool's TP CWEs. *)
Definition count_fn (tp_cwes : list string) (gt_entries : list csv_row) : nat :=
  fold_left
    (fun fn gt_row =>
       let gt_cwe := strip (field gt_row "cwe") in
       if negb (existsb (String.eqb gt_cwe) tp_cwes) then S fn else fn)
    gt_entries 0%nat.

Record fmeasure_row : Type := mkFm {
  fm_tool : string;
  fm_target : string;
  fm_tp : nat;
  fm_fp : nat;
  fm_fn : nat;
  total_findings : nat;
  fm_scores : scores;
  scan_duration_seconds : option Q
}.

Definition ground_truth_t : Type := list (string * list csv_row).

(** The body of the [(tool, target)] loop. *)
Definition fmeasure_one (tool_findings : tool_stats_t)
  (ground_truth : ground_truth_t) (speed_data : list (tool_key * Q))
  (tool target : string) : result (list fmeasure_row) :=
  match Py.get Triage.key2_eqb tool_findings (tool, target) with
  | None => Ok []
  | Some st =>
      let gt_entries := match Py.get String.eqb ground_truth target with
                        | Some l => l
                        | None => []
                        end in
      let fn := count_fn (tp_cwes st) gt_entries in
      sc <- compute_scores (tp st) (fp st) fn ;;
      Ok [{| fm_tool := tool; fm_target := target;
             fm_tp := tp st; fm_fp := fp st; fm_fn := fn;
             total_findings := (tp st + fp st)%nat;
             fm_scores := sc;
             scan_duration_seconds :=
               Py.get Triage.key2_eqb speed_data (tool, target) |}]
  end.

Fixpoint concat_results {A} (l : list (result (list A))) : result (list A) :=
  match l with
  | [] => Ok []
  | m :: rest => x <- m ;; r <- concat_results rest ;; Ok (x ++ r)%list
  end.

(** Sort key [(-f1, tool, target)]. *)
Definition fmeasure_leb (a b : fmeasure_row) : bool :=
  let fa := f1 (fm_scores a) in
  let fb := f1 (fm_scores b) in
  if Qgt_bool fa fb then true
  else if Qgt_bool fb fa then false
  else match String.compare (fm_tool a) (fm_tool b) with
       | Lt => true
       | Gt => false
       | Eq => String.leb (fm_target a) (fm_target b)
       end.

Definition calculate_fmeasure (tool_findings : tool_stats_t)
  (ground_truth : ground_truth_t) (speed_data : list (tool_key * Q))
  : result (list fmeasure_row) :=
  let all_tools := sorted_set (map (fun kv => fst (fst kv)) tool_findings) in
  let all_targets := sorted_set (map fst ground_truth) in
  results <- concat_results
               (flat_map
                  (fun tool =>
                     map (fmeasure_one tool_findings ground_truth speed_data tool)
                       all_targets)
                  all_tools) ;;
  Ok (sorted fmeasure_leb results).

(** *** CWE coverage *)

Record coverage_row : Type := mkCoverage {
  cov_tool : string;
  cov_cwe : string;
  found_count : nat;
  missed_count : Z;
  total_in_ground_truth : nat;
  coverage_pct : Q
}.

(** [round(x, 1)] *)
Definition round1 (q : Q) : Q := round_half_even (q * 10) # 10.

(** [gt_by_cwe]: each CWE with the targets listing it, one per
    ground-truth row. *)
Definition gt_by_cwe (ground_truth : ground_truth_t)
  : list (string * list string) :=
  fold_left
    (fun d '(target, gt_rows) =>
       fold_left
         (fun d row =>
            let cwe := strip (field row "cwe") in
            if truthy cwe
            then Py.update String.eqb d cwe [] (fun l => (l ++ [target])%list)
            else d)
         gt_rows d)
    ground_truth [].

(** [tool_tp_cwes_by_target] of one tool. *)
Definition tool_tp_cwes_by_target (tool_findings : tool_stats_t)
  (tool : string) : list (string * list string) :=
  fold_left
    (fun d '((t, target), st) =>
       if String.eqb t tool then Py.set String.eqb d target (tp_cwes st)
       else d)
    tool_findings [].

(** The body of the [(tool, cwe)] loop. *)
Definition coverage_one (tool_findings : tool_stats_t)
  (by_cwe : list (string * list string)) (tool cwe : string)
  : result coverage_row :=
  let by_target := tool_tp_cwes_by_target tool_findings tool in
  let targets_with_cwe := match Py.get String.eqb by_cwe cwe with
                          | Some l => l
                          | None => []
                          end in
  let total := List.length targets_with_cwe in
  let found :=
    fold_left
      (fun found target =>
         let cwes := match Py.get String.eqb by_target target with
                     | Some s => s
                     | None => []
                     end in
         if existsb (String.eqb cwe) cwes then S found else found)
      targets_with_cwe 0%nat in
  let missed := (Z.of_nat total - Z.of_nat found)%Z in
  coverage_pct <- (if (0 <? total)%nat
                   then q <- truediv (Qnat found) (Qnat total) ;;
                        Ok (round1 (q * 100))
                   else Ok 0) ;;
  Ok {| cov_tool := tool; cov_cwe := cwe;
        found_count := found; missed_count := missed;
        total_in_ground_truth := total; coverage_pct := coverage_pct |}.

Definition calculate_cwe_coverage (tool_findings : tool_stats_t)
  (ground_truth : ground_truth_t) : result (list coverage_row) :=
  let by_cwe := gt_by_cwe ground_truth in
  let all_tools := sorted_set (map (fun kv => fst (fst kv)) tool_findings) in
  concat_results
    (flat_map
       (fun tool =>
          map (fun cwe => r <- coverage_one tool_findings by_cwe tool cwe ;;
                          Ok [r])
            (sorted String.leb (map fst by_cwe)))
       all_tools).

(** *** Scorecard *)

Record scorecard_row : Type := mkScorecard {
  sc_tool : string;
  avg_precision : Q;
  avg_recall : Q;
  avg_f1 : Q;
  total_tp : nat;
  total_fp : nat;
  total_fn : nat;
  targets_scanned : nat;
  unique_cwes_found : nat
}.

(** [sum] starts from 0 and adds from the left. *)
Definition sum_Q (l : list Q) : Q := fold_left Qplus l 0.

Definition sum_nat (l : list nat) : nat := fold_left Nat.add l 0%nat.

(** [round(sum(...) / n, 3) if n > 0 else 0.0] *)
Definition average (l : list Q) (n : nat) : result Q :=
  if (0 <? n)%nat then q <- truediv (sum_Q l) (Qnat n) ;; Ok (round3 q)
  else Ok 0.

Definition tool_data (fmeasure_results : list fmeasure_row)
  : list (string * list fmeasure_row) :=
  fold_left
    (fun d row =>
       Py.update String.eqb d (fm_tool row) [] (fun l => (l ++ [row])%list))
    fmeasure_results [].

Definition tool_cwes (cwe_coverage : list coverage_row)
  : list (string * list string) :=
  fold_left
    (fun d row =>
       if (0 <? found_count row)%nat
       then Py.update String.eqb d (cov_tool row) [] (set_add (cov_cwe row))
       else d)
    cwe_coverage [].

(** The body of the loop over [tool_data.items()]. *)
Definition scorecard_one (cwes : list (string * list string))
  (tool : string) (rows : list fmeasure_row) : result scorecard_row :=
  let n := List.length rows in
  avg_precision <- average (map (fun r => precision (fm_scores r)) rows) n ;;
  avg_recall <- average (map (fun r => recall (fm_scores r)) rows) n ;;
  avg_f1 <- average (map (fun r => f1 (fm_scores r)) rows) n ;;
  Ok {| sc_tool := tool;
        avg_precision := avg_precision;
        avg_recall := avg_recall;
        avg_f1 := avg_f1;
        total_tp := sum_nat (map fm_tp rows);
        total_fp := sum_nat (map fm_fp rows);
        total_fn := sum_nat (map fm_fn rows);
        targets_scanned := n;
        unique_cwes_found :=
          List.length (match Py.get String.eqb cwes tool with
                       | Some s => s
                       | None => []
                       end) |}.

(** Sort key [(-avg_f1, tool)]. *)
Definition scorecard_leb (a b : scorecard_row) : bool :=
  if Qgt_bool (avg_f1 a) (avg_f1 b) then true
  else if Qgt_bool (avg_f1 b) (avg_f1 a) then false
  else String.leb (sc_tool a) (sc_tool b).

Definition calculate_scorecard (fmeasure_results : list fmeasure_row)
  (cwe_coverage : list coverage_row) : result (list scorecard_row) :=
  let cwes := tool_cwes cwe_coverage in
  results <- concat_results
               (map (fun '(tool, rows) =>
                       r <- scorecard_one cwes tool rows ;; Ok [r])
                  (tool_data fmeasure_results)) ;;
  Ok (sorted scorecard_leb results).

Local Close Scope Q_scope.

End Metrics.

(* ------------------------------------------------------------------ *)
(** ** normalize-results.py *)
(* ------------------------------------------------------------------ *)

Module Normalize.

(** The Python values [json.load] produces. *)
#[local] Set Warnings "-register-all".
Inductive pyval : Type :=
| PNone
| PBool (b : bool)
| PInt (z : Z)
| PFloat (q : Q)
| PStr (s : string)
| PList (l : list pyval)
| PDict (d : list (string * pyval)).

(** [bool(v)] *)
Definition truthy_val (v : pyval) : bool :=
  match v with
  | PNone => false
  | PBool b => b
  | PInt z => negb (z =? 0)%Z
  | PFloat q => negb (Qeq_bool q 0)
  | PStr s => truthy s
  | PList l => match l with [] => false | _ => true end
  | PDict d => match d with [] => false | _ => true end
  end.

(** [a or b] *)
Definition or_val (a b : pyval) : pyval := if truthy_val a then a else b.

(** [v.get(key, default)]: only a [dict] has the method. *)
Definition dict_get (v : pyval) (key : string) (default : pyval)
  : result pyval :=
  match v with
  | PDict d => Ok match Py.get String.eqb d key with
                  | Some x => x
                  | None => default
                  end
  | _ => Raise AttributeError
  end.

Fixpoint chars (s : string) : list pyval :=
  match s with
  | EmptyString => []
  | String c r => PStr (String c EmptyString) :: chars r
  end.

(** [for x in v] *)
Definition iterate (v : pyval) : result (list pyval) :=
  match v with
  | PList l => Ok l
  | PDict d => Ok (map (fun kv => PStr (fst kv)) d)
  | PStr s => Ok (chars s)
  | _ => Raise TypeError
  end.

(** [v[0]] *)
Definition index0 (v : pyval) : result pyval :=
  match v with
  | PList (x :: _) => Ok x
  | PStr (String c _) => Ok (PStr (String c EmptyString))
  | PList [] => Raise KeyError
  | PStr EmptyString => Raise KeyError
  | PDict _ => Raise KeyError
  | _ => Raise TypeError
  end.

Fixpoint mapM {A B} (f : A -> result B) (l : list A) : result (list B) :=
  match l with
  | [] => Ok []
  | x :: r => y <- f x ;; ys <- mapM f r ;; Ok (y :: ys)
  end.

(** *** Severity normalization maps *)

Definition TRIVY_SEVERITY : list (string * string) :=
  [("CRITICAL", "CRITICAL"); ("HIGH", "HIGH"); ("MEDIUM", "MEDIUM");
   ("LOW", "LOW"); ("UNKNOWN", "INFO")].

Definition GRYPE_SEVERITY : list (string * string) :=
  [("Critical", "CRITICAL"); ("High", "HIGH"); ("Medium", "MEDIUM");
   ("Low", "LOW"); ("Negligible", "INFO")].

Definition NODEJSSCAN_SEVERITY : list (string * string) :=
  [("ERROR", "HIGH"); ("WARNING", "MEDIUM"); ("INFO", "LOW")].

Definition ZAP_RISK : list (string * string) :=
  [("3", "HIGH"); ("2", "MEDIUM"); ("1", "LOW"); ("0", "INFO")].

Definition STANDARD_SEVERITY : list (string * string) :=
  [("critical", "CRITICAL"); ("high", "HIGH"); ("medium", "MEDIUM");
   ("low", "LOW"); ("info", "INFO"); ("warning", "MEDIUM");
   ("error", "HIGH")].

Definition LEVELS : list string :=
  ["CRITICAL"; "HIGH"; "MEDIUM"; "LOW"; "INFO"].

Definition is_level (s : string) : bool := existsb (String.eqb s) LEVELS.

(** *** Helpers *)

Inductive file_read : Type :=
| Unreadable            (* [open] or [read] raises *)
| Malformed             (* [json.load] raises [JSONDecodeError] *)
| Parsed (v : pyval).

Inductive warning : Type :=
| MalformedJSON (filepath : string)
| ErrorReading (filepath : string).

(** [load_json]: the value, [None] on failure, and what it warns. *)
Definition load_json (fs : string -> file_read) (filepath : string)
  : pyval * list warning :=
  match fs filepath with
  | Parsed v => (v, [])
  | Malformed => (PNone, [MalformedJSON filepath])
  | Unreadable => (PNone, [ErrorReading filepath])
  end.

Section Adapters.

(** [str(v)] of a value that is not a [str]; it never raises. *)
Variable py_repr : pyval -> string.

(** [str(v)], and what an f-string prints for [v]. *)
Definition py_str (v : pyval) : string :=
  match v with
  | PStr s => s
  | _ => py_repr v
  end.

(** [mapping.get(raw)]: an unhashable key raises. *)
Definition mapping_get (mapping : list (string * string)) (raw : pyval)
  : result (option string) :=
  match raw with
  | PStr s => Ok (Py.get String.eqb mapping s)
  | PList _ | PDict _ => Raise TypeError
  | _ => Ok None
  end.

Definition opt_truthy (o : option string) : bool :=
  match o with Some s => truthy s | None => false end.

(** [raw.lower()] / [raw.upper()]: only a [str] has the methods. *)
Definition str_method (f : string -> string) (raw : pyval) : result string :=
  match raw with
  | PStr s => Ok (f s)
  | _ => Raise AttributeError
  end.

Definition normalize_severity (raw : pyval)
  (mapping : option (list (string * string))) : result string :=
  if negb (truthy_val raw) then Ok "INFO"
  else
    hit <- match mapping with
           | Some ((_ :: _) as m) =>
               r1 <- mapping_get m raw ;;
               Ok (if opt_truthy r1 then r1
                   else Py.get String.eqb m (py_str raw))
           | _ => Ok None
           end ;;
    match hit with
    | Some (String _ _ as result) => Ok result
    | _ =>
        low <- str_method lower raw ;;
        match Py.get String.eqb STANDARD_SEVERITY low with
        | Some (String _ _ as result) => Ok result
        | _ =>
            up <- str_method upper raw ;;
            if is_level up then Ok up else Ok "INFO"
        end
    end.

(** [sanitize]: collapse whitespace. *)
Definition sanitize (text : pyval) : string :=
  if negb (truthy_val text) then ""
  else join " " (words (py_str text)).

(** A finding as an adapter emits it; [cwe] and [raw_id] are passed
    through from the tool's JSON as they are. *)
Record raw_finding : Type := mkRaw {
  tool : string;
  target : string;
  category : string;
  cwe : pyval;
  severity : string;
  location : string;
  description : string;
  raw_id : pyval
}.

(** The body of [for v in vulns] in [parse_trivy]. *)
Definition trivy_vuln (target : string) (v : pyval) : result raw_finding :=
  cwe_ids <- dict_get v "CweIDs" PNone ;;
  let cwe_list := or_val cwe_ids (PList []) in
  cwe <- (if truthy_val cwe_list then index0 cwe_list else Ok (PStr "")) ;;
  pkg <- dict_get v "PkgName" (PStr "") ;;
  ver <- dict_get v "InstalledVersion" (PStr "") ;;
  let location :=
    if truthy_val pkg then (py_str pkg ++ "@" ++ py_str ver)%string else "" in
  sev_raw <- dict_get v "Severity" PNone ;;
  sev <- normalize_severity sev_raw (Some TRIVY_SEVERITY) ;;
  title <- dict_get v "Title" PNone ;;
  text <- (if truthy_val title then Ok title
           else dict_get v "Description" (PStr "")) ;;
  rid <- dict_get v "VulnerabilityID" (PStr "") ;;
  Ok {| tool := "trivy"; target := target; category := "container";
        cwe := cwe; severity := sev; location := location;
        description := sanitize text; raw_id := rid |}.

(** The body of [for result_block in results]. *)
Definition trivy_block (target : string) (result_block : pyval)
  : result (list raw_finding) :=
  vs <- dict_get result_block "Vulnerabilities" PNone ;;
  vulns <- iterate (or_val vs (PList [])) ;;
  mapM (trivy_vuln target) vulns.

Definition parse_trivy (fs : string -> file_read) (filepath target : string)
  : result (list raw_finding) * list warning :=
  let '(data, warnings) := load_json fs filepath in
  match data with
  | PNone => (Ok [], warnings)
  | _ =>
      (rs <- dict_get data "Results" PNone ;;
       results <- iterate (or_val rs (PList [])) ;;
       blocks <- mapM (trivy_block target) results ;;
       Ok (concat blocks),
       warnings)
  end.

End Adapters.

(** [make_finding_id]: the tool upper-cased without hyphens, the target
    upper-cased, and the counter on three digits. *)
Definition make_finding_id (tool target : string) (counter : nat) : string :=
  let tool_part := Triage.remove_chars (Ascii.eqb "-") (upper tool) in
  let target_part := upper target in
  (tool_part ++ "-" ++ target_part ++ "-" ++ format_03d counter)%string.

(** The numbering loop of [main]: one counter per [(tool, target)]; the
    result pairs every finding with the [finding_id] it receives. *)
Fixpoint assign_finding_ids_from (counters : list (Triage.key2 * nat))
  (all_findings : list raw_finding) : list (string * raw_finding) :=
  match all_findings with
  | [] => []
  | f :: rest =>
      let key := (tool f, target f) in
      let counters := Py.update Triage.key2_eqb counters key 0 S in
      let n := match Py.get Triage.key2_eqb counters key with
               | Some n => n
               | None => 0
               end in
      (make_finding_id (tool f) (target f) n, f)
        :: assign_finding_ids_from counters rest
  end.

Definition assign_finding_ids (all_findings : list raw_finding)
  : list (string * raw_finding) :=
  assign_finding_ids_from [] all_findings.



End Normalize.

(* ------------------------------------------------------------------ *)
(** ** validate.py (AI-generated code study): deduplication *)
(* ------------------------------------------------------------------ *)

Module Validate.

(** A finding of a scan file, with the [_tool] and [_model] that
    [load_scan_results] adds; a key missing from the dictionary is the
    default its [get] is called with. *)
Record scan_finding : Type := mkScan {
  _model : string;
  _tool : string;
  file : string;
  line : nat;
  cwe : string;
  rule_id : string;
  severity : string;
  owasp : string
}.

Definition SEVERITY_RANK : list (string * nat) :=
  [("CRITICAL", 5); ("HIGH", 4); ("MEDIUM", 3); ("LOW", 2); ("INFO", 1)].

Definition rank (sev : string) : nat :=
  if truthy sev then
    match Py.get String.eqb SEVERITY_RANK (upper sev) with
    | Some r => r
    | None => 0
    end
  else 0.

Definition highest_severity (severities : list string) : string :=
  fst (fold_left
         (fun '(best, best_rank) sev =>
            if best_rank <? rank sev then (upper sev, rank sev)
            else (best, best_rank))
         severities ("LOW", 0)).

Definition key_t : Type := string * string * string.

Definition key_eqb (a b : key_t) : bool :=
  let '(m1, f1, c1) := a in
  let '(m2, f2, c2) := b in
  String.eqb m1 m2 && String.eqb f1 f2 && String.eqb c1 c2.

(** The deduplication key of one finding. *)
Definition dedup_key (f : scan_finding) : key_t :=
  let cwe := strip (cwe f) in
  if negb (truthy cwe)
  then (_model f, file f, ("_nocwe_" ++ _tool f ++ "_" ++ rule_id f)%string)
  else (_model f, file f, cwe).

(** First loop of [deduplicate_findings]. *)
Definition dedup_groups (raw_findings : list scan_finding)
  : list (key_t * list scan_finding) :=
  fold_left
    (fun groups f =>
       Py.update key_eqb groups (dedup_key f) [] (fun l => l ++ [f]))
    raw_findings [].

Record deduped : Type := mkDeduped {
  d_model : string;
  d_file : string;
  d_line : nat;
  d_cwe : string;
  d_owasp : string;
  d_severity : string;
  d_tools : string
}.

Fixpoint first_owasp (group : list scan_finding) : string :=
  match group with
  | [] => ""
  | f :: rest =>
      if truthy (owasp f) && negb (String.eqb (owasp f) "unknown")
      then owasp f else first_owasp rest
  end.

Definition min_list (l : list nat) : nat :=
  match l with
  | [] => 0
  | x :: r => fold_left Nat.min r x
  end.

(** Second loop of [deduplicate_findings]: one row per group. *)
Definition dedup_row (kg : key_t * list scan_finding) : deduped :=
  let '((model, file_path, k2), group) := kg in
  {| d_model := model;
     d_file := file_path;
     d_line := min_list (filter (fun n => 0 <? n) (map line group));
     d_cwe := if negb (startswith "_nocwe_" k2) then k2
              else match group with
                   | f :: _ => cwe f
                   | [] => ""
                   end;
     d_owasp := first_owasp group;
     d_severity := highest_severity (map severity group);
     d_tools := join ", " (sorted_set (map _tool group)) |}.

Definition deduplicate_findings (raw_findings : list scan_finding)
  : list deduped :=
  map dedup_row (dedup_groups raw_findings).

(** The sort key [(model, owasp, file, line)] of [sort_findings], compared
    as Python compares tuples.  Every deduplicated row has all four keys,
    so the defaults of [get] are never used. *)
Definition sort_key_leb (a b : deduped) : bool :=
  match String.compare (d_model a) (d_model b) with
  | Lt => true
  | Gt => false
  | Eq =>
      match String.compare (d_owasp a) (d_owasp b) with
      | Lt => true
      | Gt => false
      | Eq =>
          match String.compare (d_file a) (d_file b) with
          | Lt => true
          | Gt => false
          | Eq => d_line a <=? d_line b
          end
      end
  end.

Definition sort_findings (findings : list deduped) : list deduped :=
  sorted sort_key_leb findings.

(** [assign_ids]: each row with the [finding_id] it receives. *)
Fixpoint assign_ids_from (i : nat) (findings : list deduped)
  : list (string * deduped) :=
  match findings with
  | [] => []
  | f :: rest => (("F" ++ format_03d i)%string, f) :: assign_ids_from (S i) rest
  end.

Definition assign_ids (findings : list deduped) : list (string * deduped) :=
  assign_ids_from 1 findings.

End Validate.

(* ------------------------------------------------------------------ *)
(** ** Predicates used to state the properties *)
(* ------------------------------------------------------------------ *)

Module Spec.


(** A severity table all of whose values are among the five levels. *)
Definition valid_table (m : list (string * string)) : bool :=
  forallb (fun kv => Normalize.is_level (snd kv)) m.

(** [str(v)] for [None], booleans and integers.  The [repr] of floats and
    containers is not modelled: the empty string stands in for it, and no
    statement below depends on it. *)
Definition repr_atom (v : Normalize.pyval) : string :=
  match v with
  | Normalize.PNone => "None"
  | Normalize.PBool true => "True"
  | Normalize.PBool false => "False"
  | Normalize.PInt z => NilZero.string_of_int (Z.to_int z)
  | _ => ""
  end.

(** The table [normalize_severity] consults when called with [mapping]. *)
Definition table_of (mapping : option (list (string * string)))
  : list (string * string) :=
  match mapping with Some m => m | None => [] end.

(** Exact lookup in the tool table, then the generic table on the
    lower-cased value, then [INFO]. *)
Definition severity_lookup (raw : string)
  (mapping : option (list (string * string))) : string :=
  match (if truthy raw then Py.get String.eqb (table_of mapping) raw
         else None) with
  | Some v => v
  | None => match Py.get String.eqb Normalize.STANDARD_SEVERITY (lower raw) with
            | Some v => v
            | None => "INFO"
            end
  end.

(** The ground-truth rows whose CWE is not among the tool's TP CWEs. *)
Definition uncovered (tp_cwes : list string) (gt_entries : list Metrics.csv_row)
  : list Metrics.csv_row :=
  filter
    (fun gt_row =>
       negb (existsb (String.eqb (strip (Metrics.field gt_row "cwe"))) tp_cwes))
    gt_entries.

(** The ground-truth rows of one target. *)
Definition gt_of (ground_truth : Metrics.ground_truth_t) (target : string)
  : list Metrics.csv_row :=
  match Py.get String.eqb ground_truth target with
  | Some l => l
  | None => []
  end.

(** A normalized finding with the columns clustering and triage read. *)
Definition finding_at (tool target cwe location : string) : Triage.finding :=
  {| Triage.finding_id := "";
     Triage.tool := tool;
     Triage.target := target;
     Triage.category := "";
     Triage.cwe := cwe;
     Triage.severity := "high";
     Triage.location := location;
     Triage.description := "";
     Triage.raw_id := "" |}.

(** The triage directory after [write_triage_files]: the stem and the
    rows of every [*.csv] file, in sorted file order. *)
Definition triage_dir (written : list (string * list Triage.triage_row))
  : list (string * list Metrics.csv_row) :=
  flat_map
    (fun '(name, rows) =>
       match Metrics.strip_suffix ".csv" name with
       | Some stem => [(stem, map Metrics.to_csv_row rows)]
       | None => []
       end)
    (sorted (fun a b => String.leb (fst a) (fst b)) written).

(** [triage-consensus.py] run on the findings and the ground truth,
    followed by the loading and extraction steps of
    [calculate-fmeasure.py] on the files it wrote. *)
Definition triage_then_extract (findings : list Triage.finding)
  (gt_entries : list Triage.gt_entry) : result Metrics.tool_stats_t :=
  groups <- Triage.group_findings Triage.cpython_urlparse_path findings ;;
  rows <- Triage.triage_groups groups (Triage.build_gt_index gt_entries) ;;
  Ok (Metrics.extract_tool_findings
        (Metrics.load_triage_files
           (triage_dir (Triage.write_triage_files rows)))).

(** The consensus rule on a tool count and a ground-truth flag. *)
Definition consensus (tool_count : nat) (gt_match : bool) : string * string :=
  if 2 <=? tool_count then ("TP", "high")
  else if (tool_count =? 1) && gt_match then ("TP", "medium")
  else ("pending", "low").

(** The number of distinct tools among the members of a cluster. *)
Definition distinct_tools (cluster : list Triage.finding) : nat :=
  List.length (nodup string_dec (map Triage.tool cluster)).

(** Some ground-truth entry shares [(target, cwe)]. *)
Definition in_ground_truth (gt_entries : list Triage.gt_entry)
  (target cwe : string) : bool :=
  existsb
    (fun e => String.eqb (Triage.gt_target e) target
              && String.eqb (Triage.gt_cwe e) cwe)
    gt_entries.

(** [gt_index.get(k, [])] *)
Definition gt_lookup (index : Triage.gt_index_t) (k : Triage.key2)
  : list Triage.gt_entry :=
  match Py.get Triage.key2_eqb index k with Some l => l | None => [] end.

(** The shape of a Trivy report that [parse_trivy] walks without raising:
    an object whose [Results] is missing, falsy or an array of objects,
    each with [Vulnerabilities] missing, falsy or an array of objects; in
    a vulnerability [CweIDs] is missing, falsy, an array or a string, and
    [Severity] is missing, falsy or a string. *)
Definition field_of (d : list (string * Normalize.pyval)) (key : string)
  : Normalize.pyval :=
  match Py.get String.eqb d key with
  | Some x => x
  | None => Normalize.PNone
  end.

Definition array_of (p : Normalize.pyval -> bool) (v : Normalize.pyval) : bool :=
  match Normalize.or_val v (Normalize.PList []) with
  | Normalize.PList l => forallb p l
  | _ => false
  end.

Definition trivy_vuln_shape (v : Normalize.pyval) : bool :=
  match v with
  | Normalize.PDict d =>
      match Normalize.or_val (field_of d "CweIDs") (Normalize.PList []) with
      | Normalize.PList _ | Normalize.PStr _ => true
      | _ => false
      end
      && match field_of d "Severity" with
         | Normalize.PStr _ => true
         | s => negb (Normalize.truthy_val s)
         end
  | _ => false
  end.

Definition trivy_block_shape (v : Normalize.pyval) : bool :=
  match v with
  | Normalize.PDict d => array_of trivy_vuln_shape (field_of d "Vulnerabilities")
  | _ => false
  end.

Definition trivy_report_shape (v : Normalize.pyval) : bool :=
  match v with
  | Normalize.PDict d => array_of trivy_block_shape (field_of d "Results")
  | _ => false
  end.

(** The three consensus rules, read on a triage row and the cluster it
    was computed from. *)
Definition consensus_rule (gt_entries : list Triage.gt_entry)
  (cluster : list Triage.finding) (r : Triage.triage_row) : Prop :=
  let n := distinct_tools cluster in
  let g := in_ground_truth gt_entries (Triage.row_target r) (Triage.row_cwe r) in
  (2 <= n -> Triage.verdict r = "TP" /\ Triage.confidence r = "high")
  /\ (n = 1 -> g = true ->
      Triage.verdict r = "TP" /\ Triage.confidence r = "medium")
  /\ (n < 2 -> (n = 1 -> g = false) ->
      Triage.verdict r = "pending" /\ Triage.confidence r = "low")
  /\ Triage.verdict r <> "FP".

(** The grouping loop the scripts share: append every element to the list
    stored under its key, creating the list at the end of the dictionary
    when the key is new ([defaultdict(list)] and [d[key].append(x)]). *)
Definition group_by {A K : Type} (eqk : K -> K -> bool) (key : A -> K)
  (xs : list A) (d : list (K * list A)) : list (K * list A) :=
  fold_left (fun d x => Py.update eqk d (key x) [] (fun l => l ++ [x])) xs d.

(** The [(target, cwe)] key of a finding. *)
Definition bucket_key (f : Triage.finding) : Triage.key2 :=
  (Triage.target f, Triage.cwe f).

(** Every member but the first matches a member placed before it. *)
Fixpoint linked (urlparse_path : string -> option string)
  (earlier cluster : list Triage.finding) : Prop :=
  match cluster with
  | [] => True
  | f :: rest =>
      (earlier = [] \/
       exists e, In e earlier
                 /\ Triage.locations_match urlparse_path
                      (Triage.location f) (Triage.location e) = Ok true)
      /\ linked urlparse_path (earlier ++ [f]) rest
  end.

(** The clusters of one bucket under their keys [(target, cwe, idx)]. *)
Fixpoint numbered (tc : Triage.key2) (idx : nat)
  (clusters : list (list Triage.finding)) : Triage.groups_t :=
  match clusters with
  | [] => []
  | cluster :: rest => ((tc, idx), cluster) :: numbered tc (S idx) rest
  end.

(** The last steps of [extract_basename]: cut the [:line[:col]] suffix and
    take the basename. *)
Definition base_of (loc : string) : string :=
  let parts := split ":" loc in
  let n := List.length parts in
  let loc :=
    if (1 <? n) && isdigit (nth (n - 1) parts "")
    then if (2 <? n) && isdigit (nth (n - 2) parts "")
         then join ":" (firstn (n - 2) parts)
         else nth 0 parts ""
    else loc in
  if truthy loc then basename loc else "".

(** The location is one [extract_url_path] treats as a URL. *)
Definition is_url_location (location : string) : bool :=
  truthy location && Triage.is_url (strip location).

(** The decision of [locations_match] once the URL paths and the
    basenames of both locations are known. *)
Definition match_rule (url_a url_b base_a base_b : string) : bool :=
  if truthy url_a && truthy url_b then String.eqb url_a url_b
  else truthy base_a && truthy base_b && String.eqb base_a base_b.

(** The number of tools a triage row credits for [verdict]: the tools
    listed in its [tools] column when the row has that verdict, none
    otherwise. *)
Definition credited (verdict : string) (row : Metrics.csv_row) : nat :=
  if String.eqb (upper (strip (Metrics.field row "verdict"))) verdict
  then List.length (Metrics.split_tools (strip (Metrics.field row "tools")))
  else 0.

Definition credits (verdict : string) (triage_data : Metrics.triage_data_t)
  : nat :=
  list_sum
    (map (fun tr => list_sum (map (credited verdict) (snd tr))) triage_data).

Definition total_tp (ts : Metrics.tool_stats_t) : nat :=
  list_sum (map (fun kv => Metrics.tp (snd kv)) ts).

Definition total_fp (ts : Metrics.tool_stats_t) : nat :=
  list_sum (map (fun kv => Metrics.fp (snd kv)) ts).

(** What every entry of the per-tool statistics satisfies. *)
Definition stats_ok (st : Metrics.stats) : Prop :=
  1 <= Metrics.tp st + Metrics.fp st
  /\ List.length (Metrics.tp_cwes st) <= Metrics.tp st
  /\ NoDup (Metrics.tp_cwes st)
  /\ Forall (fun c => c <> "" /\ strip c = c) (Metrics.tp_cwes st).

(** The scores of [calculate_fmeasure] for given counts. *)
Definition scores_of (tp fp fn : nat) : Metrics.scores :=
  let p := if 0 <? tp + fp
           then Metrics.round3 (Metrics.Qnat tp / Metrics.Qnat (tp + fp))
           else 0%Q in
  let r := if 0 <? tp + fn
           then Metrics.round3 (Metrics.Qnat tp / Metrics.Qnat (tp + fn))
           else 0%Q in
  let f := if Metrics.Qgt_bool (p + r) 0
           then Metrics.round3 (2 * p * r / (p + r))
           else 0%Q in
  {| Metrics.precision := p; Metrics.recall := r; Metrics.f1 := f |}.

(** The row of [calculate_fmeasure] for a tool with statistics [st] on a
    target. *)
Definition row_of (ground_truth : Metrics.ground_truth_t)
  (speed_data : list (Metrics.tool_key * Q)) (tool target : string)
  (st : Metrics.stats) : Metrics.fmeasure_row :=
  let fn := List.length (uncovered (Metrics.tp_cwes st) (gt_of ground_truth target)) in
  {| Metrics.fm_tool := tool;
     Metrics.fm_target := target;
     Metrics.fm_tp := Metrics.tp st;
     Metrics.fm_fp := Metrics.fp st;
     Metrics.fm_fn := fn;
     Metrics.total_findings := Metrics.tp st + Metrics.fp st;
     Metrics.fm_scores := scores_of (Metrics.tp st) (Metrics.fp st) fn;
     Metrics.scan_duration_seconds :=
       Py.get Triage.key2_eqb speed_data (tool, target) |}.

Definition is_str (v : Normalize.pyval) : bool :=
  match v with Normalize.PStr _ => true | _ => false end.

(** Lists and dictionaries: the values that cannot be dictionary keys. *)
Definition is_container (v : Normalize.pyval) : bool :=
  match v with Normalize.PList _ | Normalize.PDict _ => true | _ => false end.

(** The only whitespace in the string is the space character. *)
Definition only_spaces (s : string) : bool :=
  all_chars (fun c => negb (isspace_char c) || Ascii.eqb c " ") s.

(** A non-empty string without whitespace. *)
Definition is_word (w : string) : bool :=
  truthy w && all_chars (fun c => negb (isspace_char c)) w.

(** Reading a decimal numeral back, leading zeros allowed. *)
Definition parse_nat (s : string) : option nat :=
  option_map Nat.of_uint (NilEmpty.uint_of_string s).

(** The number of findings of [fs] with the tool and target of [f]. *)
Definition count_pair (f : Normalize.raw_finding)
  (fs : list Normalize.raw_finding) : nat :=
  List.length
    (filter (fun g => Triage.key2_eqb (Normalize.tool f, Normalize.target f)
                        (Normalize.tool g, Normalize.target g)) fs).

(** The rank of a severity label in [validate.py], as [highest_severity]
    looks it up. *)
Definition validate_levels : list string :=
  ["CRITICAL"; "HIGH"; "MEDIUM"; "LOW"; "INFO"].

(** The ground-truth rows of all targets, each with its target. *)
Definition gt_pairs (ground_truth : Metrics.ground_truth_t)
  : list (string * Metrics.csv_row) :=
  flat_map (fun '(target, gt_rows) => map (fun row => (target, row)) gt_rows)
    ground_truth.

(** The CWE of a ground-truth row as the metrics read it. *)
Definition gt_cwe (p : string * Metrics.csv_row) : string :=
  strip (Metrics.field (snd p) "cwe").

(** The ground-truth rows listing [cwe]. *)
Definition gt_rows_with (ground_truth : Metrics.ground_truth_t) (cwe : string)
  : list (string * Metrics.csv_row) :=
  filter (fun p => String.eqb cwe (gt_cwe p)) (gt_pairs ground_truth).

(** [tool] has a true positive with [cwe] on [target]. *)
Definition has_tp (tool_findings : Metrics.tool_stats_t)
  (tool cwe target : string) : bool :=
  match Py.get Triage.key2_eqb tool_findings (tool, target) with
  | Some st => existsb (String.eqb cwe) (Metrics.tp_cwes st)
  | None => false
  end.

(** The F-measure rows of [tool]. *)
Definition rows_of_tool (fmeasure_results : list Metrics.fmeasure_row)
  (tool : string) : list Metrics.fmeasure_row :=
  filter (fun r => String.eqb tool (Metrics.fm_tool r)) fmeasure_results.

(** A dictionary of lists with [h] applied to every stored element. *)
Definition map_values {A B : Type} (h : A -> B) (kv : string * list A)
  : string * list B := (fst kv, map h (snd kv)).

(** What one row of the coverage table holds. *)
Definition coverage_fields (tool_findings : Metrics.tool_stats_t)
  (targets_with_cwe : list string) (tool cwe : string)
  (r : Metrics.coverage_row) : Prop :=
  Metrics.cov_tool r = tool
  /\ Metrics.cov_cwe r = cwe
  /\ Metrics.total_in_ground_truth r = List.length targets_with_cwe
  /\ Metrics.found_count r
     = List.length
         (filter
            (fun target =>
               existsb (String.eqb cwe)
                 match Py.get String.eqb
                         (Metrics.tool_tp_cwes_by_target tool_findings tool)
                         target with
                 | Some s => s
                 | None => []
                 end) targets_with_cwe)
  /\ Metrics.missed_count r
     = (Z.of_nat (Metrics.total_in_ground_truth r)
        - Z.of_nat (Metrics.found_count r))%Z
  /\ (0 <= Metrics.coverage_pct r <= 100)%Q.

(** The CWEs of the coverage rows of [tool] that found something. *)
Definition found_cwes (cwe_coverage : list Metrics.coverage_row)
  (tool : string) : list string :=
  map Metrics.cov_cwe
    (filter (fun c => String.eqb tool (Metrics.cov_tool c)
                      && (0 <? Metrics.found_count c))
       cwe_coverage).

(** All three scores lie between 0 and 1. *)
Definition unit_scores (p r f : Q) : Prop :=
  (0 <= p <= 1)%Q /\ (0 <= r <= 1)%Q /\ (0 <= f <= 1)%Q.

(** Order of two triage rows by target, then CWE. *)
Definition row_leb (a b : Triage.triage_row) : bool :=
  match String.compare (Triage.row_target a) (Triage.row_target b) with
  | Lt => true
  | Gt => false
  | Eq => match String.compare (Triage.row_cwe a) (Triage.row_cwe b) with
          | Gt => false
          | _ => true
          end
  end.

(** The rows of [target]. *)
Definition rows_of_target (rows : list Triage.triage_row) (target : string)
  : list Triage.triage_row :=
  filter (fun r => String.eqb target (Triage.row_target r)) rows.

(** The group keys of [target]. *)
Definition keys_of_target (keys : list Triage.key3) (target : string)
  : list Triage.key3 :=
  filter (fun k => String.eqb target (fst (fst k))) keys.

(** The rows of a triage file as [load_triage_files] returns them: each
    with its [_target]. *)
Definition tagged (target : string) (rows : list Metrics.csv_row)
  : list Metrics.csv_row :=
  map (fun row => Py.set String.eqb row "_target" target) rows.

(** The file [load_triage_files] reads for [target]: the [-final] file
    when there is one, else the [-auto] file. *)
Definition chosen_file (files : list (string * list Metrics.csv_row))
  (target : string) : option (list Metrics.csv_row) :=
  match Py.get String.eqb files (target ++ "-final")%string with
  | Some rows => Some rows
  | None => Py.get String.eqb files (target ++ "-auto")%string
  end.

End Spec.

(* ================================================================== *)
(** * Properties *)
(* ================================================================== *)

Import Triage.

(** ** Sanity checks of the built-ins and of the specification's examples *)

Example strip_ex : strip "  cwe-79 " = "cwe-79".
Proof. reflexivity. Qed.

Example split_ex : split ":" "/src/app.js:42:10" = ["/src/app.js"; "42"; "10"].
Proof. reflexivity. Qed.

Example split_empty_ex : split ":" "" = [""].
Proof. reflexivity. Qed.

Example basename_ex : basename "/lib/src/app.js" = "app.js".
Proof. reflexivity. Qed.

Example basename_dir_ex : basename "/lib/src/" = "".
Proof. reflexivity. Qed.

Example words_ex : words "  a  b c " = ["a"; "b"; "c"].
Proof. reflexivity. Qed.

Example format_ex : format_03d 7 = "007" /\ format_03d 1234 = "1234".
Proof. split; reflexivity. Qed.

Example sorted_set_ex : sorted_set ["zap"; "bearer"; "zap"] = ["bearer"; "zap"].
Proof. reflexivity. Qed.

Example locations_match_url :
  lm "http://x/a/b" "http://y/a/b?q=1" = Ok true.
Proof. reflexivity. Qed.

Example locations_match_basename :
  lm "/src/app.js:42" "/lib/src/app.js:10:5" = Ok true.
Proof. reflexivity. Qed.

Example locations_match_empty :
  lm "" "/src/app.js" = Ok false.
Proof. reflexivity. Qed.

Example locations_match_port :
  lm "http://localhost:3000/rest/search.ts" "/src/routes/search.ts:7" = Ok true.
Proof. reflexivity. Qed.

Example extract_basename_first_part :
  extract_basename cpython_urlparse_path "C:/src/app.js:42" = Ok "C".
Proof. reflexivity. Qed.

Example normalize_cwe_ex :
  map normalize_cwe ["79"; "CWE-79"; "cwe-79"; " Cwe-79 "; ""; "  "]
  = ["CWE-79"; "CWE-79"; "CWE-79"; "CWE-79"; ""; ""].
Proof. reflexivity. Qed.

Example highest_severity_ex :
  highest_severity ["low"; "high"; "bogus"; "high "] = "high"
  /\ highest_severity ["bogus"] = "unknown" /\ highest_severity [] = "unknown".
Proof. repeat split; reflexivity. Qed.

Example strip_suffix_ex :
  Metrics.strip_suffix "-auto" "juice-shop-auto" = Some "juice-shop"
  /\ Metrics.strip_suffix "-final" "juice-shop-auto" = None.
Proof. split; reflexivity. Qed.

Example scores_8_2_2 :
  exists sc, Metrics.compute_scores 8 2 2 = Ok sc
    /\ (Metrics.precision sc == 8 # 10)%Q /\ (Metrics.recall sc == 8 # 10)%Q
    /\ (Metrics.f1 sc == 8 # 10)%Q.
Proof. eexists; split; [reflexivity|]; repeat split; reflexivity. Qed.

(** ** Location matching *)

Section LocationFacts.

Variable urlparse_path : string -> option string.

Lemma url_path_raises (loc : string) (e : exn) :
  url_path urlparse_path loc = Raise e -> e = ValueError.
Proof.
  unfold url_path. destruct (urlparse_path loc); congruence.
Qed.

Lemma extract_url_path_raises (loc : string) (e : exn) :
  extract_url_path urlparse_path loc = Raise e -> e = ValueError.
Proof.
  unfold extract_url_path.
  destruct (truthy loc); simpl; [|discriminate].
  destruct (is_url (strip loc)); [apply url_path_raises | discriminate].
Qed.

Lemma extract_basename_raises (loc : string) (e : exn) :
  extract_basename urlparse_path loc = Raise e -> e = ValueError.
Proof.
  unfold extract_basename.
  destruct (truthy loc); simpl; [|discriminate].
  destruct (is_url (strip loc)); simpl; [|discriminate].
  destruct (url_path urlparse_path (strip loc)) eqn:E; simpl; [discriminate|].
  intros H; inversion H; subst. now apply url_path_raises in E.
Qed.

End LocationFacts.

(** C10. [locations_match] is symmetric: swapping its two arguments gives
    the same outcome, the same boolean or, where [urlparse] rejects one of
    the two locations, the same [ValueError], for every pair of strings and
    whatever path [urlparse] extracts. *)
Theorem locations_match_symmetric :
  forall (urlparse_path : string -> option string) (loc_a loc_b : string),
    locations_match urlparse_path loc_a loc_b
    = locations_match urlparse_path loc_b loc_a.
Proof.
  intros u a b. unfold locations_match.
  destruct (truthy a), (truthy b); simpl; try reflexivity.
  destruct (extract_url_path u a) as [ua|ea] eqn:Ea,
           (extract_url_path u b) as [ub|eb] eqn:Eb; simpl;
    try (apply extract_url_path_raises in Ea);
    try (apply extract_url_path_raises in Eb); subst; try reflexivity.
  rewrite (andb_comm (truthy ub)), (String.eqb_sym ub ua).
  destruct (truthy ua && truthy ub); [reflexivity|].
  destruct (extract_basename u a) as [ba|ea] eqn:Ba,
           (extract_basename u b) as [bb|eb] eqn:Bb; simpl;
    try (apply extract_basename_raises in Ba);
    try (apply extract_basename_raises in Bb); subst; try reflexivity.
  rewrite (andb_comm (truthy bb)), (String.eqb_sym bb ba). reflexivity.
Qed.

(** ** CWE normalization *)

Lemma lower_upper_char (c : ascii) : lower_char (upper_char c) = lower_char c.
Proof. destruct c as [[] [] [] [] [] [] [] []]; reflexivity. Qed.

Lemma digit_upper_char (c : ascii) : isdigit_char c = true -> upper_char c = c.
Proof.
  destruct c as [[] [] [] [] [] [] [] []]; intros H;
    first [reflexivity | discriminate H].
Qed.

Lemma digit_not_space (c : ascii) : isdigit_char c = true -> isspace_char c = false.
Proof.
  destruct c as [[] [] [] [] [] [] [] []]; intros H;
    first [reflexivity | discriminate H].
Qed.

Lemma space_upper_char (c : ascii) : isspace_char c = true -> upper_char c = c.
Proof.
  destruct c as [[] [] [] [] [] [] [] []]; intros H;
    first [reflexivity | discriminate H].
Qed.

Lemma lower_upper (s : string) : lower (upper s) = lower s.
Proof.
  induction s as [|c r IH]; simpl; [reflexivity|].
  unfold lower, upper in *; simpl. now rewrite lower_upper_char, IH.
Qed.

Lemma upper_app (a b : string) : upper (a ++ b) = (upper a ++ upper b)%string.
Proof.
  induction a as [|c r IH]; simpl; [reflexivity|].
  unfold upper in *; simpl. now rewrite IH.
Qed.

Lemma upper_digits (d : string) : all_chars isdigit_char d = true -> upper d = d.
Proof.
  induction d as [|c r IH]; simpl; [reflexivity|].
  intros H. apply andb_true_iff in H as [Hc Hr].
  unfold upper in *; simpl. now rewrite (digit_upper_char c Hc), IH.
Qed.


Lemma rstrip_digits (d : string) : all_chars isdigit_char d = true -> rstrip d = d.
Proof.
  induction d as [|c r IH]; simpl; [reflexivity|].
  intros H. apply andb_true_iff in H as [Hc Hr].
  rewrite (IH Hr). destruct r; [|reflexivity].
  now rewrite (digit_not_space c Hc).
Qed.

Lemma rstrip_app_digits (a d : string) :
  isdigit d = true -> rstrip (a ++ d) = (a ++ d)%string.
Proof.
  unfold isdigit. intros H. apply andb_true_iff in H as [Hne Hd].
  induction a as [|c r IH]; simpl.
  - now apply rstrip_digits.
  - rewrite IH. destruct (r ++ d)%string eqn:E; [|reflexivity].
    destruct r; simpl in E; [subst d; discriminate Hne | discriminate E].
Qed.



Lemma normalize_cwe_prefixed (p d : string) :
  upper p = "CWE-" -> isdigit d = true ->
  normalize_cwe (p ++ d) = ("CWE-" ++ d)%string.
Proof.
  intros Hp Hd.
  destruct p as [|c1 [|c2 [|c3 [|c4 [|c5 r]]]]]; try discriminate Hp.
  assert (H1 : isspace_char c1 = false).
  { destruct (isspace_char c1) eqn:E; [|reflexivity].
    pose proof (space_upper_char c1 E) as U. unfold upper in Hp; simpl in Hp.
    rewrite U in Hp. inversion Hp; subst c1. discriminate E. }
  unfold normalize_cwe.
  assert (Hs : strip (String c1 (String c2 (String c3 (String c4 ""))) ++ d)
               = (String c1 (String c2 (String c3 (String c4 ""))) ++ d)%string).
  { unfold strip. simpl lstrip. rewrite H1.
    apply (rstrip_app_digits (String c1 (String c2 (String c3 (String c4 ""))))).
    exact Hd. }
  rewrite Hs, upper_app, Hp.
  assert (Hu : upper d = d).
  { apply upper_digits. unfold isdigit in Hd.
    now apply andb_true_iff in Hd as [_ Hd]. }
  rewrite Hu. simpl. destruct d; reflexivity.
Qed.





(** ** Severity normalization *)

Lemma is_level_In (v : string) :
  Normalize.is_level v = true -> In v Normalize.LEVELS /\ truthy v = true.
Proof.
  unfold Normalize.is_level. intros H.
  apply existsb_exists in H as (x & Hin & Hx).
  apply String.eqb_eq in Hx; subst x. split; [exact Hin|].
  simpl in Hin. repeat destruct Hin as [<- | Hin]; try reflexivity.
  contradiction.
Qed.

Lemma valid_table_get (m : list (string * string)) (k v : string) :
  Spec.valid_table m = true -> Py.get String.eqb m k = Some v ->
  Normalize.is_level v = true.
Proof.
  unfold Spec.valid_table. induction m as [|[k' v'] r IH]; simpl; [discriminate|].
  intros H G. apply andb_true_iff in H as [Hv Hr].
  destruct (String.eqb k k'); [inversion G; subst; exact Hv | now apply IH].
Qed.

Lemma standard_table_valid : Spec.valid_table Normalize.STANDARD_SEVERITY = true.
Proof. reflexivity. Qed.

Lemma source_tables_valid :
  Spec.valid_table Normalize.TRIVY_SEVERITY = true
  /\ Spec.valid_table Normalize.GRYPE_SEVERITY = true
  /\ Spec.valid_table Normalize.NODEJSSCAN_SEVERITY = true
  /\ Spec.valid_table Normalize.ZAP_RISK = true.
Proof. repeat split; reflexivity. Qed.

(** The last test of [normalize_severity], on the upper-cased value, is
    never reached with a level: the generic table has caught it before. *)
Lemma level_upper_in_standard (raw : string) :
  Normalize.is_level (upper raw) = true ->
  Py.get String.eqb Normalize.STANDARD_SEVERITY (lower raw) <> None.
Proof.
  intros H. apply is_level_In in H as [Hin _].
  rewrite <- lower_upper.
  simpl in Hin. repeat destruct Hin as [<- | Hin]; try discriminate.
  contradiction.
Qed.


Lemma normalize_severity_str (py_repr : Normalize.pyval -> string)
  (raw : string) (mapping : option (list (string * string))) :
  Spec.valid_table (Spec.table_of mapping) = true ->
  Normalize.normalize_severity py_repr (Normalize.PStr raw) mapping
  = Ok (Spec.severity_lookup raw mapping)
  /\ In (Spec.severity_lookup raw mapping) Normalize.LEVELS.
Proof.
  intros Hv.
  unfold Normalize.normalize_severity, Spec.severity_lookup.
  cbv beta iota delta [Normalize.truthy_val].
  destruct (truthy raw) eqn:T; cbv beta iota delta [negb].
  2:{ destruct raw; [|discriminate T]. simpl. split; [reflexivity|].
      right; right; right; right; left; reflexivity. }
  set (hit := match mapping with
              | Some ((_ :: _) as m) => _
              | _ => Ok None
              end).
  assert (Hhit : hit = Ok (Py.get String.eqb (Spec.table_of mapping) raw)).
  { subst hit. destruct mapping as [[|kv m]|]; try reflexivity.
    unfold Normalize.mapping_get, Py.bind, Normalize.py_str, Spec.table_of.
    destruct (Normalize.opt_truthy (Py.get String.eqb (kv :: m) raw));
      reflexivity. }
  rewrite Hhit. clear hit Hhit.
  cbv beta iota delta [Py.bind Normalize.str_method].
  destruct (Py.get String.eqb (Spec.table_of mapping) raw) as [v|] eqn:G.
  - pose proof (valid_table_get _ _ _ Hv G) as L.
    apply is_level_In in L as [Hin Ht].
    destruct v; [discriminate Ht|]. split; [reflexivity | exact Hin].
  - destruct (Py.get String.eqb Normalize.STANDARD_SEVERITY (lower raw))
      as [v|] eqn:S.
    + pose proof (valid_table_get _ _ _ standard_table_valid S) as L.
      apply is_level_In in L as [Hin Ht].
      destruct v; [discriminate Ht|]. split; [reflexivity | exact Hin].
    + destruct (Normalize.is_level (upper raw)) eqn:U.
      * apply level_upper_in_standard in U. contradiction.
      * split; [reflexivity|].
        right; right; right; right; left; reflexivity.
Qed.



(** ** Metrics *)

Lemma Qnat_eq_zero (n : nat) :
  Qeq_bool (Metrics.Qnat n) 0 = (n =? 0).
Proof.
  destruct n as [|m]; [reflexivity|].
  unfold Metrics.Qnat, Qeq_bool, inject_Z. simpl Qnum. simpl Qden.
  rewrite Z.mul_1_r. reflexivity.
Qed.

Lemma truediv_nat (a : Q) (n : nat) :
  (0 <? n) = true -> Metrics.truediv a (Metrics.Qnat n) = Ok (a / Metrics.Qnat n)%Q.
Proof.
  intros H. unfold Metrics.truediv. rewrite Qnat_eq_zero.
  destruct n; [discriminate H | reflexivity].
Qed.

Lemma truediv_positive (a b : Q) :
  Metrics.Qgt_bool b 0 = true -> Metrics.truediv a b = Ok (a / b)%Q.
Proof.
  unfold Metrics.Qgt_bool, Metrics.truediv. intros H.
  destruct (Qeq_bool b 0) eqn:E; [|reflexivity].
  apply Qeq_bool_iff in E. apply negb_true_iff in H.
  assert (L : Qle_bool b 0 = true) by (apply Qle_bool_iff; rewrite E; apply Qle_refl).
  congruence.
Qed.

(** The scores [compute_scores] returns, division by division. *)
Lemma compute_scores_value (tp fp fn : nat) :
  let p := if 0 <? tp + fp
           then Metrics.round3 (Metrics.Qnat tp / Metrics.Qnat (tp + fp))
           else 0%Q in
  let r := if 0 <? tp + fn
           then Metrics.round3 (Metrics.Qnat tp / Metrics.Qnat (tp + fn))
           else 0%Q in
  let f := if Metrics.Qgt_bool (p + r) 0
           then Metrics.round3 (2 * p * r / (p + r))
           else 0%Q in
  Metrics.compute_scores tp fp fn
  = Ok {| Metrics.precision := p; Metrics.recall := r; Metrics.f1 := f |}.
Proof.
  intros p r f. unfold Metrics.compute_scores.
  assert (Hp : (if 0 <? tp + fp
                then q <- Metrics.truediv (Metrics.Qnat tp) (Metrics.Qnat (tp + fp)) ;;
                     Ok (Metrics.round3 q)
                else Ok 0%Q) = Ok p).
  { subst p. destruct (0 <? tp + fp) eqn:E; [|reflexivity].
    now rewrite (truediv_nat _ _ E). }
  assert (Hr : (if 0 <? tp + fn
                then q <- Metrics.truediv (Metrics.Qnat tp) (Metrics.Qnat (tp + fn)) ;;
                     Ok (Metrics.round3 q)
                else Ok 0%Q) = Ok r).
  { subst r. destruct (0 <? tp + fn) eqn:E; [|reflexivity].
    now rewrite (truediv_nat _ _ E). }
  rewrite Hp. unfold Py.bind at 1. cbv beta iota.
  rewrite Hr. unfold Py.bind at 1. cbv beta iota.
  subst f. unfold Py.bind. destruct (Metrics.Qgt_bool (p + r) 0) eqn:E; [|reflexivity].
  now rewrite (truediv_positive _ _ E).
Qed.

(** C8. For all counts the three scores are computed without raising:
    every division runs only under its denominator test.  Precision is
    [0.0] when [tp + fp = 0], recall is [0.0] when [tp + fn = 0], and F1 is
    [0.0] when precision plus recall is zero. *)
Theorem compute_scores_never_divides_by_zero :
  forall tp fp fn : nat,
    exists sc : Metrics.scores,
      Metrics.compute_scores tp fp fn = Ok sc
      /\ (tp + fp = 0 -> Metrics.precision sc = 0%Q)
      /\ (tp + fn = 0 -> Metrics.recall sc = 0%Q)
      /\ ((Metrics.precision sc + Metrics.recall sc == 0)%Q ->
          Metrics.f1 sc = 0%Q).
Proof.
  intros tp fp fn. eexists. split; [apply compute_scores_value|].
  cbv beta zeta. simpl Metrics.precision. simpl Metrics.recall. simpl Metrics.f1.
  split; [|split].
  - intros ->. reflexivity.
  - intros ->. reflexivity.
  - intros H.
    match goal with |- (if ?b then _ else _) = _ => destruct b eqn:E end;
      [|reflexivity].
    unfold Metrics.Qgt_bool in E. apply negb_true_iff in E.
    assert (L : Qle_bool
                  ((if 0 <? tp + fp
                    then Metrics.round3 (Metrics.Qnat tp / Metrics.Qnat (tp + fp))
                    else 0) +
                   (if 0 <? tp + fn
                    then Metrics.round3 (Metrics.Qnat tp / Metrics.Qnat (tp + fn))
                    else 0)) 0 = true)
      by (apply Qle_bool_iff; rewrite H; apply Qle_refl).
    congruence.
Qed.

Lemma compute_scores_never_divides_by_zero_witness :
  exists sc : Metrics.scores,
    Metrics.compute_scores 0 0 0 = Ok sc /\ Metrics.precision sc = 0%Q.
Proof.
  destruct (compute_scores_never_divides_by_zero 0 0 0) as (sc & E & P & _).
  exists sc. split; [exact E | apply P; reflexivity].
Defined.

Lemma count_fn_from (tp_cwes : list string) (gt_entries : list Metrics.csv_row)
  (acc : nat) :
  fold_left
    (fun fn gt_row =>
       if negb (existsb (String.eqb (strip (Metrics.field gt_row "cwe"))) tp_cwes)
       then S fn else fn)
    gt_entries acc
  = acc + List.length (Spec.uncovered tp_cwes gt_entries).
Proof.
  revert acc. induction gt_entries as [|row rest IH]; intros acc; simpl.
  - lia.
  - rewrite IH.
    destruct (existsb (String.eqb (strip (Metrics.field row "cwe"))) tp_cwes);
      simpl; lia.
Qed.


Lemma count_fn_uncovered (tp_cwes : list string)
  (gt_entries : list Metrics.csv_row) :
  Metrics.count_fn tp_cwes gt_entries
  = List.length (Spec.uncovered tp_cwes gt_entries).
Proof. unfold Metrics.count_fn. now rewrite count_fn_from. Qed.





(** ** Consensus triage *)

Lemma key2_eqb_eq (a b : key2) : key2_eqb a b = true <-> a = b.
Proof.
  destruct a as [a1 a2], b as [b1 b2]. unfold key2_eqb. simpl.
  rewrite andb_true_iff, !String.eqb_eq. split.
  - intros [-> ->]. reflexivity.
  - intros E. inversion E. auto.
Qed.

Lemma key3_eqb_eq (a b : key3) : key3_eqb a b = true <-> a = b.
Proof.
  destruct a as [a1 a2], b as [b1 b2]. unfold key3_eqb. simpl.
  rewrite andb_true_iff, key2_eqb_eq, Nat.eqb_eq. split.
  - intros [-> ->]. reflexivity.
  - intros E. inversion E. auto.
Qed.

Lemma get_Some_In {K V : Type} (eqk : K -> K -> bool) (d : list (K * V))
  (k : K) (v : V) :
  (forall a b, eqk a b = true -> a = b) ->
  Py.get eqk d k = Some v -> In (k, v) d.
Proof.
  intros Heq. induction d as [|[k' v'] r IH]; simpl; [discriminate|].
  destruct (eqk k k') eqn:E.
  - intros H. inversion H; subst. apply Heq in E. subst. now left.
  - intros H. right. now apply IH.
Qed.

Lemma In_get_Some {K V : Type} (eqk : K -> K -> bool) (d : list (K * V))
  (k : K) :
  (forall a, eqk a a = true) ->
  In k (map fst d) -> exists v, Py.get eqk d k = Some v.
Proof.
  intros Hrefl. induction d as [|[k' v'] r IH]; simpl; [contradiction|].
  intros [-> | H].
  - rewrite Hrefl. eauto.
  - destruct (eqk k k'); eauto.
Qed.

Lemma insert_In {A : Type} (le : A -> A -> bool) (x y : A) (l : list A) :
  In y (Py.insert le x l) <-> y = x \/ In y l.
Proof.
  induction l as [|z r IH]; simpl; [intuition auto|].
  destruct (le z x); simpl; rewrite ?IH; intuition auto.
Qed.

Lemma insert_length {A : Type} (le : A -> A -> bool) (x : A) (l : list A) :
  List.length (Py.insert le x l) = S (List.length l).
Proof.
  induction l as [|z r IH]; simpl; [reflexivity|].
  destruct (le z x); simpl; now rewrite ?IH.
Qed.

Lemma sorted_from_In {A : Type} (le : A -> A -> bool) (l acc : list A) (y : A) :
  In y (fold_left (fun acc x => Py.insert le x acc) l acc) <-> In y l \/ In y acc.
Proof.
  revert acc. induction l as [|x r IH]; intros acc; simpl; [intuition auto|].
  rewrite IH, insert_In. intuition auto.
Qed.

Lemma sorted_from_length {A : Type} (le : A -> A -> bool) (l acc : list A) :
  List.length (fold_left (fun acc x => Py.insert le x acc) l acc)
  = List.length l + List.length acc.
Proof.
  revert acc. induction l as [|x r IH]; intros acc; simpl; [reflexivity|].
  rewrite IH, insert_length. lia.
Qed.

Lemma sorted_In {A : Type} (le : A -> A -> bool) (l : list A) (y : A) :
  In y (Py.sorted le l) <-> In y l.
Proof. unfold Py.sorted. rewrite sorted_from_In. simpl. intuition auto. Qed.

Lemma sorted_length {A : Type} (le : A -> A -> bool) (l : list A) :
  List.length (Py.sorted le l) = List.length l.
Proof. unfold Py.sorted. rewrite sorted_from_length. simpl. lia. Qed.

Lemma dedup_In (l : list string) (x : string) : In x (dedup l) <-> In x l.
Proof.
  induction l as [|y r IH]; simpl; [tauto|].
  destruct (existsb (String.eqb y) r) eqn:E; simpl; rewrite IH; [|tauto].
  split; [auto|]. intros [<- | H]; [|exact H].
  apply existsb_exists in E as (z & Hz & Ez).
  apply String.eqb_eq in Ez. now subst.
Qed.

Lemma dedup_NoDup (l : list string) : NoDup (dedup l).
Proof.
  induction l as [|y r IH]; simpl; [constructor|].
  destruct (existsb (String.eqb y) r) eqn:E; [exact IH|].
  constructor; [|exact IH].
  rewrite dedup_In. intros H.
  assert (existsb (String.eqb y) r = true)
    by (apply existsb_exists; exists y; split; [exact H | apply String.eqb_refl]).
  congruence.
Qed.

Lemma sorted_set_length (l : list string) :
  List.length (sorted_set l) = List.length (nodup string_dec l).
Proof.
  unfold sorted_set. rewrite sorted_length.
  apply Permutation_length, NoDup_Permutation.
  - apply dedup_NoDup.
  - apply NoDup_nodup.
  - intros x. now rewrite dedup_In, nodup_In.
Qed.

Section DictFacts.

Context {K V : Type} (eqk : K -> K -> bool).
Hypothesis eqk_eq : forall a b, eqk a b = true <-> a = b.

Lemma eqk_refl (a : K) : eqk a a = true.
Proof. now apply eqk_eq. Qed.

Lemma get_set_same (d : list (K * V)) (k : K) (v : V) :
  Py.get eqk (Py.set eqk d k v) k = Some v.
Proof.
  induction d as [|[k' v'] r IH]; simpl; [now rewrite eqk_refl|].
  destruct (eqk k k') eqn:E; simpl; rewrite E; [reflexivity | exact IH].
Qed.

Lemma get_set_other (d : list (K * V)) (k k' : K) (v : V) :
  k' <> k -> Py.get eqk (Py.set eqk d k v) k' = Py.get eqk d k'.
Proof.
  intros N. induction d as [|[k0 v0] r IH]; simpl.
  - destruct (eqk k' k) eqn:E; [apply eqk_eq in E; contradiction | reflexivity].
  - destruct (eqk k k0) eqn:E; simpl; [|now rewrite IH].
    apply eqk_eq in E. subst k0.
    destruct (eqk k' k) eqn:E2; [apply eqk_eq in E2; contradiction | reflexivity].
Qed.

Lemma get_update_same (d : list (K * V)) (k : K) (dflt : V) (f : V -> V) :
  Py.get eqk (Py.update eqk d k dflt f) k
  = Some (f match Py.get eqk d k with Some v => v | None => dflt end).
Proof.
  unfold Py.update. destruct (Py.get eqk d k); apply get_set_same.
Qed.

Lemma get_update_other (d : list (K * V)) (k k' : K) (dflt : V) (f : V -> V) :
  k' <> k -> Py.get eqk (Py.update eqk d k dflt f) k' = Py.get eqk d k'.
Proof.
  intros N. unfold Py.update. destruct (Py.get eqk d k); now apply get_set_other.
Qed.

End DictFacts.

Lemma build_gt_index_from (gt_entries : list gt_entry) (index : gt_index_t)
  (k : key2) :
  Spec.gt_lookup
    (fold_left
       (fun index entry =>
          Py.update key2_eqb index (gt_target entry, gt_cwe entry) []
            (fun l => l ++ [entry]))
       gt_entries index) k
  = Spec.gt_lookup index k
    ++ filter (fun e => key2_eqb k (gt_target e, gt_cwe e)) gt_entries.
Proof.
  revert index. induction gt_entries as [|e r IH]; intros index; simpl.
  - now rewrite app_nil_r.
  - rewrite IH. unfold Spec.gt_lookup at 1.
    destruct (key2_eqb k (gt_target e, gt_cwe e)) eqn:E.
    + apply key2_eqb_eq in E. subst k.
      rewrite (get_update_same key2_eqb key2_eqb_eq).
      fold (Spec.gt_lookup index (gt_target e, gt_cwe e)).
      now rewrite <- app_assoc.
    + rewrite (get_update_other key2_eqb key2_eqb_eq); [reflexivity|].
      intros ->. rewrite (proj2 (key2_eqb_eq _ _) eq_refl) in E. discriminate E.
Qed.

Lemma check_ground_truth_iff (gt_entries : list gt_entry) (target cwe : string) :
  check_ground_truth target cwe (build_gt_index gt_entries)
  = Spec.in_ground_truth gt_entries target cwe.
Proof.
  unfold check_ground_truth, build_gt_index.
  pose proof (build_gt_index_from gt_entries [] (target, cwe)) as H.
  unfold Spec.gt_lookup in H at 1. simpl in H.
  assert (E : (match Py.get key2_eqb
                       (fold_left
                          (fun index entry =>
                             Py.update key2_eqb index
                               (gt_target entry, gt_cwe entry) []
                               (fun l => l ++ [entry]))
                          gt_entries []) (target, cwe) with
               | Some l => 0 <? List.length l
               | None => false
               end)
              = (0 <? List.length
                        (filter (fun e => key2_eqb (target, cwe)
                                            (gt_target e, gt_cwe e)) gt_entries))).
  { rewrite <- H.
    destruct (Py.get key2_eqb _ (target, cwe)); reflexivity. }
  rewrite E. clear E H. unfold Spec.in_ground_truth.
  induction gt_entries as [|e r IH]; simpl; [reflexivity|].
  unfold key2_eqb at 1. simpl.
  rewrite (String.eqb_sym target), (String.eqb_sym cwe).
  destruct ((gt_target e =? target)%string && (gt_cwe e =? cwe)%string);
    simpl; [reflexivity | exact IH].
Qed.

Lemma triage_one_fields (target cwe : string) (cluster : list finding)
  (gt_index : gt_index_t) (seq : nat) :
  let r := triage_one target cwe cluster gt_index seq in
  row_target r = target /\ row_cwe r = cwe
  /\ (verdict r, confidence r)
     = Spec.consensus (List.length (sorted_set (map tool cluster)))
         (check_ground_truth target cwe gt_index).
Proof.
  unfold triage_one, Spec.consensus.
  destruct (2 <=? List.length (sorted_set (map tool cluster)));
    [repeat split|].
  destruct ((List.length (sorted_set (map tool cluster)) =? 1)
            && check_ground_truth target cwe gt_index); repeat split.
Qed.

Lemma In_NoDup_get {K V : Type} (eqk : K -> K -> bool) (d : list (K * V))
  (k : K) (v : V) :
  (forall a b, eqk a b = true <-> a = b) ->
  NoDup (map fst d) -> In (k, v) d -> Py.get eqk d k = Some v.
Proof.
  intros Heq. induction d as [|[k' v'] r IH]; simpl; [contradiction|].
  intros N H. inversion N as [|? ? Hk Hr]; subst.
  destruct H as [E | H].
  - inversion E; subst. now rewrite (proj2 (Heq k k) eq_refl).
  - destruct (eqk k k') eqn:E; [|now apply IH].
    apply Heq in E. subst k'. exfalso. apply Hk.
    apply (in_map fst) in H. exact H.
Qed.

Lemma triage_loop_rows (groups : groups_t) (gt_index : gt_index_t)
  (keys : list key3) :
  (forall k, In k keys -> In k (map fst groups)) ->
  forall (counters : list (string * nat)) (results : list triage_row),
  exists rows,
    triage_loop groups gt_index keys counters results = Ok (results ++ rows)
    /\ List.length rows = List.length keys
    /\ (forall r, In r rows ->
          exists target cwe idx cluster seq,
            Py.get key3_eqb groups (target, cwe, idx) = Some cluster
            /\ r = triage_one target cwe cluster gt_index seq)
    /\ (forall target cwe idx, In (target, cwe, idx) keys ->
          exists cluster seq,
            Py.get key3_eqb groups (target, cwe, idx) = Some cluster
            /\ In (triage_one target cwe cluster gt_index seq) rows).
Proof.
  induction keys as [|[[t c] i] rest IH]; intros Hk counters results.
  - exists []. simpl. rewrite app_nil_r. repeat split; contradiction.
  - simpl.
    destruct (In_get_Some key3_eqb groups (t, c, i)
                (fun a => proj2 (key3_eqb_eq a a) eq_refl)
                (Hk _ (or_introl eq_refl))) as [cluster G].
    rewrite G.
    set (seq := match Py.get String.eqb (Py.update String.eqb counters t 0 S) t
                with Some n => n | None => 0 end).
    destruct (IH (fun k H => Hk k (or_intror H))
                (Py.update String.eqb counters t 0 S)
                (results ++ [triage_one t c cluster gt_index seq]))
      as (rows & E & L & R & Q).
    exists (triage_one t c cluster gt_index seq :: rows).
    split; [rewrite E, <- app_assoc; reflexivity|].
    split; [simpl; now rewrite L|]. split.
    + intros r [<- | Hr]; [|now apply R].
      exists t, c, i, cluster, seq. split; [exact G | reflexivity].
    + intros t' c' i' [E' | H'].
      * inversion E'; subst. exists cluster, seq. split; [exact G | now left].
      * destruct (Q t' c' i' H') as (cl & sq & G' & I').
        exists cl, sq. split; [exact G' | now right].
Qed.

Lemma consensus_cases (n : nat) (g : bool) (v c : string) :
  (v, c) = Spec.consensus n g ->
  (2 <= n -> v = "TP" /\ c = "high")
  /\ (n = 1 -> g = true -> v = "TP" /\ c = "medium")
  /\ (n < 2 -> (n = 1 -> g = false) -> v = "pending" /\ c = "low")
  /\ v <> "FP".
Proof.
  unfold Spec.consensus. intros H.
  destruct (2 <=? n) eqn:E2.
  - apply Nat.leb_le in E2. inversion H; subst.
    repeat split; try lia; intros; try lia. discriminate.
  - apply Nat.leb_gt in E2. destruct (n =? 1) eqn:E1.
    + apply Nat.eqb_eq in E1. destruct g; simpl in H; inversion H; subst.
      * repeat split; try lia; try discriminate.
      * repeat split; try lia; try discriminate.
    + apply Nat.eqb_neq in E1. simpl in H. inversion H; subst.
      repeat split; try lia; try discriminate.
Qed.

Lemma triage_one_rule (target cwe : string) (cluster : list finding)
  (gt_entries : list gt_entry) (seq : nat) :
  Spec.consensus_rule gt_entries cluster
    (triage_one target cwe cluster (build_gt_index gt_entries) seq).
Proof.
  destruct (triage_one_fields target cwe cluster (build_gt_index gt_entries) seq)
    as (Ht & Hc & Hv).
  unfold Spec.consensus_rule. rewrite Ht, Hc.
  rewrite check_ground_truth_iff, sorted_set_length in Hv.
  fold (Spec.distinct_tools cluster) in Hv.
  cbv zeta. now apply consensus_cases.
Qed.

(** C3. [triage_groups] returns one row per group.  The row of a group has
    verdict [TP] with confidence [high] when the group has at least two
    distinct tools, [TP] with [medium] when it has exactly one and some
    ground-truth entry shares its [(target, cwe)], and [pending] with [low]
    otherwise; no row has the verdict [FP]. *)
Theorem triage_groups_consensus :
  forall (groups : groups_t) (gt_entries : list gt_entry),
    NoDup (map fst groups) ->
    exists rows : list triage_row,
      triage_groups groups (build_gt_index gt_entries) = Ok rows
      /\ List.length rows = List.length groups
      /\ (forall target cwe idx cluster,
            In ((target, cwe, idx), cluster) groups ->
            exists r, In r rows
                      /\ row_target r = target /\ row_cwe r = cwe
                      /\ Spec.consensus_rule gt_entries cluster r)
      /\ (forall r, In r rows -> verdict r <> "FP").
Proof.
  intros groups gt_entries ND. unfold triage_groups.
  destruct (triage_loop_rows groups (build_gt_index gt_entries)
              (sorted key3_leb (map fst groups))
              (fun k H => proj1 (sorted_In key3_leb (map fst groups) k) H)
              [] []) as (rows & E & L & R & Q).
  exists rows. split; [exact E|].
  split; [now rewrite L, sorted_length, length_map|]. split.
  - intros t c i cluster Hin.
    destruct (Q t c i) as (cl & seq & G & I).
    { apply sorted_In. apply (in_map fst) in Hin. exact Hin. }
    rewrite (In_NoDup_get key3_eqb groups (t, c, i) cluster key3_eqb_eq ND Hin)
      in G.
    inversion G; subst cl.
    exists (triage_one t c cluster (build_gt_index gt_entries) seq).
    split; [exact I|].
    destruct (triage_one_fields t c cluster (build_gt_index gt_entries) seq)
      as (Ht & Hc & _).
    split; [exact Ht|]. split; [exact Hc|]. apply triage_one_rule.
  - intros r Hr. destruct (R r Hr) as (t & c & i & cluster & seq & _ & ->).
    apply (triage_one_rule t c cluster gt_entries seq).
Qed.

Lemma triage_groups_consensus_witness :
  exists rows : list triage_row,
    triage_groups
      [(("myapp", "CWE-89", 0),
        [Spec.finding_at "bandit" "myapp" "CWE-89" "myapp/login.py:42";
         Spec.finding_at "semgrep" "myapp" "CWE-89" "myapp/login.py:50"])]
      (build_gt_index []) = Ok rows
    /\ forall r, In r rows -> verdict r <> "FP".
Proof.
  destruct (triage_groups_consensus
              [(("myapp", "CWE-89", 0),
                [Spec.finding_at "bandit" "myapp" "CWE-89" "myapp/login.py:42";
                 Spec.finding_at "semgrep" "myapp" "CWE-89" "myapp/login.py:50"])]
              []) as (rows & E & _ & _ & NF).
  - simpl. constructor; [intros H; exact H | constructor].
  - exists rows. split; [exact E | exact NF].
Defined.

Lemma set_keys_NoDup {K V : Type} (eqk : K -> K -> bool) (d : list (K * V))
  (k : K) (v : V) :
  (forall a b, eqk a b = true <-> a = b) ->
  NoDup (map fst d) -> NoDup (map fst (Py.set eqk d k v)).
Proof.
  intros Heq. induction d as [|[k' v'] r IH]; simpl; intros N.
  - constructor; [intros [] | constructor].
  - inversion N as [|? ? Hk Hr]; subst.
    destruct (eqk k k') eqn:E; simpl; [exact N|].
    constructor; [|now apply IH].
    intros H. apply Hk. clear IH N Hr Hk.
    induction r as [|[k0 v0] r IH]; simpl in *.
    + destruct H as [<- | []].
      rewrite (proj2 (Heq k k) eq_refl) in E. discriminate E.
    + destruct (eqk k k0); simpl in H; [exact H|].
      destruct H as [<- | H]; [now left | right; now apply IH].
Qed.

(** The groups [group_findings] returns form a dictionary: no key twice. *)
Lemma group_findings_keys (urlparse_path : string -> option string)
  (findings : list finding) (groups : groups_t) :
  group_findings urlparse_path findings = Ok groups -> NoDup (map fst groups).
Proof.
  unfold group_findings.
  assert (S : forall tc clusters idx g,
             NoDup (map fst g) ->
             NoDup (map fst (store_clusters tc idx clusters g))).
  { intros tc clusters. induction clusters as [|c r IH]; intros idx g N; simpl.
    - exact N.
    - apply IH. now apply set_keys_NoDup; [apply key3_eqb_eq|]. }
  assert (B : forall buckets g,
             NoDup (map fst g) ->
             group_buckets urlparse_path buckets g = Ok groups ->
             NoDup (map fst groups)).
  { induction buckets as [|[tc fs] r IH]; intros g N; simpl.
    - intros E. inversion E; subst. exact N.
    - destruct (cluster_bucket urlparse_path fs []) as [cl|e]; simpl;
        [|discriminate].
      apply IH. now apply S. }
  apply B. constructor.
Qed.

Example end_to_end_scenario :
  (groups <- group_findings cpython_urlparse_path
               [Spec.finding_at "bandit" "myapp" "CWE-89" "myapp/login.py:42";
                Spec.finding_at "semgrep" "myapp" "CWE-89" "myapp/login.py:50";
                Spec.finding_at "bandit" "myapp" "CWE-79" "myapp/view.py:7"] ;;
   rows <- triage_groups groups (build_gt_index []) ;;
   Ok (map (fun r => (finding_group_id r, tools r, verdict r, confidence r)) rows))
  = Ok [("GRP-myapp-CWE-79-001", "bandit", "pending", "low");
        ("GRP-myapp-CWE-89-002", "bandit|semgrep", "TP", "high")].
Proof. reflexivity. Qed.

(** ** Clustering *)

(** C1.  [group_findings] makes one pass and never merges two clusters, so
    it does not compute the connected components of [locations_match].
    With the URL [A], the URL [C] of another path and the file [B] whose
    basename both URLs end in, [B] matches [A] and [C]; processed in the
    order [A, C, B] the finding [B] joins the cluster of [A] and [C] stays
    apart, while the order [A, B, C] yields a single cluster. *)
Theorem group_findings_depends_on_order :
  let A := Spec.finding_at "zap" "shop" "CWE-79" "http://shop/a/app.js" in
  let B := Spec.finding_at "bearer" "shop" "CWE-79" "/src/app.js:12" in
  let C := Spec.finding_at "nuclei" "shop" "CWE-79" "http://shop/b/app.js" in
  lm (location A) (location B) = Ok true
  /\ lm (location B) (location C) = Ok true
  /\ lm (location A) (location C) = Ok false
  /\ group_findings cpython_urlparse_path [A; C; B]
     = Ok [(("shop", "CWE-79", 0), [A; B]); (("shop", "CWE-79", 1), [C])]
  /\ group_findings cpython_urlparse_path [A; B; C]
     = Ok [(("shop", "CWE-79", 0), [A; B; C])].
Proof. repeat split; reflexivity. Qed.







Example dedup_nocwe_separate :
  map Validate.d_tools
    (Validate.deduplicate_findings
       [Validate.mkScan "gpt" "bandit" "app.py" 3 "" "B101" "LOW" "";
        Validate.mkScan "gpt" "semgrep" "app.py" 3 "" "r1" "LOW" "";
        Validate.mkScan "gpt" "bandit" "app.py" 9 "CWE-89" "B608" "HIGH" "";
        Validate.mkScan "gpt" "semgrep" "app.py" 7 "CWE-89" "r2" "MEDIUM" ""])
  = ["bandit"; "semgrep"; "bandit, semgrep"].
Proof. reflexivity. Qed.

(** The string key of [deduplicate_findings] does not separate every pair
    of tools: tool and rule id are joined by an underscore. *)
Example dedup_nocwe_key_collision :
  Validate.dedup_key (Validate.mkScan "gpt" "x" "app.py" 1 "" "y_z" "LOW" "")
  = Validate.dedup_key (Validate.mkScan "gpt" "x_y" "app.py" 1 "" "z" "LOW" "").
Proof. reflexivity. Qed.

(** ** From triage rows to per-tool counts *)

(** What the docstring of [extract_tool_findings] describes: a TP row whose
    [tools] column is comma-separated credits each tool once. *)
Example extract_comma_separated :
  Metrics.extract_tool_findings
    [("shop", [[("tools", "bearer,zap"); ("verdict", "TP"); ("cwe", "CWE-79")]])]
  = [(("bearer", "shop"),
      {| Metrics.tp := 1; Metrics.fp := 0; Metrics.tp_cwes := ["CWE-79"] |});
     (("zap", "shop"),
      {| Metrics.tp := 1; Metrics.fp := 0; Metrics.tp_cwes := ["CWE-79"] |})].
Proof. reflexivity. Qed.

(** C7.  The triage writes the [tools] column joined by a vertical bar,
    and [extract_tool_findings] splits it at commas.  A TP group found by
    [bearer] and [zap] is written as [bearer|zap] and read back as one TP
    for a single tool of that name: neither [bearer] nor [zap] is
    credited. *)
Theorem tools_column_is_not_split_on_read_back :
  let findings :=
    [Spec.finding_at "bearer" "shop" "CWE-79" "/src/app.js:3";
     Spec.finding_at "zap" "shop" "CWE-79" "http://shop/static/app.js"] in
  exists stats : Metrics.tool_stats_t,
    Spec.triage_then_extract findings [] = Ok stats
    /\ stats
       = [(("bearer|zap", "shop"),
           {| Metrics.tp := 1; Metrics.fp := 0; Metrics.tp_cwes := ["CWE-79"] |})]
    /\ Py.get key2_eqb stats ("bearer", "shop") = None
    /\ Py.get key2_eqb stats ("zap", "shop") = None.
Proof. eexists. repeat split; reflexivity. Qed.

(** ** Schema adapters *)

Lemma mapM_returns {A B : Type} (f : A -> result B) (l : list A) :
  (forall x, In x l -> exists y, f x = Ok y) ->
  exists ys, Normalize.mapM f l = Ok ys.
Proof.
  induction l as [|x r IH]; intros H; simpl; [eauto|].
  destruct (H x (or_introl eq_refl)) as [y ->].
  destruct (IH (fun z Hz => H z (or_intror Hz))) as [ys ->].
  simpl. eauto.
Qed.

Lemma normalize_severity_falsy (py_repr : Normalize.pyval -> string)
  (raw : Normalize.pyval) (mapping : option (list (string * string))) :
  Normalize.truthy_val raw = false ->
  Normalize.normalize_severity py_repr raw mapping = Ok "INFO".
Proof. intros H. unfold Normalize.normalize_severity. now rewrite H. Qed.

Lemma index0_truthy (v : Normalize.pyval) :
  Normalize.truthy_val v = true ->
  match v with Normalize.PList _ | Normalize.PStr _ => true | _ => false end = true ->
  exists x, Normalize.index0 v = Ok x.
Proof.
  destruct v as [| | | | s | l | d]; simpl; try discriminate.
  - destruct s; [discriminate | eauto].
  - destruct l; [discriminate | eauto].
Qed.

Lemma trivy_vuln_returns (py_repr : Normalize.pyval -> string) (target : string)
  (v : Normalize.pyval) :
  Spec.trivy_vuln_shape v = true ->
  exists f, Normalize.trivy_vuln py_repr target v = Ok f.
Proof.
  destruct v as [| | | | | | d]; try discriminate.
  unfold Spec.trivy_vuln_shape.
  intros H. apply andb_true_iff in H as [Hc Hs].
  assert (C : exists c,
             (if Normalize.truthy_val
                   (Normalize.or_val (Spec.field_of d "CweIDs") (Normalize.PList []))
              then Normalize.index0
                     (Normalize.or_val (Spec.field_of d "CweIDs") (Normalize.PList []))
              else Ok (Normalize.PStr "")) = Ok c).
  { destruct (Normalize.truthy_val
                (Normalize.or_val (Spec.field_of d "CweIDs") (Normalize.PList [])))
      eqn:T; [|eauto].
    apply index0_truthy; assumption. }
  assert (S : exists s,
             Normalize.normalize_severity py_repr (Spec.field_of d "Severity")
               (Some Normalize.TRIVY_SEVERITY) = Ok s).
  { destruct (Spec.field_of d "Severity") as [| | | | s | |] eqn:F;
      try (eexists; apply normalize_severity_falsy;
           apply negb_true_iff in Hs; exact Hs).
    eexists.
    apply (normalize_severity_str py_repr s (Some Normalize.TRIVY_SEVERITY)).
    reflexivity. }
  destruct C as [c C], S as [s S].
  unfold Normalize.trivy_vuln. simpl Normalize.dict_get.
  fold (Spec.field_of d "CweIDs"). fold (Spec.field_of d "Severity").
  cbv beta iota delta [Py.bind]. rewrite C, S.
  match goal with
  | |- context [if Normalize.truthy_val ?t then Ok ?t else _] =>
      destruct (Normalize.truthy_val t)
  end; eauto.
Qed.

Lemma array_of_iterate (p : Normalize.pyval -> bool) (v : Normalize.pyval) :
  Spec.array_of p v = true ->
  exists l, Normalize.iterate (Normalize.or_val v (Normalize.PList [])) = Ok l
            /\ forall x, In x l -> p x = true.
Proof.
  unfold Spec.array_of.
  destruct (Normalize.or_val v (Normalize.PList [])); try discriminate.
  intros H. eexists. split; [reflexivity|]. now apply forallb_forall.
Qed.

Lemma trivy_block_returns (py_repr : Normalize.pyval -> string) (target : string)
  (v : Normalize.pyval) :
  Spec.trivy_block_shape v = true ->
  exists fs, Normalize.trivy_block py_repr target v = Ok fs.
Proof.
  destruct v as [| | | | | | d]; try discriminate.
  unfold Spec.trivy_block_shape. intros H.
  apply array_of_iterate in H as (l & E & Hl).
  unfold Normalize.trivy_block. simpl Normalize.dict_get.
  fold (Spec.field_of d "Vulnerabilities").
  unfold Py.bind at 1. rewrite E. unfold Py.bind at 1.
  apply mapM_returns. intros x Hx. apply trivy_vuln_returns. now apply Hl.
Qed.

(** C9, as the specification states it, fails: a file that parses as JSON
    but is not an object makes the adapter raise. *)
Lemma parse_trivy_raises_on_a_json_array :
  Normalize.parse_trivy Spec.repr_atom
    (fun _ => Normalize.Parsed (Normalize.PList [])) "trivy-shop.json" "shop"
  = (Raise AttributeError, []).
Proof. reflexivity. Qed.

(** C9, amended.  [load_json] never raises: for a file that cannot be read
    or parsed it logs one warning and returns [None], and [parse_trivy]
    then returns the empty list.  For a file that parses to a report of the
    Trivy shape, [parse_trivy] returns a list of findings without raising
    and without a warning. *)
Theorem parse_trivy_amended :
  forall (py_repr : Normalize.pyval -> string) (fs : string -> Normalize.file_read)
         (filepath target : string),
    (fs filepath = Normalize.Malformed ->
     Normalize.parse_trivy py_repr fs filepath target
     = (Ok [], [Normalize.MalformedJSON filepath]))
    /\ (fs filepath = Normalize.Unreadable ->
        Normalize.parse_trivy py_repr fs filepath target
        = (Ok [], [Normalize.ErrorReading filepath]))
    /\ (forall v, fs filepath = Normalize.Parsed v ->
        Spec.trivy_report_shape v = true ->
        exists findings,
          Normalize.parse_trivy py_repr fs filepath target = (Ok findings, [])).
Proof.
  intros py_repr fs filepath target.
  unfold Normalize.parse_trivy, Normalize.load_json.
  split; [intros ->; reflexivity|]. split; [intros ->; reflexivity|].
  intros v -> H. destruct v as [| | | | | | d]; try discriminate.
  unfold Spec.trivy_report_shape in H.
  apply array_of_iterate in H as (l & E & Hl).
  simpl Normalize.dict_get. fold (Spec.field_of d "Results").
  unfold Py.bind at 1. rewrite E. unfold Py.bind at 1.
  destruct (mapM_returns (Normalize.trivy_block py_repr target) l) as [bs B].
  { intros x Hx. apply trivy_block_returns. now apply Hl. }
  rewrite B. simpl. eauto.
Qed.

Lemma parse_trivy_amended_witness :
  Normalize.parse_trivy Spec.repr_atom (fun _ => Normalize.Malformed)
    "trivy-shop.json" "shop"
  = (Ok [], [Normalize.MalformedJSON "trivy-shop.json"])
  /\ exists findings,
       Normalize.parse_trivy Spec.repr_atom
         (fun _ => Normalize.Parsed
            (Normalize.PDict
               [("Results",
                 Normalize.PList
                   [Normalize.PDict
                      [("Vulnerabilities",
                        Normalize.PList
                          [Normalize.PDict
                             [("VulnerabilityID", Normalize.PStr "CVE-2024-1");
                              ("PkgName", Normalize.PStr "lodash");
                              ("InstalledVersion", Normalize.PStr "4.17.0");
                              ("Severity", Normalize.PStr "HIGH");
                              ("CweIDs", Normalize.PList [Normalize.PStr "CWE-79"])]])]])]))
         "trivy-shop.json" "shop"
       = (Ok findings, []).
Proof.
  split.
  - apply (parse_trivy_amended Spec.repr_atom (fun _ => Normalize.Malformed)
             "trivy-shop.json" "shop"). reflexivity.
  - eapply (parse_trivy_amended Spec.repr_atom); reflexivity.
Defined.

Example parse_trivy_ex :
  fst (Normalize.parse_trivy Spec.repr_atom
         (fun _ => Normalize.Parsed
            (Normalize.PDict
               [("Results",
                 Normalize.PList
                   [Normalize.PDict
                      [("Vulnerabilities",
                        Normalize.PList
                          [Normalize.PDict
                             [("VulnerabilityID", Normalize.PStr "CVE-2024-1");
                              ("PkgName", Normalize.PStr "lodash");
                              ("InstalledVersion", Normalize.PStr "4.17.0");
                              ("Severity", Normalize.PStr "HIGH");
                              ("Title", Normalize.PStr "Prototype  pollution");
                              ("CweIDs", Normalize.PList [Normalize.PStr "CWE-79"])]])]])]))
         "trivy-shop.json" "shop")
  = Ok [{| Normalize.tool := "trivy"; Normalize.target := "shop";
           Normalize.category := "container";
           Normalize.cwe := Normalize.PStr "CWE-79";
           Normalize.severity := "HIGH";
           Normalize.location := "lodash@4.17.0";
           Normalize.description := "Prototype pollution";
           Normalize.raw_id := Normalize.PStr "CVE-2024-1" |}].
Proof. reflexivity. Qed.

Example parse_trivy_numeric_severity :
  fst (Normalize.parse_trivy Spec.repr_atom
         (fun _ => Normalize.Parsed
            (Normalize.PDict
               [("Results",
                 Normalize.PList
                   [Normalize.PDict
                      [("Vulnerabilities",
                        Normalize.PList
                          [Normalize.PDict [("Severity", Normalize.PInt 5)]])]])]))
         "trivy-shop.json" "shop")
  = Raise AttributeError.
Proof. reflexivity. Qed.

(* ================================================================== *)
(** * Further properties of the scripts *)
(* ================================================================== *)

(** ** The grouping loop *)

Section DictShape.

Context {K V : Type} (eqk : K -> K -> bool).
Hypothesis eqk_eq : forall a b, eqk a b = true <-> a = b.

Lemma set_get_None (d : list (K * V)) (k : K) (v : V) :
  Py.get eqk d k = None -> Py.set eqk d k v = d ++ [(k, v)].
Proof.
  induction d as [|[k' v'] r IH]; simpl; [reflexivity|].
  destruct (eqk k k'); [discriminate|]. intros H. now rewrite IH.
Qed.

Lemma set_get_Some (d : list (K * V)) (k : K) (v0 v : V) :
  Py.get eqk d k = Some v0 ->
  exists d1 d2, d = d1 ++ (k, v0) :: d2
                /\ Py.set eqk d k v = d1 ++ (k, v) :: d2.
Proof.
  induction d as [|[k' v'] r IH]; simpl; [discriminate|].
  destruct (eqk k k') eqn:E.
  - intros H. inversion H; subst. apply eqk_eq in E. subst k'.
    exists [], r. split; reflexivity.
  - intros H. destruct (IH H) as (d1 & d2 & -> & ->).
    exists ((k', v') :: d1), d2. split; reflexivity.
Qed.

(** [update] either rewrites one entry in place or appends a new one. *)
Lemma update_shape (d : list (K * V)) (k : K) (dflt : V) (f : V -> V) :
  (exists d1 d2 v0, d = d1 ++ (k, v0) :: d2
                    /\ Py.update eqk d k dflt f = d1 ++ (k, f v0) :: d2)
  \/ (Py.get eqk d k = None
      /\ Py.update eqk d k dflt f = d ++ [(k, f dflt)]).
Proof.
  unfold Py.update. destruct (Py.get eqk d k) as [v0|] eqn:G.
  - left. destruct (set_get_Some d k v0 (f v0) G) as (d1 & d2 & E1 & E2).
    exists d1, d2, v0. auto.
  - right. split; [reflexivity | now apply set_get_None].
Qed.

End DictShape.

Section GroupBy.

Context {A K : Type} (eqk : K -> K -> bool) (key : A -> K).
Hypothesis eqk_eq : forall a b, eqk a b = true <-> a = b.

Lemma update_append_members (d : list (K * list A)) (x : A) :
  Permutation
    (concat (map snd (Py.update eqk d (key x) [] (fun l => l ++ [x]))))
    (concat (map snd d) ++ [x]).
Proof.
  unfold Py.update. destruct (Py.get eqk d (key x)) as [v0|] eqn:G.
  - destruct (set_get_Some eqk eqk_eq d (key x) v0 (v0 ++ [x]) G) as (d1 & d2 & -> & ->).
    rewrite !map_app, !concat_app. simpl.
    rewrite <- !app_assoc. apply Permutation_app_head.
    apply Permutation_app_head. apply Permutation_app_comm.
  - rewrite (set_get_None eqk d (key x) _ G).
    rewrite map_app, concat_app. simpl. rewrite ?app_nil_r. reflexivity.
Qed.

Lemma group_by_members (xs : list A) (d : list (K * list A)) :
  Permutation (concat (map snd (Spec.group_by eqk key xs d)))
    (concat (map snd d) ++ xs).
Proof.
  revert d. induction xs as [|x r IH]; intros d; simpl.
  - now rewrite app_nil_r.
  - unfold Spec.group_by in *. simpl. rewrite IH.
    rewrite update_append_members, <- app_assoc. reflexivity.
Qed.

Lemma group_by_keys (xs : list A) (d : list (K * list A)) :
  NoDup (map fst d) -> NoDup (map fst (Spec.group_by eqk key xs d)).
Proof.
  revert d. induction xs as [|x r IH]; intros d N; simpl; [exact N|].
  apply IH. unfold Py.update.
  destruct (Py.get eqk d (key x)); now apply set_keys_NoDup.
Qed.

Lemma group_by_lookup (xs : list A) (d : list (K * list A)) (k : K) :
  match Py.get eqk (Spec.group_by eqk key xs d) k with
  | Some l => l
  | None => []
  end
  = match Py.get eqk d k with Some l => l | None => [] end
    ++ filter (fun x => eqk k (key x)) xs.
Proof.
  revert d. induction xs as [|x r IH]; intros d; simpl.
  - now rewrite app_nil_r.
  - unfold Spec.group_by in *. simpl. rewrite IH.
    destruct (eqk k (key x)) eqn:E.
    + apply eqk_eq in E. subst k.
      rewrite (get_update_same eqk eqk_eq). now rewrite <- app_assoc.
    + rewrite (get_update_other eqk eqk_eq); [reflexivity|].
      intros ->. rewrite (proj2 (eqk_eq _ _) eq_refl) in E. discriminate E.
Qed.

Lemma group_by_nonempty (xs : list A) (d : list (K * list A)) :
  Forall (fun kv => snd kv <> []) d ->
  Forall (fun kv => snd kv <> []) (Spec.group_by eqk key xs d).
Proof.
  revert d. induction xs as [|x r IH]; intros d F; simpl; [exact F|].
  apply IH. unfold Py.update.
  destruct (Py.get eqk d (key x)) as [v0|] eqn:G.
  - destruct (set_get_Some eqk eqk_eq d (key x) v0 (v0 ++ [x]) G) as (d1 & d2 & -> & ->).
    apply Forall_app in F as [F1 F2]. inversion F2; subst.
    apply Forall_app. split; [exact F1|].
    constructor; [simpl; now destruct v0 | assumption].
  - rewrite (set_get_None eqk d (key x) _ G). apply Forall_app. split; [exact F|].
    constructor; [discriminate | constructor].
Qed.

(** What the loop builds from an empty dictionary: no key twice, and
    under each key, in input order, exactly the elements with that key. *)
Lemma group_by_spec (xs : list A) :
  let d := Spec.group_by eqk key xs [] in
  NoDup (map fst d)
  /\ forall k l, In (k, l) d ->
       l = filter (fun x => eqk k (key x)) xs /\ l <> [].
Proof.
  cbv zeta. split; [apply group_by_keys; constructor|].
  intros k l H. split.
  - pose proof (group_by_lookup xs [] k) as L.
    rewrite (In_NoDup_get eqk _ k l eqk_eq
               (group_by_keys xs [] (NoDup_nil _)) H) in L.
    exact L.
  - pose proof (group_by_nonempty xs [] (Forall_nil _)) as F.
    rewrite Forall_forall in F. exact (F (k, l) H).
Qed.

End GroupBy.

(** ** Clustering: what [group_findings] guarantees *)

Section ClusterFacts.

Variable urlparse_path : string -> option string.

Lemma matches_cluster_true (f : finding) (cluster : list finding) :
  matches_cluster urlparse_path f cluster = Ok true ->
  exists e, In e cluster
            /\ locations_match urlparse_path (location f) (location e) = Ok true.
Proof.
  induction cluster as [|e r IH]; simpl; [discriminate|].
  destruct (locations_match urlparse_path (location f) (location e))
    as [[|]|] eqn:M; simpl; try discriminate.
  - intros _. exists e. split; [now left | exact M].
  - intros H. destruct (IH H) as (e' & Hin & He). exists e'. split; [now right | exact He].
Qed.

Lemma place_cases (f : finding) (clusters clusters' : list (list finding)) :
  place urlparse_path f clusters = Ok clusters' ->
  clusters' = clusters ++ [[f]]
  \/ exists c1 c c2,
       clusters = c1 ++ c :: c2 /\ clusters' = c1 ++ (c ++ [f]) :: c2
       /\ matches_cluster urlparse_path f c = Ok true.
Proof.
  revert clusters'. induction clusters as [|c r IH]; intros clusters'; simpl.
  - intros H. inversion H. now left.
  - destruct (matches_cluster urlparse_path f c) as [[|]|] eqn:M; simpl;
      try discriminate.
    + intros H. inversion H; subst. right. exists [], c, r. auto.
    + destruct (place urlparse_path f r) as [r'|] eqn:P; simpl; [|discriminate].
      intros H. inversion H; subst.
      destruct (IH r' eq_refl) as [-> | (c1 & c0 & c2 & -> & -> & M0)].
      * now left.
      * right. exists (c :: c1), c0, c2. auto.
Qed.

Lemma linked_app (earlier cluster : list finding) (f : finding) :
  Spec.linked urlparse_path earlier cluster ->
  (earlier ++ cluster = [] \/
   exists e, In e (earlier ++ cluster)
             /\ locations_match urlparse_path (location f) (location e) = Ok true) ->
  Spec.linked urlparse_path earlier (cluster ++ [f]).
Proof.
  revert earlier. induction cluster as [|x r IH]; intros earlier L H; simpl in *.
  - rewrite app_nil_r in H. split; [|exact I].
    destruct H as [-> | H]; [now left | now right].
  - destruct L as [Lx Lr]. split; [exact Lx|].
    apply IH; [exact Lr|]. rewrite <- app_assoc. simpl. exact H.
Qed.

(** One step of the clustering loop keeps every cluster non-empty and
    linked, and adds exactly the new finding. *)
Lemma place_keeps (f : finding) (clusters clusters' : list (list finding)) :
  place urlparse_path f clusters = Ok clusters' ->
  Forall (fun c => c <> [] /\ Spec.linked urlparse_path [] c) clusters ->
  Forall (fun c => c <> [] /\ Spec.linked urlparse_path [] c) clusters'
  /\ Permutation (concat clusters') (concat clusters ++ [f]).
Proof.
  intros P F. destruct (place_cases f clusters clusters' P)
    as [-> | (c1 & c & c2 & -> & -> & M)].
  - split.
    + apply Forall_app. split; [exact F|]. constructor; [|constructor].
      split; [discriminate|]. simpl. split; [now left | exact I].
    + rewrite concat_app. simpl. reflexivity.
  - apply Forall_app in F as [F1 F2]. inversion F2 as [|? ? [Hne Hl] F3]; subst.
    split.
    + apply Forall_app. split; [exact F1|]. constructor; [|exact F3].
      split; [now destruct c|].
      apply linked_app; [exact Hl|]. right.
      destruct (matches_cluster_true f c M) as (e & Hin & He).
      exists e. split; [exact Hin | exact He].
    + rewrite !concat_app. simpl. rewrite <- !app_assoc.
      apply Permutation_app_head. apply Permutation_app_head.
      apply Permutation_app_comm.
Qed.

Lemma cluster_bucket_keeps (fs : list finding)
  (clusters clusters' : list (list finding)) :
  cluster_bucket urlparse_path fs clusters = Ok clusters' ->
  Forall (fun c => c <> [] /\ Spec.linked urlparse_path [] c) clusters ->
  Forall (fun c => c <> [] /\ Spec.linked urlparse_path [] c) clusters'
  /\ Permutation (concat clusters') (concat clusters ++ fs).
Proof.
  revert clusters. induction fs as [|f r IH]; intros clusters; simpl.
  - intros H F. inversion H; subst. split; [exact F|]. now rewrite app_nil_r.
  - destruct (place urlparse_path f clusters) as [cl|] eqn:P; simpl;
      [|discriminate].
    intros H F. destruct (place_keeps f clusters cl P F) as [F' Pm].
    destruct (IH cl H F') as [F'' Pm']. split; [exact F''|].
    rewrite Pm', Pm, <- app_assoc. reflexivity.
Qed.

Lemma get_None_fresh (g : groups_t) (k : key3) :
  ~ In k (map fst g) -> Py.get key3_eqb g k = None.
Proof.
  induction g as [|[k' v] r IH]; simpl; [reflexivity|].
  intros H. destruct (key3_eqb k k') eqn:E.
  - apply key3_eqb_eq in E. subst. exfalso. apply H. now left.
  - apply IH. intros Hin. apply H. now right.
Qed.

Lemma store_clusters_fresh (tc : key2) (clusters : list (list finding)) :
  forall (idx : nat) (g : groups_t),
    (forall j, idx <= j -> ~ In (tc, j) (map fst g)) ->
    store_clusters tc idx clusters g = g ++ Spec.numbered tc idx clusters.
Proof.
  induction clusters as [|c r IH]; intros idx g H; simpl.
  - now rewrite app_nil_r.
  - rewrite (set_get_None key3_eqb g (tc, idx) c
               (get_None_fresh g (tc, idx) (H idx (le_n idx)))).
    rewrite IH.
    + rewrite <- app_assoc. reflexivity.
    + intros j Hj. rewrite map_app, in_app_iff. simpl.
      intros [Hin | [E | []]].
      * apply (H j); [lia | exact Hin].
      * inversion E. lia.
Qed.

Lemma numbered_keys (tc : key2) (clusters : list (list finding)) (idx : nat)
  (k : key3) (cluster : list finding) :
  In (k, cluster) (Spec.numbered tc idx clusters) ->
  fst k = tc /\ In cluster clusters.
Proof.
  revert idx. induction clusters as [|c r IH]; intros idx; simpl; [contradiction|].
  intros [E | H].
  - inversion E; subst. split; [reflexivity | now left].
  - destruct (IH _ H) as [Hk Hc]. split; [exact Hk | now right].
Qed.

Lemma numbered_members (tc : key2) (clusters : list (list finding)) (idx : nat) :
  concat (map snd (Spec.numbered tc idx clusters)) = concat clusters.
Proof.
  revert idx. induction clusters as [|c r IH]; intros idx; simpl; [reflexivity|].
  now rewrite IH.
Qed.

(** The second pass, bucket by bucket: every group added comes from the
    clustering of one bucket and carries that bucket's key. *)
Lemma group_buckets_keeps (buckets : list (key2 * list finding)) :
  forall (g groups : groups_t),
    NoDup (map fst buckets) ->
    (forall k, In k (map fst g) -> ~ In (fst k) (map fst buckets)) ->
    group_buckets urlparse_path buckets g = Ok groups ->
    exists added,
      groups = g ++ added
      /\ Permutation (concat (map snd added)) (concat (map snd buckets))
      /\ forall k cluster, In (k, cluster) added ->
           cluster <> [] /\ Spec.linked urlparse_path [] cluster
           /\ exists fs, In (fst k, fs) buckets
                         /\ forall f, In f cluster -> In f fs.
Proof.
  induction buckets as [|[tc fs] r IH]; intros g groups N Fr; simpl.
  - intros H. inversion H; subst. exists []. rewrite app_nil_r.
    repeat split; try reflexivity; contradiction.
  - destruct (cluster_bucket urlparse_path fs []) as [cl|] eqn:C; simpl;
      [|discriminate].
    inversion N as [|? ? Htc Nr]; subst.
    rewrite store_clusters_fresh.
    2:{ intros j _ Hin. apply (Fr _ Hin). now left. }
    intros H.
    destruct (cluster_bucket_keeps fs [] cl C (Forall_nil _)) as [Fc Pc].
    simpl in Pc.
    destruct (IH (g ++ Spec.numbered tc 0 cl) groups Nr) as (added & -> & Pa & Ha).
    + intros k Hin Hk. rewrite map_app, in_app_iff in Hin.
      destruct Hin as [Hin | Hin].
      * apply (Fr _ Hin). now right.
      * apply in_map_iff in Hin as ([k' c'] & <- & Hin').
        apply numbered_keys in Hin' as [E _]. simpl in Hk. rewrite E in Hk.
        contradiction.
    + exact H.
    + exists (Spec.numbered tc 0 cl ++ added).
      split; [now rewrite app_assoc|]. split.
      * rewrite map_app, concat_app, numbered_members, Pc, Pa. reflexivity.
      * intros k cluster Hin. apply in_app_iff in Hin as [Hin | Hin].
        -- apply numbered_keys in Hin as [E Hc].
           rewrite Forall_forall in Fc. destruct (Fc _ Hc) as [Hne Hl].
           split; [exact Hne|]. split; [exact Hl|].
           exists fs. split; [rewrite E; now left|].
           intros f Hf. apply (Permutation_in f Pc).
           apply in_concat. exists cluster. split; assumption.
        -- destruct (Ha k cluster Hin) as (Hne & Hl & fs' & Hfs & Hm).
           split; [exact Hne|]. split; [exact Hl|].
           exists fs'. split; [now right | exact Hm].
Qed.

End ClusterFacts.

Lemma bucketize_group_by (findings : list finding) :
  bucketize findings = Spec.group_by key2_eqb Spec.bucket_key findings [].
Proof. reflexivity. Qed.

(** X1.  When [group_findings] returns, its groups partition the input:
    every finding is a member of exactly one group, with its multiplicity,
    and no finding is dropped or invented. *)
Theorem group_findings_partition :
  forall (urlparse_path : string -> option string) (findings : list finding)
         (groups : groups_t),
    group_findings urlparse_path findings = Ok groups ->
    Permutation (concat (map snd groups)) findings.
Proof.
  intros u fs groups H. unfold group_findings in H.
  destruct (group_by_spec key2_eqb Spec.bucket_key key2_eqb_eq fs) as [N _].
  rewrite <- bucketize_group_by in N.
  destruct (group_buckets_keeps u (bucketize fs) [] groups N
              (fun k Hin => False_ind _ Hin) H) as (added & -> & P & _).
  simpl. rewrite P, bucketize_group_by.
  rewrite (group_by_members key2_eqb Spec.bucket_key key2_eqb_eq). reflexivity.
Qed.

Lemma group_findings_partition_witness :
  Permutation
    [Spec.finding_at "zap" "shop" "CWE-79" "http://shop/a/app.js";
     Spec.finding_at "bearer" "shop" "CWE-79" "/src/app.js:12";
     Spec.finding_at "nuclei" "shop" "CWE-79" "http://shop/b/app.js"]
    [Spec.finding_at "zap" "shop" "CWE-79" "http://shop/a/app.js";
     Spec.finding_at "nuclei" "shop" "CWE-79" "http://shop/b/app.js";
     Spec.finding_at "bearer" "shop" "CWE-79" "/src/app.js:12"].
Proof.
  apply (group_findings_partition cpython_urlparse_path
           [Spec.finding_at "zap" "shop" "CWE-79" "http://shop/a/app.js";
            Spec.finding_at "nuclei" "shop" "CWE-79" "http://shop/b/app.js";
            Spec.finding_at "bearer" "shop" "CWE-79" "/src/app.js:12"]
           [(("shop", "CWE-79", 0),
             [Spec.finding_at "zap" "shop" "CWE-79" "http://shop/a/app.js";
              Spec.finding_at "bearer" "shop" "CWE-79" "/src/app.js:12"]);
            (("shop", "CWE-79", 1),
             [Spec.finding_at "nuclei" "shop" "CWE-79" "http://shop/b/app.js"])]).
  reflexivity.
Defined.

(** X2.  Every group [group_findings] returns is non-empty, all its members
    have the target and the CWE of the group's key, and every member but
    the first matches, by [locations_match], a member placed before it:
    clustering never merges across targets or CWEs, and never groups a
    finding that is not linked to the group. *)
Theorem group_findings_groups :
  forall (urlparse_path : string -> option string) (findings : list finding)
         (groups : groups_t) (target cwe : string) (idx : nat)
         (cluster : list finding),
    group_findings urlparse_path findings = Ok groups ->
    In ((target, cwe, idx), cluster) groups ->
    cluster <> []
    /\ (forall f, In f cluster ->
          In f findings /\ Triage.target f = target /\ Triage.cwe f = cwe)
    /\ Spec.linked urlparse_path [] cluster.
Proof.
  intros u fs groups t c i cluster H Hin. unfold group_findings in H.
  destruct (group_by_spec key2_eqb Spec.bucket_key key2_eqb_eq fs) as [N S].
  rewrite <- bucketize_group_by in N, S.
  destruct (group_buckets_keeps u (bucketize fs) [] groups N
              (fun k Hk => False_ind _ Hk) H) as (added & -> & _ & Ha).
  simpl in Hin. destruct (Ha _ _ Hin) as (Hne & Hl & members & Hb & Hm).
  split; [exact Hne|]. split; [|exact Hl].
  intros f Hf. destruct (S _ _ Hb) as [-> _].
  apply Hm, filter_In in Hf as [Hf E]. split; [exact Hf|].
  apply key2_eqb_eq in E. simpl in E. inversion E. auto.
Qed.

Lemma group_findings_groups_witness :
  [Spec.finding_at "zap" "shop" "CWE-79" "http://shop/a/app.js";
   Spec.finding_at "bearer" "shop" "CWE-79" "/src/app.js:12"] <> [].
Proof.
  apply (group_findings_groups cpython_urlparse_path
           [Spec.finding_at "zap" "shop" "CWE-79" "http://shop/a/app.js";
            Spec.finding_at "nuclei" "shop" "CWE-79" "http://shop/b/app.js";
            Spec.finding_at "bearer" "shop" "CWE-79" "/src/app.js:12"]
           [(("shop", "CWE-79", 0),
             [Spec.finding_at "zap" "shop" "CWE-79" "http://shop/a/app.js";
              Spec.finding_at "bearer" "shop" "CWE-79" "/src/app.js:12"]);
            (("shop", "CWE-79", 1),
             [Spec.finding_at "nuclei" "shop" "CWE-79" "http://shop/b/app.js"])]
           "shop" "CWE-79" 0).
  - reflexivity.
  - left. reflexivity.
Defined.

(** ** Location matching: when it raises, when it is transitive *)

Section MatchFacts.

Variable urlparse_path : string -> option string.

Lemma extract_url_path_eq (location : string) :
  extract_url_path urlparse_path location
  = if Spec.is_url_location location then url_path urlparse_path (strip location)
    else Ok "".
Proof.
  unfold extract_url_path, Spec.is_url_location.
  destruct (truthy location); reflexivity.
Qed.

Lemma extract_basename_eq (location : string) :
  extract_basename urlparse_path location
  = if Spec.is_url_location location
    then p <- url_path urlparse_path (strip location) ;; Ok (Spec.base_of p)
    else Ok (if truthy location then Spec.base_of (strip location) else "").
Proof.
  unfold extract_basename, Spec.is_url_location.
  destruct (truthy location); simpl; [|reflexivity].
  destruct (is_url (strip location)); reflexivity.
Qed.

(** The outcome of [locations_match] on two non-empty locations, by the
    kind of each and the path [urlparse] gives. *)
Lemma locations_match_eq (loc_a loc_b : string) :
  truthy loc_a = true -> truthy loc_b = true ->
  locations_match urlparse_path loc_a loc_b
  = url_a <- extract_url_path urlparse_path loc_a ;;
    url_b <- extract_url_path urlparse_path loc_b ;;
    if truthy url_a && truthy url_b then Ok (String.eqb url_a url_b)
    else
      base_a <- extract_basename urlparse_path loc_a ;;
      base_b <- extract_basename urlparse_path loc_b ;;
      Ok (truthy base_a && truthy base_b && String.eqb base_a base_b).
Proof.
  intros Ta Tb. unfold locations_match. rewrite Ta, Tb. simpl.
  destruct (extract_url_path urlparse_path loc_a) as [ua|]; [|reflexivity].
  destruct (extract_url_path urlparse_path loc_b) as [ub|]; [|reflexivity].
  simpl. destruct (truthy ua && truthy ub); [reflexivity|].
  destruct (extract_basename urlparse_path loc_a) as [ba|]; [|reflexivity].
  destruct (extract_basename urlparse_path loc_b) as [bb|]; [|reflexivity].
  simpl. destruct (truthy ba && truthy bb); reflexivity.
Qed.

Lemma locations_match_truthy (loc_a loc_b : string) :
  locations_match urlparse_path loc_a loc_b = Ok true ->
  truthy loc_a = true /\ truthy loc_b = true.
Proof.
  unfold locations_match.
  destruct (truthy loc_a), (truthy loc_b); simpl; try discriminate. auto.
Qed.

Lemma locations_match_raises (loc_a loc_b : string) (e : exn) :
  locations_match urlparse_path loc_a loc_b = Raise e ->
  e = ValueError
  /\ ((Spec.is_url_location loc_a = true /\ urlparse_path (strip loc_a) = None)
      \/ (Spec.is_url_location loc_b = true /\ urlparse_path (strip loc_b) = None)).
Proof.
  unfold locations_match.
  destruct (truthy loc_a) eqn:Ta, (truthy loc_b) eqn:Tb; simpl; try discriminate.
  rewrite !extract_url_path_eq, !extract_basename_eq. unfold url_path.
  destruct (Spec.is_url_location loc_a) eqn:Ua;
    [destruct (urlparse_path (strip loc_a)) as [pa|] eqn:Pa|];
    (destruct (Spec.is_url_location loc_b) eqn:Ub;
     [destruct (urlparse_path (strip loc_b)) as [pb|] eqn:Pb|]);
    simpl;
    repeat match goal with
      | |- context [if ?b then _ else _] => destruct b; simpl
      end;
    intros H; inversion H; subst; split; auto.
Qed.

End MatchFacts.

Lemma truthy_false (s : string) : truthy s = false -> s = "".
Proof. destruct s; [reflexivity | discriminate]. Qed.

Lemma match_rule_transitive (ua ub uc ba bb bc : string) (ka kb kc : bool) :
  (if ka then ba = Spec.base_of ua else ua = "") ->
  (if kb then bb = Spec.base_of ub else ub = "") ->
  (if kc then bc = Spec.base_of uc else uc = "") ->
  (ka = true -> kc = true -> kb = true) ->
  Spec.match_rule ua ub ba bb = true ->
  Spec.match_rule ub uc bb bc = true ->
  Spec.match_rule ua uc ba bc = true.
Proof.
  unfold Spec.match_rule. intros Ha Hb Hc Hk.
  destruct (truthy ua) eqn:Ta, (truthy ub) eqn:Tb, (truthy uc) eqn:Tc; simpl;
    rewrite ?andb_true_iff, ?String.eqb_eq; intros Hab Hbc;
    repeat match goal with
      | H : _ /\ _ |- _ => destruct H
      | H : truthy ?s = false |- _ => apply truthy_false in H; subst s
      end;
    subst; try (repeat split; congruence).
  all: destruct ka, kb, kc; subst; simpl in *;
    try discriminate; try (repeat split; congruence);
    try (specialize (Hk eq_refl eq_refl); discriminate Hk).
Qed.

Lemma match_rule_form (ua ub ba bb : string) :
  (if truthy ua && truthy ub then Ok (String.eqb ua ub)
   else Ok (truthy ba && truthy bb && String.eqb ba bb))
  = Ok (Spec.match_rule ua ub ba bb).
Proof. unfold Spec.match_rule. destruct (truthy ua && truthy ub); reflexivity. Qed.

Section MatchFacts2.

Variable urlparse_path : string -> option string.

(** When it returns, [locations_match] is [match_rule] on the URL path and
    the basename of each location. *)
Lemma locations_match_returns (loc_a loc_b : string) (m : bool) :
  truthy loc_a = true -> truthy loc_b = true ->
  locations_match urlparse_path loc_a loc_b = Ok m ->
  exists ua ub ba bb,
    extract_url_path urlparse_path loc_a = Ok ua
    /\ extract_url_path urlparse_path loc_b = Ok ub
    /\ (if Spec.is_url_location loc_a then ba = Spec.base_of ua else ua = "")
    /\ (if Spec.is_url_location loc_b then bb = Spec.base_of ub else ub = "")
    /\ extract_basename urlparse_path loc_a = Ok ba
    /\ extract_basename urlparse_path loc_b = Ok bb
    /\ m = Spec.match_rule ua ub ba bb.
Proof.
  intros Ta Tb. rewrite (locations_match_eq urlparse_path _ _ Ta Tb).
  rewrite !extract_url_path_eq, !extract_basename_eq. unfold url_path.
  rewrite Ta, Tb.
  destruct (Spec.is_url_location loc_a) eqn:Ua;
    [destruct (urlparse_path (strip loc_a)) as [pa|] eqn:Pa; [|discriminate]|];
    (destruct (Spec.is_url_location loc_b) eqn:Ub;
     [destruct (urlparse_path (strip loc_b)) as [pb|] eqn:Pb;
      [|cbv beta iota delta [Py.bind]; discriminate]|]);
    cbv beta iota delta [Py.bind]; rewrite match_rule_form;
    intros H; inversion H; do 4 eexists; repeat split; reflexivity.
Qed.

End MatchFacts2.

(** X3.  A location that is empty or blank never matches: the outcome of
    [locations_match] is never [True] when one of the two locations is
    empty after stripping. *)
Theorem blank_location_never_matches :
  forall (urlparse_path : string -> option string) (loc_a loc_b : string),
    strip loc_a = "" ->
    locations_match urlparse_path loc_a loc_b <> Ok true
    /\ locations_match urlparse_path loc_b loc_a <> Ok true.
Proof.
  intros u a b Ha.
  assert (G : locations_match u a b <> Ok true).
  { intros H. destruct (locations_match_truthy u a b H) as [Ta Tb].
    destruct (locations_match_returns u a b true Ta Tb H)
      as (ua & ub & ba & bb & Eua & _ & _ & _ & Eba & _ & M).
    rewrite extract_url_path_eq in Eua. rewrite extract_basename_eq in Eba.
    unfold Spec.is_url_location in Eua, Eba. rewrite Ha, Ta in Eua, Eba.
    simpl in Eua, Eba. inversion Eua; inversion Eba; subst.
    unfold Spec.match_rule in M. simpl in M. discriminate M. }
  split; [exact G|]. intros H.
  destruct (locations_match_truthy u b a H) as [Tb Ta].
  destruct (locations_match_returns u b a true Tb Ta H)
    as (ub & ua & bb & ba & _ & Eua & _ & _ & _ & Eba & M).
  rewrite extract_url_path_eq in Eua. rewrite extract_basename_eq in Eba.
  unfold Spec.is_url_location in Eua, Eba. rewrite Ha, Ta in Eua, Eba.
  simpl in Eua, Eba. inversion Eua; inversion Eba; subst.
  unfold Spec.match_rule in M. rewrite !andb_false_r in M. discriminate M.
Qed.

(** X4.  [locations_match] is transitive except across a file between two
    URLs: if [a] matches [b] and [b] matches [c], then [a] matches [c],
    unless [a] and [c] are URLs and [b] is not. *)
Theorem locations_match_transitive_unless_mixed :
  forall (urlparse_path : string -> option string) (loc_a loc_b loc_c : string),
    (Spec.is_url_location loc_a = true -> Spec.is_url_location loc_c = true ->
     Spec.is_url_location loc_b = true) ->
    locations_match urlparse_path loc_a loc_b = Ok true ->
    locations_match urlparse_path loc_b loc_c = Ok true ->
    locations_match urlparse_path loc_a loc_c = Ok true.
Proof.
  intros u a b c Hk Hab Hbc.
  destruct (locations_match_truthy u a b Hab) as [Ta Tb].
  destruct (locations_match_truthy u b c Hbc) as [_ Tc].
  destruct (locations_match_returns u a b true Ta Tb Hab)
    as (ua & ub & ba & bb & Eua & Eub & Ka & Kb & Eba & Ebb & Mab).
  destruct (locations_match_returns u b c true Tb Tc Hbc)
    as (ub' & uc & bb' & bc & Eub' & Euc & _ & Kc & Ebb' & Ebc & Mbc).
  rewrite Eub in Eub'. inversion Eub'; subst ub'.
  rewrite Ebb in Ebb'. inversion Ebb'; subst bb'.
  rewrite (locations_match_eq u a c Ta Tc), Eua, Euc.
  cbv beta iota delta [Py.bind]. rewrite Eba, Ebc.
  cbv beta iota. rewrite match_rule_form. f_equal.
  apply (match_rule_transitive ua ub uc ba bb bc
           (Spec.is_url_location a) (Spec.is_url_location b)
           (Spec.is_url_location c)); auto.
Qed.

Lemma locations_match_transitive_unless_mixed_witness :
  lm "/src/app.js:42" "http://shop/static/app.js?v=2" = Ok true.
Proof.
  apply (locations_match_transitive_unless_mixed cpython_urlparse_path
           "/src/app.js:42" "/lib/src/app.js:10:5" "http://shop/static/app.js?v=2").
  - intros H. discriminate H.
  - reflexivity.
  - reflexivity.
Defined.


(** ** Clustering: when it raises *)

Section RaiseFacts.

Variable urlparse_path : string -> option string.

Lemma matches_cluster_raises (f : finding) (cluster : list finding) (e : exn) :
  matches_cluster urlparse_path f cluster = Raise e ->
  e = ValueError
  /\ exists x, (x = f \/ In x cluster)
               /\ Spec.is_url_location (location x) = true
               /\ urlparse_path (strip (location x)) = None.
Proof.
  induction cluster as [|y r IH]; simpl; [discriminate|].
  destruct (locations_match urlparse_path (location f) (location y))
    as [[|]|e'] eqn:M; simpl; try discriminate.
  - intros H. destruct (IH H) as (-> & x & [-> | Hx] & R); split; auto.
    + exists f. auto.
    + exists x. auto.
  - intros H. inversion H; subst e'.
    destruct (locations_match_raises urlparse_path _ _ _ M) as (-> & [R | R]);
      split; auto.
    + exists f. tauto.
    + exists y. tauto.
Qed.

Lemma place_members (f : finding) (clusters clusters' : list (list finding)) :
  place urlparse_path f clusters = Ok clusters' ->
  forall x, In x (concat clusters') -> x = f \/ In x (concat clusters).
Proof.
  intros P x. destruct (place_cases urlparse_path f clusters clusters' P)
    as [-> | (c1 & c & c2 & -> & -> & _)];
    rewrite !concat_app; simpl; rewrite ?in_app_iff; simpl;
    rewrite ?in_app_iff; simpl; intuition auto.
Qed.

Lemma place_raises (f : finding) (clusters : list (list finding)) (e : exn) :
  place urlparse_path f clusters = Raise e ->
  e = ValueError
  /\ exists x, (x = f \/ In x (concat clusters))
               /\ Spec.is_url_location (location x) = true
               /\ urlparse_path (strip (location x)) = None.
Proof.
  induction clusters as [|c r IH]; simpl; [discriminate|].
  destruct (matches_cluster urlparse_path f c) as [[|]|e'] eqn:M; simpl;
    try discriminate.
  - destruct (place urlparse_path f r) as [r'|e'] eqn:P; simpl; [discriminate|].
    intros H. inversion H; subst e'.
    destruct (IH eq_refl) as (-> & x & [-> | Hx] & R); split; auto.
    + exists f. auto.
    + exists x. split; [right; apply in_or_app; now right | exact R].
  - intros H. inversion H; subst e'.
    destruct (matches_cluster_raises f c e M) as (-> & x & [-> | Hx] & R);
      split; auto.
    + exists f. auto.
    + exists x. split; [right; apply in_or_app; now left | exact R].
Qed.

Lemma cluster_bucket_raises (fs : list finding) :
  forall (clusters : list (list finding)) (e : exn),
    cluster_bucket urlparse_path fs clusters = Raise e ->
    e = ValueError
    /\ exists x, (In x fs \/ In x (concat clusters))
                 /\ Spec.is_url_location (location x) = true
                 /\ urlparse_path (strip (location x)) = None.
Proof.
  induction fs as [|f r IH]; intros clusters e; simpl; [discriminate|].
  destruct (place urlparse_path f clusters) as [cl|e'] eqn:P; simpl.
  - intros H. destruct (IH cl e H) as (-> & x & [Hx | Hx] & R); split; auto.
    + exists x. auto.
    + exists x. split; [|exact R].
      destruct (place_members f clusters cl P x Hx); auto.
  - intros H. inversion H; subst e'.
    destruct (place_raises f clusters e P) as (-> & x & [-> | Hx] & R);
      split; auto.
    + exists f. auto.
    + exists x. auto.
Qed.

Lemma group_buckets_raises (buckets : list (key2 * list finding)) :
  forall (g : groups_t) (e : exn),
    group_buckets urlparse_path buckets g = Raise e ->
    e = ValueError
    /\ exists x, In x (concat (map snd buckets))
                 /\ Spec.is_url_location (location x) = true
                 /\ urlparse_path (strip (location x)) = None.
Proof.
  induction buckets as [|[tc fs] r IH]; intros g e; simpl; [discriminate|].
  destruct (cluster_bucket urlparse_path fs []) as [cl|e'] eqn:C; simpl.
  - intros H. destruct (IH _ e H) as (-> & x & Hx & R). split; auto.
    exists x. split; [apply in_or_app; now right | exact R].
  - intros H. inversion H; subst e'.
    destruct (cluster_bucket_raises fs [] e C) as (-> & x & [Hx | []] & R).
    split; auto. exists x. split; [apply in_or_app; now left | exact R].
Qed.

End RaiseFacts.

(** X5.  [group_findings] raises nothing but the [ValueError] of
    [urlparse], and only when the location of one of the findings is an
    [http(s)] URL that [urlparse] rejects; with no such location it returns
    its groups. *)
Theorem group_findings_raises_only_on_rejected_url :
  forall (urlparse_path : string -> option string) (findings : list finding),
    (forall e, group_findings urlparse_path findings = Raise e ->
       e = ValueError
       /\ exists f, In f findings
                    /\ Spec.is_url_location (location f) = true
                    /\ urlparse_path (strip (location f)) = None)
    /\ ((forall f, In f findings ->
           Spec.is_url_location (location f) = true ->
           urlparse_path (strip (location f)) <> None) ->
        exists groups, group_findings urlparse_path findings = Ok groups).
Proof.
  intros u fs.
  assert (R : forall e, group_findings u fs = Raise e ->
                e = ValueError
                /\ exists f, In f fs
                             /\ Spec.is_url_location (location f) = true
                             /\ u (strip (location f)) = None).
  { intros e H. unfold group_findings in H.
    destruct (group_buckets_raises u (bucketize fs) [] e H) as (-> & x & Hx & Rx).
    split; [reflexivity|]. exists x. split; [|exact Rx].
    rewrite bucketize_group_by in Hx.
    apply (Permutation_in x
             (group_by_members key2_eqb Spec.bucket_key key2_eqb_eq fs [])) in Hx.
    exact Hx. }
  split; [exact R|]. intros Hok.
  destruct (group_findings u fs) as [groups|e] eqn:G; [eauto|].
  destruct (R e eq_refl) as (_ & f & Hf & U & N).
  exfalso. exact (Hok f Hf U N).
Qed.

Lemma group_findings_raises_only_on_rejected_url_witness :
  exists f,
    In f [Spec.finding_at "zap" "shop" "CWE-79" "http://[shop/app.js";
          Spec.finding_at "bearer" "shop" "CWE-79" "/src/app.js:3"]
    /\ Spec.is_url_location (location f) = true
    /\ cpython_urlparse_path (strip (location f)) = None.
Proof.
  apply (proj1 (group_findings_raises_only_on_rejected_url cpython_urlparse_path
                  [Spec.finding_at "zap" "shop" "CWE-79" "http://[shop/app.js";
                   Spec.finding_at "bearer" "shop" "CWE-79" "/src/app.js:3"])
           ValueError).
  reflexivity.
Defined.

Lemma blank_location_never_matches_witness :
  lm "  " "/src/app.js" <> Ok true /\ lm "/src/app.js" "  " <> Ok true.
Proof.
  apply (blank_location_never_matches cpython_urlparse_path "  " "/src/app.js").
  reflexivity.
Defined.

(** ** Stripping and case conversion *)

Lemma space_upper_same (c : ascii) : isspace_char (upper_char c) = isspace_char c.
Proof. destruct c as [[] [] [] [] [] [] [] []]; reflexivity. Qed.

Lemma space_lower_same (c : ascii) : isspace_char (lower_char c) = isspace_char c.
Proof. destruct c as [[] [] [] [] [] [] [] []]; reflexivity. Qed.

Lemma upper_char_idem (c : ascii) : upper_char (upper_char c) = upper_char c.
Proof. destruct c as [[] [] [] [] [] [] [] []]; reflexivity. Qed.

Lemma lower_char_idem (c : ascii) : lower_char (lower_char c) = lower_char c.
Proof. destruct c as [[] [] [] [] [] [] [] []]; reflexivity. Qed.

Section MapChars.

Variable f : ascii -> ascii.
Hypothesis f_space : forall c, isspace_char (f c) = isspace_char c.

Lemma map_chars_empty (s : string) : map_chars f s = "" <-> s = "".
Proof. destruct s; simpl; split; intros H; try reflexivity; discriminate H. Qed.

Lemma lstrip_map_chars (s : string) :
  lstrip (map_chars f s) = map_chars f (lstrip s).
Proof.
  induction s as [|c r IH]; simpl; [reflexivity|].
  rewrite f_space. destruct (isspace_char c); [exact IH | reflexivity].
Qed.

Lemma rstrip_map_chars (s : string) :
  rstrip (map_chars f s) = map_chars f (rstrip s).
Proof.
  induction s as [|c r IH]; simpl; [reflexivity|].
  rewrite IH, f_space. destruct (rstrip r); simpl; [|reflexivity].
  destruct (isspace_char c); reflexivity.
Qed.

Lemma strip_map_chars (s : string) :
  strip (map_chars f s) = map_chars f (strip s).
Proof. unfold strip. now rewrite lstrip_map_chars, rstrip_map_chars. Qed.

End MapChars.

Lemma map_chars_idem (f : ascii -> ascii) (s : string) :
  (forall c, f (f c) = f c) -> map_chars f (map_chars f s) = map_chars f s.
Proof.
  intros H. induction s as [|c r IH]; simpl; [reflexivity|]. now rewrite H, IH.
Qed.

Lemma rstrip_idem (s : string) : rstrip (rstrip s) = rstrip s.
Proof.
  induction s as [|c r IH]; simpl; [reflexivity|].
  destruct (rstrip r) as [|c' r'] eqn:E.
  - destruct (isspace_char c) eqn:S; simpl; [reflexivity|]. now rewrite S.
  - simpl. simpl in IH. destruct (rstrip r') eqn:E'.
    + destruct (isspace_char c'); [discriminate IH|]. inversion IH. reflexivity.
    + inversion IH. reflexivity.
Qed.

Lemma lstrip_head (s : string) :
  lstrip s = "" \/ exists c r, lstrip s = String c r /\ isspace_char c = false.
Proof.
  induction s as [|c r IH]; simpl; [now left|].
  destruct (isspace_char c) eqn:S; [exact IH|]. right. eauto.
Qed.

Lemma rstrip_keeps_head (c : ascii) (r : string) :
  isspace_char c = false -> exists r', rstrip (String c r) = String c r'.
Proof.
  intros S. simpl. destruct (rstrip r); [rewrite S|]; eauto.
Qed.

Lemma strip_idem (s : string) : strip (strip s) = strip s.
Proof.
  unfold strip. destruct (lstrip_head s) as [-> | (c & r & -> & S)];
    [reflexivity|].
  destruct (rstrip_keeps_head c r S) as [r' E]. rewrite E.
  simpl lstrip. rewrite S, <- E. apply rstrip_idem.
Qed.

Lemma upper_strip_fixed (s : string) :
  upper (strip (upper (strip s))) = upper (strip s).
Proof.
  unfold upper. rewrite (strip_map_chars upper_char space_upper_same).
  rewrite strip_idem. apply map_chars_idem, upper_char_idem.
Qed.

Lemma lower_strip_fixed (s : string) :
  lower (strip (lower (strip s))) = lower (strip s).
Proof.
  unfold lower. rewrite (strip_map_chars lower_char space_lower_same).
  rewrite strip_idem. apply map_chars_idem, lower_char_idem.
Qed.

Lemma normalize_cwe_fixed (s : string) :
  normalize_cwe (normalize_cwe s) = normalize_cwe s.
Proof.
  unfold normalize_cwe at 2 3.
  destruct (truthy s) eqn:T; simpl; [|reflexivity].
  set (c := upper (strip s)).
  assert (Fix : upper (strip c) = c) by apply upper_strip_fixed.
  destruct (startswith "CWE-" c) eqn:P.
  - unfold normalize_cwe. rewrite Fix, P.
    destruct (truthy c) eqn:Tc; [reflexivity|].
    apply truthy_false in Tc. rewrite Tc in P. discriminate P.
  - destruct (isdigit c) eqn:D.
    + apply (normalize_cwe_prefixed "CWE-" c); [reflexivity | exact D].
    + unfold normalize_cwe. rewrite Fix, P, D.
      destruct (truthy c) eqn:Tc; [reflexivity|].
      now apply truthy_false in Tc.
Qed.

(** X6.  CWE normalization is idempotent: normalizing an already
    normalized identifier changes nothing, so findings and ground truth
    that went through [normalize_cwe] any number of times still compare
    equal. *)
Theorem normalize_cwe_idempotent :
  forall s : string, normalize_cwe (normalize_cwe s) = normalize_cwe s.
Proof. exact normalize_cwe_fixed. Qed.

Lemma or_else_unknown (sev : string) :
  (strip sev = "" -> sev = "") ->
  lower (strip (or_else (lower (strip (or_else sev "unknown"))) "unknown"))
  = lower (strip (or_else sev "unknown")).
Proof.
  intros H. unfold or_else. destruct (truthy sev) eqn:T; [|reflexivity].
  destruct (truthy (lower (strip sev))) eqn:T'.
  - apply lower_strip_fixed.
  - apply truthy_false in T'. unfold lower in T'.
    apply map_chars_empty in T'. apply H in T'. subst sev. discriminate T.
Qed.

(** X7.  Loading is idempotent: [load_normalized] applied to rows it has
    already normalized returns them unchanged, provided no severity cell is
    blank without being empty (such a cell is first emptied and only then
    replaced by [unknown]). *)
Theorem load_normalized_idempotent :
  forall rows : list finding,
    (forall row, In row rows -> strip (severity row) = "" -> severity row = "") ->
    load_normalized (load_normalized rows) = load_normalized rows.
Proof.
  intros rows H. unfold load_normalized. rewrite map_map.
  apply map_ext_in. intros row Hin. unfold normalize_row. simpl.
  rewrite !strip_idem, normalize_cwe_fixed.
  now rewrite (or_else_unknown (severity row) (H row Hin)).
Qed.

Lemma load_normalized_idempotent_witness :
  load_normalized
    (load_normalized [Spec.finding_at " ZAP " "shop" "cwe-79" " /src/app.js "])
  = load_normalized [Spec.finding_at " ZAP " "shop" "cwe-79" " /src/app.js "].
Proof.
  apply load_normalized_idempotent.
  intros row [<- | []]. simpl. discriminate.
Defined.

Example load_normalized_blank_severity :
  map severity
    (load_normalized
       [mkFinding "" "zap" "shop" "" "" "  " "" "" ""])
  = [""]
  /\ map severity
       (load_normalized
          (load_normalized [mkFinding "" "zap" "shop" "" "" "  " "" "" ""]))
     = ["unknown"].
Proof. split; reflexivity. Qed.

(** ** Severity of a group *)

Lemma max_by_rank_spec (l : list string) :
  forall best,
    In (max_by_rank best l) (best :: l)
    /\ forall s, In s (best :: l) ->
         (severity_rank s <= severity_rank (max_by_rank best l))%Z.
Proof.
  induction l as [|x r IH]; intros best; simpl.
  - split; [now left|]. intros s [<- | []]. lia.
  - destruct (severity_rank best <? severity_rank x)%Z eqn:E.
    + apply Z.ltb_lt in E. destruct (IH x) as [Hin Hmax]. split.
      * simpl in Hin. tauto.
      * intros s [<- | [<- | Hs]].
        -- specialize (Hmax x (or_introl eq_refl)). lia.
        -- apply Hmax. now left.
        -- apply Hmax. now right.
    + apply Z.ltb_ge in E. destruct (IH best) as [Hin Hmax]. split.
      * simpl in Hin. tauto.
      * intros s [<- | [<- | Hs]].
        -- apply Hmax. now left.
        -- specialize (Hmax best (or_introl eq_refl)). lia.
        -- apply Hmax. now right.
Qed.

(** X8.  The severity of a group is the label of a member whose rank is
    the highest among the members; when no member has a known severity
    (or the group is empty) it is [unknown]. *)
Theorem highest_severity_is_maximal :
  forall severities : list string,
    let best := highest_severity severities in
    (best = "unknown"
     /\ forall s, In s severities -> (severity_rank s < 0)%Z)
    \/ (In best severities
        /\ (0 <= severity_rank best)%Z
        /\ forall s, In s severities ->
             (severity_rank s <= severity_rank best)%Z).
Proof.
  intros [|x r]; cbv zeta; unfold highest_severity.
  - left. split; [reflexivity | contradiction].
  - destruct (max_by_rank_spec r x) as [Hin Hmax].
    destruct (0 <=? severity_rank (max_by_rank x r))%Z eqn:E.
    + apply Z.leb_le in E. right. auto.
    + apply Z.leb_gt in E. left. split; [reflexivity|].
      intros s Hs. specialize (Hmax s Hs). lia.
Qed.

(** ** Per-tool statistics *)

Section UpdateFacts.

Context {K V : Type} (eqk : K -> K -> bool).
Hypothesis eqk_eq : forall a b, eqk a b = true <-> a = b.

Lemma update_Forall (P : V -> Prop) (d : list (K * V)) (k : K) (dflt : V)
  (f : V -> V) :
  Forall (fun kv => P (snd kv)) d ->
  (forall v, P v -> P (f v)) -> P (f dflt) ->
  Forall (fun kv => P (snd kv)) (Py.update eqk d k dflt f).
Proof.
  intros F Hf Hd.
  destruct (update_shape eqk eqk_eq d k dflt f)
    as [(d1 & d2 & v0 & -> & ->) | (_ & ->)].
  - apply Forall_app in F as [F1 F2]. inversion F2; subst.
    apply Forall_app. split; [exact F1|]. constructor; [|assumption].
    simpl in *. now apply Hf.
  - apply Forall_app. split; [exact F|]. constructor; [exact Hd | constructor].
Qed.

Lemma update_sum (g : V -> nat) (d : list (K * V)) (k : K) (dflt : V)
  (f : V -> V) (n : nat) :
  (forall v, g (f v) = g v + n) -> g dflt = 0 ->
  list_sum (map (fun kv => g (snd kv)) (Py.update eqk d k dflt f))
  = list_sum (map (fun kv => g (snd kv)) d) + n.
Proof.
  intros Hf Hd.
  destruct (update_shape eqk eqk_eq d k dflt f)
    as [(d1 & d2 & v0 & -> & ->) | (_ & ->)];
    rewrite !map_app, !list_sum_app; simpl; rewrite Hf; [lia|].
  rewrite Hd. lia.
Qed.

End UpdateFacts.

Lemma set_add_ok (cwe : string) (s : list string) :
  cwe <> "" -> strip cwe = cwe ->
  NoDup s -> Forall (fun c => c <> "" /\ strip c = c) s ->
  NoDup (Metrics.set_add cwe s)
  /\ Forall (fun c => c <> "" /\ strip c = c) (Metrics.set_add cwe s)
  /\ List.length (Metrics.set_add cwe s) <= S (List.length s).
Proof.
  intros Hne Hs N F. unfold Metrics.set_add.
  destruct (existsb (String.eqb cwe) s) eqn:E.
  - repeat split; auto.
  - split; [|split].
    + apply NoDup_app; [exact N | constructor; [intros [] | constructor]|].
      intros x Hx [Ex | []]. subst x.
      assert (existsb (String.eqb cwe) s = true)
        by (apply existsb_exists; exists cwe; split;
            [exact Hx | apply String.eqb_refl]).
      congruence.
    + apply Forall_app. split; [exact F|]. constructor; [auto | constructor].
    + rewrite length_app. simpl. lia.
Qed.

Lemma credit_row_ok (target : string) (ts : Metrics.tool_stats_t)
  (row : Metrics.csv_row) :
  Forall (fun kv => Spec.stats_ok (snd kv)) ts ->
  Forall (fun kv => Spec.stats_ok (snd kv)) (Metrics.credit_row target ts row).
Proof.
  unfold Metrics.credit_row.
  destruct (truthy (strip (Metrics.field row "tools"))); simpl; [|auto].
  generalize (Metrics.split_tools (strip (Metrics.field row "tools"))) as tools.
  intros tools. revert ts. induction tools as [|tool r IH]; intros ts F; simpl;
    [exact F|].
  apply IH.
  destruct (String.eqb (upper (strip (Metrics.field row "verdict"))) "TP").
  - apply (update_Forall key2_eqb key2_eqb_eq); [exact F | |].
    + intros st (H1 & H2 & H3 & H4). unfold Spec.stats_ok. simpl.
      destruct (truthy (strip (Metrics.field row "cwe"))) eqn:T.
      * destruct (set_add_ok (strip (Metrics.field row "cwe")) (Metrics.tp_cwes st))
          as (N & F' & L); auto.
        -- intros E. rewrite E in T. discriminate T.
        -- apply strip_idem.
        -- repeat split; auto; lia.
      * repeat split; auto; lia.
    + unfold Spec.stats_ok. simpl.
      destruct (truthy (strip (Metrics.field row "cwe"))) eqn:T; simpl.
      * repeat split; try lia.
        -- constructor; [intros [] | constructor].
        -- constructor; [|constructor]. split; [|apply strip_idem].
           intros E. rewrite E in T. discriminate T.
      * repeat split; try lia; constructor.
  - destruct (String.eqb (upper (strip (Metrics.field row "verdict"))) "FP");
      [|exact F].
    apply (update_Forall key2_eqb key2_eqb_eq); [exact F | |].
    + intros st (H1 & H2 & H3 & H4). unfold Spec.stats_ok. simpl.
      repeat split; auto; lia.
    + unfold Spec.stats_ok. simpl. repeat split; try lia; constructor.
Qed.

Lemma extract_tool_findings_ok (triage_data : Metrics.triage_data_t) :
  Forall (fun kv => Spec.stats_ok (snd kv))
    (Metrics.extract_tool_findings triage_data).
Proof.
  unfold Metrics.extract_tool_findings.
  assert (G : forall ts, Forall (fun kv => Spec.stats_ok (snd kv)) ts ->
                Forall (fun kv => Spec.stats_ok (snd kv))
                  (fold_left
                     (fun ts '(target, rows) =>
                        fold_left (Metrics.credit_row target) rows ts)
                     triage_data ts)).
  { induction triage_data as [|[target rows] r IH]; intros ts Fts; simpl;
      [exact Fts|].
    apply IH. clear IH. revert ts Fts.
    induction rows as [|row rr IHr]; intros ts Fts; simpl; [exact Fts|].
    apply IHr. now apply credit_row_ok. }
  apply G. constructor.
Qed.

(** X9.  Every entry of the statistics [extract_tool_findings] builds
    counts at least one finding ([tp + fp >= 1]: a tool whose rows are all
    pending has no entry at all), and its set of TP CWEs holds distinct,
    non-empty, stripped identifiers, at most as many as its TPs. *)
Theorem extract_tool_findings_entries :
  forall (triage_data : Metrics.triage_data_t) (key : Metrics.tool_key)
         (st : Metrics.stats),
    In (key, st) (Metrics.extract_tool_findings triage_data) ->
    Spec.stats_ok st.
Proof.
  intros td key st H.
  pose proof (extract_tool_findings_ok td) as F.
  rewrite Forall_forall in F. exact (F (key, st) H).
Qed.

Lemma extract_tool_findings_entries_witness :
  Spec.stats_ok
    {| Metrics.tp := 1; Metrics.fp := 0; Metrics.tp_cwes := ["CWE-79"] |}.
Proof.
  apply (extract_tool_findings_entries
           [("shop", [[("tools", "bearer,zap"); ("verdict", "TP");
                       ("cwe", "CWE-79")];
                      [("tools", "bandit"); ("verdict", "pending");
                       ("cwe", "CWE-89")]])]
           ("zap", "shop")).
  right. left. reflexivity.
Defined.

Lemma credit_row_totals (target : string) (ts : Metrics.tool_stats_t)
  (row : Metrics.csv_row) :
  Spec.total_tp (Metrics.credit_row target ts row)
  = Spec.total_tp ts
    + (if truthy (strip (Metrics.field row "tools"))
       then Spec.credited "TP" row else 0)
  /\ Spec.total_fp (Metrics.credit_row target ts row)
     = Spec.total_fp ts
       + (if truthy (strip (Metrics.field row "tools"))
          then Spec.credited "FP" row else 0).
Proof.
  unfold Metrics.credit_row, Spec.credited.
  destruct (truthy (strip (Metrics.field row "tools"))); simpl; [|lia].
  set (v := upper (strip (Metrics.field row "verdict"))).
  set (step := fun (ts : list (key2 * Metrics.stats)) (tool : string) => _).
  assert (Hstep : forall ts tool,
             Spec.total_tp (step ts tool)
             = Spec.total_tp ts + (if (v =? "TP")%string then 1 else 0)
             /\ Spec.total_fp (step ts tool)
                = Spec.total_fp ts + (if (v =? "FP")%string then 1 else 0)).
  { intros ts0 tool. subst step. cbv beta.
    destruct (v =? "TP")%string eqn:Etp.
    - apply String.eqb_eq in Etp. rewrite Etp. simpl.
      unfold Spec.total_tp, Spec.total_fp.
      rewrite (update_sum key2_eqb key2_eqb_eq Metrics.tp _ _ _ _ 1);
        [|intros; simpl; lia | reflexivity].
      rewrite (update_sum key2_eqb key2_eqb_eq Metrics.fp _ _ _ _ 0);
        [|intros; simpl; lia | reflexivity].
      split; reflexivity.
    - destruct (v =? "FP")%string eqn:Efp; [|lia].
      unfold Spec.total_tp, Spec.total_fp.
      rewrite (update_sum key2_eqb key2_eqb_eq Metrics.tp _ _ _ _ 0);
        [|intros; simpl; lia | reflexivity].
      rewrite (update_sum key2_eqb key2_eqb_eq Metrics.fp _ _ _ _ 1);
        [|intros; simpl; lia | reflexivity].
      split; reflexivity. }
  clearbody step.
  generalize (Metrics.split_tools (strip (Metrics.field row "tools"))) as tools.
  intros tools. revert ts. induction tools as [|tool r IH]; intros ts; simpl.
  - destruct (v =? "TP")%string, (v =? "FP")%string; lia.
  - destruct (IH (step ts tool)) as [I1 I2]. rewrite I1, I2.
    destruct (Hstep ts tool) as [S1 S2]. rewrite S1, S2.
    destruct (v =? "TP")%string, (v =? "FP")%string; lia.
Qed.

Lemma extract_totals_from (triage_data : Metrics.triage_data_t) :
  forall ts : Metrics.tool_stats_t,
    let out := fold_left
                 (fun ts '(target, rows) =>
                    fold_left (Metrics.credit_row target) rows ts)
                 triage_data ts in
    Spec.total_tp out
    = Spec.total_tp ts
      + list_sum
          (map (fun tr =>
                  list_sum
                    (map (fun row =>
                            if truthy (strip (Metrics.field row "tools"))
                            then Spec.credited "TP" row else 0) (snd tr)))
             triage_data)
    /\ Spec.total_fp out
       = Spec.total_fp ts
         + list_sum
             (map (fun tr =>
                     list_sum
                       (map (fun row =>
                               if truthy (strip (Metrics.field row "tools"))
                               then Spec.credited "FP" row else 0) (snd tr)))
                triage_data).
Proof.
  induction triage_data as [|[target rows] r IH]; intros ts; cbv zeta; simpl.
  - lia.
  - destruct (IH (fold_left (Metrics.credit_row target) rows ts)) as [I1 I2].
    cbv zeta in I1, I2. rewrite I1, I2. clear IH I1 I2.
    assert (R : Spec.total_tp (fold_left (Metrics.credit_row target) rows ts)
                = Spec.total_tp ts
                  + list_sum
                      (map (fun row =>
                              if truthy (strip (Metrics.field row "tools"))
                              then Spec.credited "TP" row else 0) rows)
                /\ Spec.total_fp (fold_left (Metrics.credit_row target) rows ts)
                   = Spec.total_fp ts
                     + list_sum
                         (map (fun row =>
                                 if truthy (strip (Metrics.field row "tools"))
                                 then Spec.credited "FP" row else 0) rows)).
    { revert ts. induction rows as [|row rr IHr]; intros ts; simpl; [lia|].
      destruct (IHr (Metrics.credit_row target ts row)) as [J1 J2].
      rewrite J1, J2.
      destruct (credit_row_totals target ts row) as [C1 C2]. rewrite C1, C2.
      lia. }
    destruct R as [R1 R2]. rewrite R1, R2. lia.
Qed.

Lemma credited_blank_tools (verdict : string) (row : Metrics.csv_row) :
  (if truthy (strip (Metrics.field row "tools"))
   then Spec.credited verdict row else 0)
  = Spec.credited verdict row.
Proof.
  destruct (truthy (strip (Metrics.field row "tools"))) eqn:T; [reflexivity|].
  apply truthy_false in T. unfold Spec.credited. rewrite T.
  destruct (_ =? verdict)%string; reflexivity.
Qed.

(** X10.  No credit is lost or invented between the triage rows and the
    per-tool statistics: the TP counts of all entries add up to the number
    of tools listed in the rows whose verdict is [TP], and the FP counts to
    the number of tools listed in the rows whose verdict is [FP]; rows
    with any other verdict count for nothing. *)
Theorem extract_tool_findings_totals :
  forall triage_data : Metrics.triage_data_t,
    Spec.total_tp (Metrics.extract_tool_findings triage_data)
    = Spec.credits "TP" triage_data
    /\ Spec.total_fp (Metrics.extract_tool_findings triage_data)
       = Spec.credits "FP" triage_data.
Proof.
  intros td. unfold Metrics.extract_tool_findings, Spec.credits.
  destruct (extract_totals_from td []) as [H1 H2]. cbv zeta in H1, H2.
  rewrite H1, H2. simpl.
  split; f_equal; apply map_ext; intros [target rows]; simpl;
    f_equal; apply map_ext; intros row; apply credited_blank_tools.
Qed.

(** ** The F-measure table *)

Lemma sorted_set_In (l : list string) (x : string) :
  In x (sorted_set l) <-> In x l.
Proof. unfold sorted_set. now rewrite sorted_In, dedup_In. Qed.

Lemma fmeasure_one_value (tool_findings : Metrics.tool_stats_t)
  (ground_truth : Metrics.ground_truth_t)
  (speed_data : list (Metrics.tool_key * Q)) (tool target : string) :
  Metrics.fmeasure_one tool_findings ground_truth speed_data tool target
  = Ok match Py.get key2_eqb tool_findings (tool, target) with
       | Some st => [Spec.row_of ground_truth speed_data tool target st]
       | None => []
       end.
Proof.
  unfold Metrics.fmeasure_one.
  destruct (Py.get key2_eqb tool_findings (tool, target)) as [st|]; [|reflexivity].
  fold (Spec.gt_of ground_truth target).
  rewrite count_fn_uncovered, compute_scores_value. reflexivity.
Qed.

Lemma concat_results_Ok {A : Type} (l : list (list A)) :
  Metrics.concat_results (map Ok l) = Ok (concat l).
Proof.
  induction l as [|x r IH]; simpl; [reflexivity|]. now rewrite IH.
Qed.

Lemma calculate_fmeasure_value (tool_findings : Metrics.tool_stats_t)
  (ground_truth : Metrics.ground_truth_t)
  (speed_data : list (Metrics.tool_key * Q)) :
  Metrics.calculate_fmeasure tool_findings ground_truth speed_data
  = Ok (sorted Metrics.fmeasure_leb
          (concat
             (flat_map
                (fun tool =>
                   map (fun target =>
                          match Py.get key2_eqb tool_findings (tool, target) with
                          | Some st =>
                              [Spec.row_of ground_truth speed_data tool target st]
                          | None => []
                          end)
                     (sorted_set (map fst ground_truth)))
                (sorted_set (map (fun kv => fst (fst kv)) tool_findings))))).
Proof.
  unfold Metrics.calculate_fmeasure.
  set (tools := sorted_set (map (fun kv => fst (fst kv)) tool_findings)).
  set (targets := sorted_set (map fst ground_truth)).
  assert (E : flat_map
                (fun tool =>
                   map (Metrics.fmeasure_one tool_findings ground_truth
                          speed_data tool) targets) tools
              = map Ok
                  (flat_map
                     (fun tool =>
                        map (fun target =>
                               match Py.get key2_eqb tool_findings (tool, target) with
                               | Some st =>
                                   [Spec.row_of ground_truth speed_data tool
                                      target st]
                               | None => []
                               end) targets) tools)).
  { induction tools as [|tool r IH]; simpl; [reflexivity|].
    rewrite map_app, IH, map_map. f_equal.
    apply map_ext. intros target. apply fmeasure_one_value. }
  rewrite E, concat_results_Ok. reflexivity.
Qed.


(** *** Bounds of the scores *)

Local Open Scope Q_scope.

Lemma round3_unit (q : Q) : 0 <= q <= 1 -> 0 <= Metrics.round3 q <= 1.
Proof.
  intros [H0 H1]. unfold Metrics.round3, Metrics.round_half_even.
  assert (X0 : 0 <= q * 1000) by nra.
  assert (X1 : q * 1000 <= 1000) by nra.
  generalize dependent (q * 1000). intros x X0 X1. clear H0 H1 q.
  unfold Qle in X0, X1. cbn [Qnum Qden] in X0, X1.
  set (n := Qnum x) in *. set (d := Zpos (Qden x)) in *.
  assert (Hd : (0 < d)%Z) by (unfold d; lia).
  pose proof (Z.div_mod n d ltac:(lia)) as DM.
  pose proof (Z.mod_pos_bound n d Hd) as MB.
  assert (F0 : (0 <= n / d)%Z) by (apply Z.div_pos; lia).
  assert (F1 : (n / d <= 1000)%Z)
    by (apply Z.div_le_upper_bound; lia).
  assert (R : (n / d = 1000 -> n mod d = 0)%Z) by nia.
  unfold Qle. cbn [Qnum Qden].
  destruct (2 * (n mod d) <? d)%Z eqn:E1; [lia|].
  apply Z.ltb_ge in E1.
  assert (n / d <> 1000)%Z by (intros E; specialize (R E); lia).
  destruct (d <? 2 * (n mod d))%Z; [lia|].
  destruct (Z.even (n / d)); lia.
Qed.

Lemma Qnat_nonneg (n : nat) : 0 <= Metrics.Qnat n.
Proof. unfold Metrics.Qnat, Qle. simpl. lia. Qed.

Lemma Qnat_le (a b : nat) : (a <= b)%nat -> Metrics.Qnat a <= Metrics.Qnat b.
Proof. intros H. unfold Metrics.Qnat, Qle. simpl. lia. Qed.

Lemma Qnat_pos (n : nat) : (0 < n)%nat -> 0 < Metrics.Qnat n.
Proof. intros H. unfold Metrics.Qnat, Qlt. simpl. lia. Qed.

Lemma ratio_unit (a b : nat) :
  (a <= b)%nat -> (0 < b)%nat -> 0 <= Metrics.Qnat a / Metrics.Qnat b <= 1.
Proof.
  intros Hab Hb. pose proof (Qnat_pos b Hb) as Pb. split.
  - apply Qle_shift_div_l; [exact Pb|]. rewrite Qmult_0_l. apply Qnat_nonneg.
  - apply Qle_shift_div_r; [exact Pb|]. rewrite Qmult_1_l. now apply Qnat_le.
Qed.

Lemma harmonic_unit (p r : Q) :
  0 <= p <= 1 -> 0 <= r <= 1 -> 0 < p + r -> 0 <= 2 * p * r / (p + r) <= 1.
Proof.
  intros [P0 P1] [R0 R1] S. split.
  - apply Qle_shift_div_l; [exact S|]. nra.
  - apply Qle_shift_div_r; [exact S|]. nra.
Qed.

Lemma Qgt_bool_lt (a b : Q) : Metrics.Qgt_bool a b = true -> b < a.
Proof.
  unfold Metrics.Qgt_bool. intros H. apply negb_true_iff in H.
  apply Qnot_le_lt. intros L. apply Qle_bool_iff in L. congruence.
Qed.

Lemma scores_of_unit (tp fp fn : nat) :
  let sc := Spec.scores_of tp fp fn in
  0 <= Metrics.precision sc <= 1
  /\ 0 <= Metrics.recall sc <= 1
  /\ 0 <= Metrics.f1 sc <= 1.
Proof.
  cbv zeta. unfold Spec.scores_of. simpl.
  set (p := if (0 <? tp + fp)%nat then _ else 0).
  set (r := if (0 <? tp + fn)%nat then _ else 0).
  assert (Hp : 0 <= p <= 1).
  { subst p. destruct (0 <? tp + fp)%nat eqn:E; [|lra].
    apply Nat.ltb_lt in E. apply round3_unit, ratio_unit; lia. }
  assert (Hr : 0 <= r <= 1).
  { subst r. destruct (0 <? tp + fn)%nat eqn:E; [|lra].
    apply Nat.ltb_lt in E. apply round3_unit, ratio_unit; lia. }
  split; [exact Hp|]. split; [exact Hr|].
  destruct (Metrics.Qgt_bool (p + r) 0) eqn:E; [|lra].
  apply round3_unit, harmonic_unit; auto. now apply Qgt_bool_lt.
Qed.

Local Close Scope Q_scope.

(** X12.  For all counts, precision, recall and F1 as [calculate_fmeasure]
    computes them lie between 0 and 1. *)
Theorem scores_between_zero_and_one :
  forall (tp fp fn : nat) (sc : Metrics.scores),
    Metrics.compute_scores tp fp fn = Ok sc ->
    (0 <= Metrics.precision sc <= 1)%Q
    /\ (0 <= Metrics.recall sc <= 1)%Q
    /\ (0 <= Metrics.f1 sc <= 1)%Q.
Proof.
  intros tp fp fn sc H. rewrite compute_scores_value in H.
  inversion H; subst sc. apply scores_of_unit.
Qed.

Lemma scores_between_zero_and_one_witness :
  exists sc, Metrics.compute_scores 8 2 2 = Ok sc
             /\ (0 <= Metrics.f1 sc <= 1)%Q.
Proof.
  eexists. split; [reflexivity|].
  apply (scores_between_zero_and_one 8 2 2). reflexivity.
Defined.

(** *** Order of the rows *)

Section SortFacts.

Context {A : Type} (le : A -> A -> bool).
Hypothesis le_total : forall a b, le a b = true \/ le b a = true.

Lemma insert_Sorted (x : A) (l : list A) :
  Sorted (fun a b => le a b = true) l ->
  Sorted (fun a b => le a b = true) (Py.insert le x l).
Proof.
  induction l as [|y r IH]; intros S; simpl.
  - constructor; constructor.
  - inversion S as [|? ? Sr Hd]; subst. destruct (le y x) eqn:E.
    + constructor; [now apply IH|].
      destruct r as [|z r']; simpl.
      * constructor. exact E.
      * inversion Hd; subst. destruct (le z x); constructor; assumption.
    + constructor; [exact S|]. constructor.
      destruct (le_total x y) as [H | H]; [exact H | congruence].
Qed.

Lemma sorted_Sorted (l : list A) :
  Sorted (fun a b => le a b = true) (Py.sorted le l).
Proof.
  unfold Py.sorted.
  assert (G : forall acc, Sorted (fun a b => le a b = true) acc ->
                Sorted (fun a b => le a b = true)
                  (fold_left (fun acc x => Py.insert le x acc) l acc)).
  { induction l as [|x r IH]; intros acc S; simpl; [exact S|].
    apply IH. now apply insert_Sorted. }
  apply G. constructor.
Qed.

End SortFacts.

Lemma Sorted_weaken {A : Type} (R R' : A -> A -> Prop) (l : list A) :
  (forall a b, R a b -> R' a b) -> Sorted R l -> Sorted R' l.
Proof.
  intros H. induction 1 as [|a l S IH Hd]; constructor; [exact IH|].
  destruct Hd; constructor. now apply H.
Qed.

Lemma Qgt_bool_total (a b : Q) :
  Metrics.Qgt_bool a b = false -> Metrics.Qgt_bool b a = false -> (a == b)%Q.
Proof.
  unfold Metrics.Qgt_bool. intros H1 H2.
  apply negb_false_iff in H1, H2. apply Qle_bool_iff in H1, H2.
  now apply Qle_antisym.
Qed.

Lemma fmeasure_leb_total (a b : Metrics.fmeasure_row) :
  Metrics.fmeasure_leb a b = true \/ Metrics.fmeasure_leb b a = true.
Proof.
  unfold Metrics.fmeasure_leb.
  destruct (Metrics.Qgt_bool (Metrics.f1 (Metrics.fm_scores a))
              (Metrics.f1 (Metrics.fm_scores b))) eqn:E1; [now left|].
  destruct (Metrics.Qgt_bool (Metrics.f1 (Metrics.fm_scores b))
              (Metrics.f1 (Metrics.fm_scores a))) eqn:E2; [now right|].
  rewrite (String.compare_antisym (Metrics.fm_tool b) (Metrics.fm_tool a)).
  destruct (String.compare (Metrics.fm_tool a) (Metrics.fm_tool b)); simpl;
    [apply String.leb_total | now left | now right].
Qed.

Lemma fmeasure_leb_f1 (a b : Metrics.fmeasure_row) :
  Metrics.fmeasure_leb a b = true ->
  (Metrics.f1 (Metrics.fm_scores b) <= Metrics.f1 (Metrics.fm_scores a))%Q.
Proof.
  unfold Metrics.fmeasure_leb.
  destruct (Metrics.Qgt_bool (Metrics.f1 (Metrics.fm_scores a))
              (Metrics.f1 (Metrics.fm_scores b))) eqn:E1.
  - intros _. apply Qlt_le_weak. now apply Qgt_bool_lt.
  - destruct (Metrics.Qgt_bool (Metrics.f1 (Metrics.fm_scores b))
                (Metrics.f1 (Metrics.fm_scores a))) eqn:E2; [discriminate|].
    intros _. rewrite (Qgt_bool_total _ _ E1 E2). apply Qle_refl.
Qed.

(** X13.  The rows of [calculate_fmeasure] come in non-increasing order of
    F1: no row is followed by a row with a higher F1. *)
Theorem calculate_fmeasure_sorted :
  forall (tool_findings : Metrics.tool_stats_t)
         (ground_truth : Metrics.ground_truth_t)
         (speed_data : list (Metrics.tool_key * Q))
         (rows : list Metrics.fmeasure_row),
    Metrics.calculate_fmeasure tool_findings ground_truth speed_data = Ok rows ->
    Sorted
      (fun a b =>
         (Metrics.f1 (Metrics.fm_scores b) <= Metrics.f1 (Metrics.fm_scores a))%Q)
      rows.
Proof.
  intros tf gt sd rows H. rewrite calculate_fmeasure_value in H.
  inversion H; subst rows.
  apply (Sorted_weaken (fun a b => Metrics.fmeasure_leb a b = true));
    [exact fmeasure_leb_f1|].
  apply sorted_Sorted. exact fmeasure_leb_total.
Qed.

Lemma calculate_fmeasure_sorted_witness :
  Sorted
    (fun a b =>
       (Metrics.f1 (Metrics.fm_scores b) <= Metrics.f1 (Metrics.fm_scores a))%Q)
    [Spec.row_of [("vulnpy", [[("cwe", "CWE-89")]])] [] "bandit" "vulnpy"
       {| Metrics.tp := 1; Metrics.fp := 0; Metrics.tp_cwes := ["CWE-89"] |};
     Spec.row_of [("vulnpy", [[("cwe", "CWE-89")]])] [] "bearer" "vulnpy"
       {| Metrics.tp := 0; Metrics.fp := 1; Metrics.tp_cwes := [] |}].
Proof.
  apply (calculate_fmeasure_sorted
           [(("bearer", "vulnpy"),
             {| Metrics.tp := 0; Metrics.fp := 1; Metrics.tp_cwes := [] |});
            (("bandit", "vulnpy"),
             {| Metrics.tp := 1; Metrics.fp := 0; Metrics.tp_cwes := ["CWE-89"] |})]
           [("vulnpy", [[("cwe", "CWE-89")]])] []).
  reflexivity.
Defined.

(** ** Severity normalization on arbitrary JSON values *)

Lemma normalize_severity_cases (py_repr : Normalize.pyval -> string)
  (raw : Normalize.pyval) (mapping : option (list (string * string))) :
  Spec.valid_table (Spec.table_of mapping) = true ->
  Normalize.truthy_val raw = true -> Spec.is_str raw = false ->
  (Spec.is_container raw = true /\ Spec.table_of mapping <> []
   /\ Normalize.normalize_severity py_repr raw mapping = Raise TypeError)
  \/ ((Spec.is_container raw = false \/ Spec.table_of mapping = [])
      /\ match Py.get String.eqb (Spec.table_of mapping) (py_repr raw) with
         | Some lvl =>
             Normalize.normalize_severity py_repr raw mapping = Ok lvl
             /\ In lvl Normalize.LEVELS
         | None =>
             Normalize.normalize_severity py_repr raw mapping
             = Raise AttributeError
         end).
Proof.
  intros Hv T S. unfold Normalize.normalize_severity. rewrite T. simpl negb.
  cbv iota.
  destruct mapping as [[|kv m]|].
  - right. split; [now right|]. simpl.
    destruct raw; try discriminate S; reflexivity.
  - simpl Spec.table_of in *.
    destruct (Spec.is_container raw) eqn:C.
    + left. split; [reflexivity|]. split; [discriminate|].
      destruct raw; try discriminate C; reflexivity.
    + right. split; [now left|].
      assert (G : Normalize.mapping_get (kv :: m) raw = Ok None)
        by (destruct raw; try discriminate; reflexivity).
      rewrite G. cbv beta iota delta [Py.bind Normalize.opt_truthy].
      assert (P : Normalize.py_str py_repr raw = py_repr raw)
        by (destruct raw; try discriminate; reflexivity).
      rewrite P.
      destruct (Py.get String.eqb (kv :: m) (py_repr raw)) as [lvl|] eqn:L.
      * pose proof (valid_table_get _ _ _ Hv L) as V.
        apply is_level_In in V as [Hin Ht].
        destruct lvl; [discriminate Ht|]. split; [reflexivity | exact Hin].
      * destruct raw; try discriminate; reflexivity.
  - right. split; [now right|]. simpl.
    destruct raw; try discriminate S; reflexivity.
Qed.

(** X14.  With a table whose values are levels, [normalize_severity] on any
    JSON value either returns one of the five levels or raises: it returns
    [INFO] for every falsy value, and it raises only for a truthy value
    that is not a string, [TypeError] when the value is a list or an
    object and a non-empty table is consulted, [AttributeError] otherwise. *)
Theorem normalize_severity_outcome :
  forall (py_repr : Normalize.pyval -> string) (raw : Normalize.pyval)
         (mapping : option (list (string * string))),
    Spec.valid_table (Spec.table_of mapping) = true ->
    (Normalize.truthy_val raw = false ->
     Normalize.normalize_severity py_repr raw mapping = Ok "INFO")
    /\ match Normalize.normalize_severity py_repr raw mapping with
       | Ok lvl => In lvl Normalize.LEVELS
       | Raise e =>
           Normalize.truthy_val raw = true /\ Spec.is_str raw = false
           /\ (e = TypeError /\ Spec.is_container raw = true
               /\ Spec.table_of mapping <> []
               \/ e = AttributeError)
       end.
Proof.
  intros py_repr raw mapping Hv. split; [apply normalize_severity_falsy|].
  destruct (Normalize.truthy_val raw) eqn:T.
  - destruct (Spec.is_str raw) eqn:S.
    + destruct raw; try discriminate S.
      destruct (normalize_severity_str py_repr s mapping Hv) as [-> Hin].
      exact Hin.
    + destruct (normalize_severity_cases py_repr raw mapping Hv T S)
        as [(C & N & ->) | (_ & H)].
      * split; [reflexivity|]. split; [reflexivity|]. left. auto.
      * destruct (Py.get String.eqb (Spec.table_of mapping) (py_repr raw)).
        -- destruct H as [-> Hin]. exact Hin.
        -- rewrite H. split; [reflexivity|]. split; [reflexivity|]. now right.
  - rewrite (normalize_severity_falsy py_repr raw mapping T).
    right; right; right; right; left; reflexivity.
Qed.

Lemma normalize_severity_outcome_witness :
  Normalize.normalize_severity Spec.repr_atom Normalize.PNone
    (Some Normalize.ZAP_RISK) = Ok "INFO".
Proof.
  apply (normalize_severity_outcome Spec.repr_atom Normalize.PNone
           (Some Normalize.ZAP_RISK)); reflexivity.
Defined.

Example normalize_severity_numeric :
  Normalize.normalize_severity Spec.repr_atom (Normalize.PInt 3)
    (Some Normalize.ZAP_RISK) = Ok "HIGH"
  /\ Normalize.normalize_severity Spec.repr_atom (Normalize.PInt 3) None
     = Raise AttributeError
  /\ Normalize.normalize_severity Spec.repr_atom
       (Normalize.PList [Normalize.PStr "HIGH"])
       (Some Normalize.TRIVY_SEVERITY) = Raise TypeError.
Proof. repeat split; reflexivity. Qed.

(** ** Whitespace collapsing *)

Lemma all_chars_app (p : ascii -> bool) (a b : string) :
  all_chars p (a ++ b) = all_chars p a && all_chars p b.
Proof.
  induction a as [|c r IH]; simpl; [reflexivity|].
  now rewrite IH, andb_assoc.
Qed.

Lemma string_app_empty_r (a : string) : (a ++ "")%string = a.
Proof. induction a as [|c r IH]; simpl; [reflexivity | now rewrite IH]. Qed.

Lemma string_app_assoc (a b c : string) :
  ((a ++ b) ++ c)%string = (a ++ (b ++ c))%string.
Proof. induction a as [|x r IH]; simpl; [reflexivity | now rewrite IH]. Qed.

Lemma truthy_app (a b : string) : truthy (a ++ b) = truthy a || truthy b.
Proof. destruct a; reflexivity. Qed.

Lemma words_aux_ok (s : string) :
  forall cur,
    all_chars (fun c => negb (isspace_char c)) cur = true ->
    Forall (fun w => Spec.is_word w = true) (words_aux cur s).
Proof.
  induction s as [|c r IH]; intros cur H; simpl.
  - destruct (truthy cur) eqn:T; constructor; [|constructor].
    unfold Spec.is_word. now rewrite T, H.
  - destruct (isspace_char c) eqn:S.
    + destruct (truthy cur) eqn:T.
      * constructor; [unfold Spec.is_word; now rewrite T, H|].
        now apply IH.
      * now apply IH.
    + apply IH. rewrite all_chars_app, H. simpl. now rewrite S.
Qed.

Lemma words_aux_word (w s : string) :
  all_chars (fun c => negb (isspace_char c)) w = true ->
  forall cur, words_aux cur (w ++ s) = words_aux (cur ++ w) s.
Proof.
  induction w as [|c r IH]; intros H cur; simpl.
  - now rewrite string_app_empty_r.
  - simpl in H. apply andb_true_iff in H as [Hc Hr].
    apply negb_true_iff in Hc. rewrite Hc, (IH Hr).
    now rewrite string_app_assoc.
Qed.

Lemma words_join (ws : list string) :
  Forall (fun w => Spec.is_word w = true) ws -> words (join " " ws) = ws.
Proof.
  unfold words. induction ws as [|w r IH]; intros F; [reflexivity|].
  inversion F as [|? ? Hw Fr]; subst.
  unfold Spec.is_word in Hw. apply andb_true_iff in Hw as [T A].
  destruct r as [|w2 r'].
  - simpl. rewrite <- (string_app_empty_r w) at 1.
    rewrite (words_aux_word w "" A ""). simpl. now rewrite T.
  - change (join " " (w :: w2 :: r'))
      with (w ++ (String " " (join " " (w2 :: r'))))%string.
    rewrite (words_aux_word w _ A ""). simpl. rewrite T. f_equal.
    now apply IH.
Qed.

Lemma join_only_spaces (ws : list string) :
  Forall (fun w => Spec.is_word w = true) ws ->
  Spec.only_spaces (join " " ws) = true.
Proof.
  assert (W : forall w, Spec.is_word w = true -> Spec.only_spaces w = true).
  { intros w H. unfold Spec.is_word in H. apply andb_true_iff in H as [_ A].
    unfold Spec.only_spaces. induction w as [|c r IH]; simpl; [reflexivity|].
    simpl in A. apply andb_true_iff in A as [Hc Hr]. now rewrite Hc, IH. }
  induction ws as [|w r IH]; intros F; [reflexivity|].
  inversion F as [|? ? Hw Fr]; subst. destruct r as [|w2 r'].
  - simpl. now apply W.
  - change (join " " (w :: w2 :: r'))
      with (w ++ (String " " (join " " (w2 :: r'))))%string.
    assert (A : forall a b, Spec.only_spaces (a ++ b)
                            = Spec.only_spaces a && Spec.only_spaces b)
      by (intros a b; apply all_chars_app).
    rewrite A, (W w Hw). simpl.
    change (Spec.only_spaces (join " " (w2 :: r')) = true). now apply IH.
Qed.

Lemma sanitize_value (py_repr : Normalize.pyval -> string)
  (text : Normalize.pyval) :
  exists ws, Forall (fun w => Spec.is_word w = true) ws
             /\ Normalize.sanitize py_repr text = join " " ws.
Proof.
  unfold Normalize.sanitize. destruct (Normalize.truthy_val text); simpl.
  - exists (words (Normalize.py_str py_repr text)). split; [|reflexivity].
    now apply words_aux_ok.
  - exists []. split; [constructor | reflexivity].
Qed.

Lemma sanitize_only_spaces (py_repr : Normalize.pyval -> string)
  (text : Normalize.pyval) :
  Spec.only_spaces (Normalize.sanitize py_repr text) = true.
Proof.
  destruct (sanitize_value py_repr text) as (ws & F & ->).
  now apply join_only_spaces.
Qed.

(** X15.  [sanitize] leaves no whitespace but single spaces: its result
    contains no tab, newline or other whitespace character except the
    space, and sanitizing it again changes nothing (so it has no leading,
    trailing or doubled space). *)
Theorem sanitize_collapses_whitespace :
  forall (py_repr : Normalize.pyval -> string) (text : Normalize.pyval),
    let s := Normalize.sanitize py_repr text in
    Spec.only_spaces s = true
    /\ Normalize.sanitize py_repr (Normalize.PStr s) = s.
Proof.
  intros py_repr text. cbv zeta. split; [apply sanitize_only_spaces|].
  destruct (sanitize_value py_repr text) as (ws & F & ->).
  unfold Normalize.sanitize at 1. simpl.
  destruct (truthy (join " " ws)) eqn:T; simpl.
  - now rewrite words_join.
  - now apply truthy_false in T.
Qed.

(** ** What the Trivy adapter emits *)

Lemma mapM_In {A B : Type} (f : A -> result B) (l : list A) (ys : list B) :
  Normalize.mapM f l = Ok ys ->
  forall y, In y ys -> exists x, In x l /\ f x = Ok y.
Proof.
  revert ys. induction l as [|x r IH]; intros ys; simpl.
  - intros H. inversion H. contradiction.
  - destruct (f x) as [y0|] eqn:E; simpl; [|discriminate].
    destruct (Normalize.mapM f r) as [ys0|]; simpl; [|discriminate].
    intros H. inversion H; subst. intros y [<- | Hy].
    + exists x. auto.
    + destruct (IH ys0 eq_refl y Hy) as (x' & Hx & Ex). exists x'. auto.
Qed.

Lemma mapM_length {A B : Type} (f : A -> result B) (l : list A) (ys : list B) :
  Normalize.mapM f l = Ok ys -> List.length ys = List.length l.
Proof.
  revert ys. induction l as [|x r IH]; intros ys; simpl.
  - intros H. inversion H. reflexivity.
  - destruct (f x); simpl; [|discriminate].
    destruct (Normalize.mapM f r) as [ys0|]; simpl; [|discriminate].
    intros H. inversion H; subst. simpl. f_equal. now apply IH.
Qed.

Lemma trivy_vuln_fields (py_repr : Normalize.pyval -> string) (target : string)
  (v : Normalize.pyval) (f : Normalize.raw_finding) :
  Normalize.trivy_vuln py_repr target v = Ok f ->
  Normalize.tool f = "trivy" /\ Normalize.target f = target
  /\ Normalize.category f = "container"
  /\ In (Normalize.severity f) Normalize.LEVELS
  /\ Spec.only_spaces (Normalize.description f) = true.
Proof.
  unfold Normalize.trivy_vuln.
  destruct (Normalize.dict_get v "CweIDs" Normalize.PNone) as [c|]; simpl;
    [|discriminate].
  match goal with
  | |- context [Py.bind ?m _] => destruct m as [cwe|]; simpl; [|discriminate]
  end.
  destruct (Normalize.dict_get v "PkgName" (Normalize.PStr "")) as [pkg|]; simpl;
    [|discriminate].
  destruct (Normalize.dict_get v "InstalledVersion" (Normalize.PStr ""))
    as [ver|]; simpl; [|discriminate].
  destruct (Normalize.dict_get v "Severity" Normalize.PNone) as [sev|]; simpl;
    [|discriminate].
  pose proof (proj2 (normalize_severity_outcome py_repr sev
                       (Some Normalize.TRIVY_SEVERITY) eq_refl)) as L.
  destruct (Normalize.normalize_severity py_repr sev
              (Some Normalize.TRIVY_SEVERITY)) as [lvl|]; simpl; [|discriminate].
  destruct (Normalize.dict_get v "Title" Normalize.PNone) as [title|]; simpl;
    [|discriminate].
  match goal with
  | |- context [Py.bind ?m _] => destruct m as [text|]; simpl; [|discriminate]
  end.
  destruct (Normalize.dict_get v "VulnerabilityID" (Normalize.PStr ""))
    as [rid|]; simpl; [|discriminate].
  intros H. inversion H; subst f. simpl. repeat split; try exact L.
  apply sanitize_only_spaces.
Qed.

Lemma trivy_block_fields (py_repr : Normalize.pyval -> string) (target : string)
  (block : Normalize.pyval) (fs : list Normalize.raw_finding) :
  Normalize.trivy_block py_repr target block = Ok fs ->
  forall f, In f fs ->
    Normalize.tool f = "trivy" /\ Normalize.target f = target
    /\ Normalize.category f = "container"
    /\ In (Normalize.severity f) Normalize.LEVELS
    /\ Spec.only_spaces (Normalize.description f) = true.
Proof.
  unfold Normalize.trivy_block.
  destruct (Normalize.dict_get block "Vulnerabilities" Normalize.PNone) as [vs|];
    simpl; [|discriminate].
  destruct (Normalize.iterate (Normalize.or_val vs (Normalize.PList [])))
    as [vulns|]; simpl; [|discriminate].
  intros H f Hf. destruct (mapM_In _ _ _ H f Hf) as (v & _ & E).
  exact (trivy_vuln_fields py_repr target v f E).
Qed.

(** X16.  Whatever the JSON, when [parse_trivy] returns, every finding it
    emits has tool [trivy], category [container], the target it was called
    with, a severity among the five levels and a whitespace-collapsed
    description. *)
Theorem parse_trivy_findings :
  forall (py_repr : Normalize.pyval -> string) (fs : string -> Normalize.file_read)
         (filepath target : string) (findings : list Normalize.raw_finding)
         (warnings : list Normalize.warning),
    Normalize.parse_trivy py_repr fs filepath target = (Ok findings, warnings) ->
    forall f, In f findings ->
      Normalize.tool f = "trivy" /\ Normalize.target f = target
      /\ Normalize.category f = "container"
      /\ In (Normalize.severity f) Normalize.LEVELS
      /\ Spec.only_spaces (Normalize.description f) = true.
Proof.
  intros py_repr fs filepath target findings warnings.
  unfold Normalize.parse_trivy.
  destruct (Normalize.load_json fs filepath) as [data w].
  assert (G : (rs <- Normalize.dict_get data "Results" Normalize.PNone ;;
               results <- Normalize.iterate (Normalize.or_val rs (Normalize.PList [])) ;;
               blocks <- Normalize.mapM (Normalize.trivy_block py_repr target) results ;;
               Ok (concat blocks)) = Ok findings ->
              forall f, In f findings ->
                Normalize.tool f = "trivy" /\ Normalize.target f = target
                /\ Normalize.category f = "container"
                /\ In (Normalize.severity f) Normalize.LEVELS
                /\ Spec.only_spaces (Normalize.description f) = true).
  { destruct (Normalize.dict_get data "Results" Normalize.PNone) as [rs|];
      simpl; [|discriminate].
    destruct (Normalize.iterate (Normalize.or_val rs (Normalize.PList [])))
      as [results|]; simpl; [|discriminate].
    destruct (Normalize.mapM (Normalize.trivy_block py_repr target) results)
      as [blocks|] eqn:B; simpl; [|discriminate].
    intros H f Hf. inversion H; subst findings.
    apply in_concat in Hf as (b & Hb & Hf).
    destruct (mapM_In _ _ _ B b Hb) as (block & _ & E).
    exact (trivy_block_fields py_repr target block b E f Hf). }
  destruct data; intros H; inversion H; subst;
    try (apply G; assumption).
  intros f [].
Qed.

Lemma parse_trivy_findings_witness :
  Normalize.tool
    {| Normalize.tool := "trivy"; Normalize.target := "shop";
       Normalize.category := "container";
       Normalize.cwe := Normalize.PStr "";
       Normalize.severity := "INFO";
       Normalize.location := "";
       Normalize.description := "";
       Normalize.raw_id := Normalize.PStr "" |} = "trivy"
  /\ In "INFO" Normalize.LEVELS.
Proof.
  destruct (parse_trivy_findings Spec.repr_atom
              (fun _ => Normalize.Parsed
                 (Normalize.PDict
                    [("Results",
                      Normalize.PList
                        [Normalize.PDict
                           [("Vulnerabilities",
                             Normalize.PList [Normalize.PDict []])]])]))
              "trivy-shop.json" "shop" _ [] eq_refl _ (or_introl eq_refl))
    as (Ht & _ & _ & Hs & _).
  split; [exact Ht | exact Hs].
Defined.

(** ** Three-digit counters *)

Lemma parse_nat_str_of_nat (n : nat) : Spec.parse_nat (str_of_nat n) = Some n.
Proof.
  unfold Spec.parse_nat, str_of_nat, NilZero.string_of_uint.
  pose proof (DecimalNat.Unsigned.of_to n) as E.
  destruct (Nat.to_uint n) eqn:D;
    [simpl; f_equal; simpl in E; exact E | ..];
    rewrite NilEmpty.usu; simpl option_map; now rewrite E.
Qed.

Lemma parse_nat_zero (s : string) (n : nat) :
  Spec.parse_nat s = Some n -> Spec.parse_nat (String "0" s) = Some n.
Proof.
  unfold Spec.parse_nat. simpl.
  destruct (NilEmpty.uint_of_string s) as [d|]; simpl; [|discriminate].
  intros H. inversion H. reflexivity.
Qed.

Lemma parse_nat_format (n : nat) : Spec.parse_nat (format_03d n) = Some n.
Proof.
  unfold format_03d. pose proof (parse_nat_str_of_nat n) as P.
  destruct (String.length (str_of_nat n)) as [|[|[|k]]]; try exact P.
  - simpl. now apply parse_nat_zero, parse_nat_zero.
  - simpl. now apply parse_nat_zero.
Qed.

Lemma format_03d_inj (a b : nat) : format_03d a = format_03d b -> a = b.
Proof.
  intros H. pose proof (parse_nat_format a) as Pa.
  rewrite H, parse_nat_format in Pa. now inversion Pa.
Qed.

Lemma string_app_inv_head (p a b : string) :
  (p ++ a)%string = (p ++ b)%string -> a = b.
Proof.
  induction p as [|c r IH]; simpl; intros H; [exact H|].
  inversion H. now apply IH.
Qed.

(** ** validate.py: deduplication, ordering and numbering *)




Lemma validate_rank_level (sev : string) :
  0 < Validate.rank sev ->
  In (upper sev) Spec.validate_levels
  /\ Validate.rank (upper sev) = Validate.rank sev.
Proof.
  unfold Validate.rank. destruct (truthy sev) eqn:T; [|lia].
  assert (Tu : truthy (upper sev) = true) by (destruct sev; [discriminate | reflexivity]).
  rewrite Tu.
  assert (U : upper (upper sev) = upper sev)
    by (apply map_chars_idem, upper_char_idem).
  rewrite U.
  destruct (Py.get String.eqb Validate.SEVERITY_RANK (upper sev)) as [r|] eqn:G;
    [|lia].
  intros _. split; [|reflexivity].
  apply (get_Some_In String.eqb) in G; [|intros a b; apply String.eqb_eq].
  simpl in G. unfold Spec.validate_levels. simpl.
  repeat destruct G as [G | G]; try (inversion G; subst; tauto).
Qed.

Lemma validate_highest_from (severities : list string) :
  forall best best_rank,
    In best Spec.validate_levels ->
    best_rank <= Validate.rank best ->
    let out := fold_left
                 (fun '(best, best_rank) sev =>
                    if best_rank <? Validate.rank sev
                    then (upper sev, Validate.rank sev)
                    else (best, best_rank))
                 severities (best, best_rank) in
    In (fst out) Spec.validate_levels
    /\ snd out <= Validate.rank (fst out)
    /\ best_rank <= snd out
    /\ forall sev, In sev severities -> Validate.rank sev <= snd out.
Proof.
  induction severities as [|sev r IH]; intros best best_rank Hb Hr; cbv zeta;
    simpl.
  - repeat split; auto. contradiction.
  - destruct (best_rank <? Validate.rank sev) eqn:E.
    + apply Nat.ltb_lt in E.
      destruct (validate_rank_level sev ltac:(lia)) as [Hl Hk].
      destruct (IH (upper sev) (Validate.rank sev) Hl ltac:(lia))
        as (I1 & I2 & I3 & I4).
      cbv zeta in *. repeat split; auto; try lia.
      intros s [<- | Hs]; [lia | now apply I4].
    + apply Nat.ltb_ge in E.
      destruct (IH best best_rank Hb Hr) as (I1 & I2 & I3 & I4).
      cbv zeta in *. repeat split; auto.
      intros s [<- | Hs]; [lia | now apply I4].
Qed.

(** X18.  The severity of a deduplicated row is always one of [CRITICAL],
    [HIGH], [MEDIUM], [LOW], [INFO], and no finding of the group ranks
    above it; when no finding has a known severity the row is [LOW]. *)
Theorem validate_highest_severity_level :
  forall severities : list string,
    In (Validate.highest_severity severities) Spec.validate_levels
    /\ (forall sev, In sev severities ->
          Validate.rank sev <= Validate.rank (Validate.highest_severity severities))
    /\ ((forall sev, In sev severities -> Validate.rank sev = 0) ->
        Validate.highest_severity severities = "LOW").
Proof.
  intros severities. unfold Validate.highest_severity.
  destruct (validate_highest_from severities "LOW" 0) as (I1 & I2 & I3 & I4).
  { unfold Spec.validate_levels. simpl. tauto. }
  { lia. }
  cbv zeta in *. split; [exact I1|]. split.
  - intros sev Hs. specialize (I4 sev Hs). lia.
  - intros Hz. clear I1 I2 I3 I4.
    assert (G : forall acc,
               fold_left
                 (fun '(best, best_rank) sev =>
                    if best_rank <? Validate.rank sev
                    then (upper sev, Validate.rank sev)
                    else (best, best_rank)) severities acc = acc).
    { induction severities as [|sev r IH]; intros [b n]; simpl; [reflexivity|].
      rewrite (Hz sev (or_introl eq_refl)). simpl.
      apply IH. intros s Hs. apply Hz. now right. }
    now rewrite G.
Qed.

Section SortPermutation.

Context {A : Type} (le : A -> A -> bool).

Lemma insert_Permutation (x : A) (l : list A) :
  Permutation (Py.insert le x l) (x :: l).
Proof.
  induction l as [|y r IH]; simpl; [reflexivity|].
  destruct (le y x); [|reflexivity].
  rewrite IH. apply perm_swap.
Qed.

Lemma sorted_Permutation (l : list A) : Permutation (Py.sorted le l) l.
Proof.
  unfold Py.sorted.
  assert (G : forall acc,
             Permutation (fold_left (fun acc x => Py.insert le x acc) l acc)
               (l ++ acc)).
  { induction l as [|x r IH]; intros acc; simpl; [reflexivity|].
    rewrite IH, insert_Permutation. symmetry. apply Permutation_middle. }
  rewrite G. now rewrite app_nil_r.
Qed.

End SortPermutation.

Lemma sort_key_leb_total (a b : Validate.deduped) :
  Validate.sort_key_leb a b = true \/ Validate.sort_key_leb b a = true.
Proof.
  unfold Validate.sort_key_leb.
  rewrite (String.compare_antisym (Validate.d_model b) (Validate.d_model a)).
  destruct (String.compare (Validate.d_model a) (Validate.d_model b)); simpl;
    [|now left | now right].
  rewrite (String.compare_antisym (Validate.d_owasp b) (Validate.d_owasp a)).
  destruct (String.compare (Validate.d_owasp a) (Validate.d_owasp b)); simpl;
    [|now left | now right].
  rewrite (String.compare_antisym (Validate.d_file b) (Validate.d_file a)).
  destruct (String.compare (Validate.d_file a) (Validate.d_file b)); simpl;
    [|now left | now right].
  destruct (Nat.leb_spec (Validate.d_line a) (Validate.d_line b));
    [now left | right; apply Nat.leb_le; lia].
Qed.

(** X19.  [sort_findings] returns a rearrangement of its input, every row
    kept once, in which each row is followed by a row that is not smaller
    in the key [(model, owasp, file, line)]; in particular rows whose OWASP
    field is empty come first within their model. *)
Theorem sort_findings_sorted_permutation :
  forall findings : list Validate.deduped,
    Permutation (Validate.sort_findings findings) findings
    /\ Sorted (fun a b => Validate.sort_key_leb a b = true)
         (Validate.sort_findings findings).
Proof.
  intros findings. unfold Validate.sort_findings. split.
  - apply sorted_Permutation.
  - apply sorted_Sorted. exact sort_key_leb_total.
Qed.

Example sort_findings_unknown_owasp_first :
  map Validate.d_owasp
    (Validate.sort_findings
       [Validate.mkDeduped "gpt" "a.py" 1 "CWE-89" "A03" "HIGH" "bandit";
        Validate.mkDeduped "gpt" "b.py" 1 "" "" "LOW" "semgrep"])
  = [""; "A03"].
Proof. reflexivity. Qed.

Lemma assign_ids_from_spec (findings : list Validate.deduped) :
  forall k,
    map snd (Validate.assign_ids_from k findings) = findings
    /\ (forall i f, nth_error findings i = Some f ->
          nth_error (Validate.assign_ids_from k findings) i
          = Some (("F" ++ format_03d (k + i))%string, f))
    /\ (forall id, In id (map fst (Validate.assign_ids_from k findings)) ->
          exists i, id = ("F" ++ format_03d (k + i))%string)
    /\ NoDup (map fst (Validate.assign_ids_from k findings)).
Proof.
  induction findings as [|f r IH]; intros k;
    cbn [Validate.assign_ids_from map fst snd].
  - repeat split; try constructor; try contradiction.
    intros [|i] g; discriminate.
  - destruct (IH (S k)) as (I1 & I2 & I3 & I4). split; [now rewrite I1|].
    split; [|split].
    + intros [|i] g H; cbn [nth_error] in *.
      * inversion H; subst. now rewrite Nat.add_0_r.
      * rewrite (I2 i g H). now replace (S k + i) with (k + S i) by lia.
    + intros id [<- | Hid].
      * exists 0. now rewrite Nat.add_0_r.
      * destruct (I3 id Hid) as [i ->]. exists (S i).
        now replace (S k + i) with (k + S i) by lia.
    + constructor; [|exact I4].
      intros Hin. destruct (I3 _ Hin) as [i E].
      inversion E as [E']. apply format_03d_inj in E'. lia.
Qed.

(** X20.  [assign_ids] numbers the rows in order: the row at position [i]
    (from 0) receives the id [F] followed by [i + 1] on at least three
    digits, the rows themselves are unchanged, and no two rows receive the
    same id. *)
Theorem assign_ids_sequential :
  forall findings : list Validate.deduped,
    map snd (Validate.assign_ids findings) = findings
    /\ (forall i f, nth_error findings i = Some f ->
          nth_error (Validate.assign_ids findings) i
          = Some (("F" ++ format_03d (S i))%string, f))
    /\ NoDup (map fst (Validate.assign_ids findings)).
Proof.
  intros findings. unfold Validate.assign_ids.
  destruct (assign_ids_from_spec findings 1) as (I1 & I2 & _ & I4).
  repeat split; auto.
Qed.

Example assign_ids_ex :
  map fst
    (Validate.assign_ids
       [Validate.mkDeduped "gpt" "a.py" 1 "CWE-89" "A03" "HIGH" "bandit";
        Validate.mkDeduped "gpt" "b.py" 1 "" "" "LOW" "semgrep"])
  = ["F001"; "F002"].
Proof. reflexivity. Qed.

(** ** normalize-results.py: finding ids *)

Lemma make_finding_id_inj (tool target : string) (a b : nat) :
  Normalize.make_finding_id tool target a = Normalize.make_finding_id tool target b ->
  a = b.
Proof.
  unfold Normalize.make_finding_id. intros H.
  apply string_app_inv_head in H. inversion H as [H'].
  apply string_app_inv_head in H'. inversion H' as [H''].
  now apply format_03d_inj.
Qed.

Lemma count_pair_cons (g f : Normalize.raw_finding)
  (fs : list Normalize.raw_finding) :
  Spec.count_pair g (f :: fs)
  = (if key2_eqb (Normalize.tool g, Normalize.target g)
          (Normalize.tool f, Normalize.target f) then 1 else 0)
    + Spec.count_pair g fs.
Proof.
  unfold Spec.count_pair. simpl.
  destruct (key2_eqb _ _); reflexivity.
Qed.

Lemma assign_finding_ids_from_spec (fs : list Normalize.raw_finding) :
  forall counters,
    map snd (Normalize.assign_finding_ids_from counters fs) = fs
    /\ forall i f, nth_error fs i = Some f ->
         nth_error (Normalize.assign_finding_ids_from counters fs) i
         = Some (Normalize.make_finding_id (Normalize.tool f) (Normalize.target f)
                   (match Py.get key2_eqb counters
                            (Normalize.tool f, Normalize.target f) with
                    | Some n => n
                    | None => 0
                    end + S (Spec.count_pair f (firstn i fs))), f).
Proof.
  induction fs as [|f r IH]; intros counters; simpl.
  - split; [reflexivity|]. intros [|i] g; discriminate.
  - destruct (IH (Py.update key2_eqb counters
                    (Normalize.tool f, Normalize.target f) 0 S)) as [I1 I2].
    split; [now rewrite I1|].
    intros [|i] g H; simpl in *.
    + inversion H; subst g.
      rewrite (get_update_same key2_eqb key2_eqb_eq).
      do 3 f_equal. unfold Spec.count_pair. simpl. lia.
    + rewrite (I2 i g H). do 3 f_equal. rewrite count_pair_cons.
      destruct (key2_eqb (Normalize.tool g, Normalize.target g)
                  (Normalize.tool f, Normalize.target f)) eqn:E.
      * apply key2_eqb_eq in E. rewrite E.
        rewrite (get_update_same key2_eqb key2_eqb_eq). lia.
      * rewrite (get_update_other key2_eqb key2_eqb_eq); [lia|].
        intros K. rewrite K in E.
        rewrite (proj2 (key2_eqb_eq _ _) eq_refl) in E. discriminate E.
Qed.

Lemma count_pair_app (g : Normalize.raw_finding)
  (l1 l2 : list Normalize.raw_finding) :
  Spec.count_pair g (l1 ++ l2) = Spec.count_pair g l1 + Spec.count_pair g l2.
Proof. unfold Spec.count_pair. now rewrite filter_app, length_app. Qed.

Lemma count_pair_grows (fs : list Normalize.raw_finding) (i j : nat)
  (f g : Normalize.raw_finding) :
  i < j -> nth_error fs i = Some f ->
  Normalize.tool f = Normalize.tool g -> Normalize.target f = Normalize.target g ->
  Spec.count_pair f (firstn i fs) < Spec.count_pair g (firstn j fs).
Proof.
  intros Hij Hi Ht Hg.
  destruct (nth_error_split fs i Hi) as (l1 & l2 & -> & L).
  rewrite firstn_app, L, Nat.sub_diag. simpl. rewrite app_nil_r.
  rewrite (firstn_all2 (n := i)) by lia.
  rewrite firstn_app, L. rewrite (firstn_all2 (n := j)) by lia.
  destruct (j - i) as [|k] eqn:D; [lia|]. simpl.
  rewrite count_pair_app, count_pair_cons.
  unfold Spec.count_pair at 1 2. rewrite Ht, Hg.
  rewrite (proj2 (key2_eqb_eq _ _) eq_refl). lia.
Qed.

(** X21.  The numbering loop of [main] counts per [(tool, target)]: the
    finding at position [i] receives the id built from its tool, its
    target and one plus the number of earlier findings of the same tool
    and target; hence two findings of the same tool and target never
    receive the same [finding_id]. *)
Theorem finding_ids_numbered_per_pair :
  forall all_findings : list Normalize.raw_finding,
    map snd (Normalize.assign_finding_ids all_findings) = all_findings
    /\ (forall i f, nth_error all_findings i = Some f ->
          nth_error (Normalize.assign_finding_ids all_findings) i
          = Some (Normalize.make_finding_id (Normalize.tool f)
                    (Normalize.target f)
                    (S (Spec.count_pair f (firstn i all_findings))), f))
    /\ (forall i j f g id_f id_g,
          i < j ->
          nth_error (Normalize.assign_finding_ids all_findings) i = Some (id_f, f) ->
          nth_error (Normalize.assign_finding_ids all_findings) j = Some (id_g, g) ->
          Normalize.tool f = Normalize.tool g ->
          Normalize.target f = Normalize.target g ->
          id_f <> id_g).
Proof.
  intros fs. unfold Normalize.assign_finding_ids.
  destruct (assign_finding_ids_from_spec fs []) as [I1 I2].
  split; [exact I1|]. split; [exact I2|].
  intros i j f g id_f id_g Hij Hi Hj Ht Hg.
  assert (Fi : nth_error fs i = Some f).
  { rewrite <- I1, nth_error_map, Hi. reflexivity. }
  assert (Fj : nth_error fs j = Some g).
  { rewrite <- I1, nth_error_map, Hj. reflexivity. }
  rewrite (I2 i f Fi) in Hi. rewrite (I2 j g Fj) in Hj.
  inversion Hi as [Ei]. inversion Hj as [Ej]. clear Ei Ej Hi Hj.
  cbn [Py.get]. intros E. rewrite <- Ht, <- Hg in E.
  apply make_finding_id_inj in E.
  pose proof (count_pair_grows fs i j f g Hij Fi Ht Hg). lia.
Qed.

Example make_finding_id_ex :
  Normalize.make_finding_id "npm-audit" "juice-shop" 7 = "NPMAUDIT-JUICE-SHOP-007".
Proof. reflexivity. Qed.

(** ** calculate-fmeasure.py: CWE coverage *)

Lemma concat_results_singletons {A B : Type} (f : A -> Py.result B)
  (P : A -> B -> Prop) (l : list A) :
  (forall x, In x l -> exists r, f x = Ok r /\ P x r) ->
  exists rs,
    Metrics.concat_results (map (fun x => r <- f x ;; Ok [r]) l) = Ok rs
    /\ Forall2 P l rs.
Proof.
  induction l as [|x l IH]; intros H; simpl.
  - exists []. split; [reflexivity | constructor].
  - destruct (H x (or_introl eq_refl)) as (r & E & Hr).
    destruct IH as (rs & Ers & F); [intros y Hy; apply H; now right|].
    exists (r :: rs). rewrite E. simpl. rewrite Ers. simpl.
    split; [reflexivity | now constructor].
Qed.

Lemma flat_map_list_prod {A B C : Type} (g : A -> B -> C) (l : list A)
  (l' : list B) :
  flat_map (fun x => map (g x) l') l
  = map (fun p => g (fst p) (snd p)) (list_prod l l').
Proof.
  induction l as [|x l IH]; simpl; [reflexivity|].
  now rewrite map_app, map_map, IH.
Qed.


Lemma Forall2_map_eq {A B C : Type} (P : A -> B -> Prop) (g : B -> C)
  (h : A -> C) (l : list A) (rs : list B) :
  (forall x r, P x r -> g r = h x) -> Forall2 P l rs -> map g rs = map h l.
Proof.
  intros H F. induction F as [|x r l rs Hxr F IH]; simpl; [reflexivity|].
  now rewrite (H x r Hxr), IH.
Qed.

Lemma Forall2_In_r {A B : Type} (P : A -> B -> Prop) (l : list A)
  (rs : list B) (r : B) :
  Forall2 P l rs -> In r rs -> exists x, In x l /\ P x r.
Proof.
  intros F. induction F as [|x r' l rs Hxr F IH]; simpl; [contradiction|].
  intros [<- | H]; [eauto|]. destruct (IH H) as (y & Hy & Py). eauto.
Qed.

Lemma sorted_set_NoDup (l : list string) : NoDup (sorted_set l).
Proof.
  unfold sorted_set.
  apply (Permutation_NoDup (Permutation_sym (sorted_Permutation _ _))).
  apply dedup_NoDup.
Qed.

Lemma sorted_NoDup {A : Type} (le : A -> A -> bool) (l : list A) :
  NoDup l -> NoDup (Py.sorted le l).
Proof.
  apply Permutation_NoDup, Permutation_sym, sorted_Permutation.
Qed.

Lemma count_loop {A : Type} (p : A -> bool) (l : list A) (n : nat) :
  fold_left (fun found x => if p x then S found else found) l n
  = n + List.length (filter p l).
Proof.
  revert n. induction l as [|x l IH]; intros n; simpl; [lia|].
  rewrite IH. destruct (p x); simpl; lia.
Qed.

Section ValueMap.

Context {A B : Type} (h : A -> B).

Lemma get_map_values (d : list (string * list A)) (k : string) :
  Py.get String.eqb (map (Spec.map_values h) d) k = option_map (map h) (Py.get String.eqb d k).
Proof.
  induction d as [|[k' v] r IH]; simpl; [reflexivity|].
  destruct (String.eqb k k'); [reflexivity | exact IH].
Qed.

Lemma set_map_values (d : list (string * list A)) (k : string) (v : list A) :
  Py.set String.eqb (map (Spec.map_values h) d) k (map h v) = map (Spec.map_values h) (Py.set String.eqb d k v).
Proof.
  induction d as [|[k' v'] r IH]; simpl; [reflexivity|].
  destruct (String.eqb k k'); simpl; [reflexivity | now rewrite IH].
Qed.

Lemma update_map_values (d : list (string * list A)) (k : string) (x : A) :
  Py.update String.eqb (map (Spec.map_values h) d) k [] (fun l => l ++ [h x])
  = map (Spec.map_values h) (Py.update String.eqb d k [] (fun l => l ++ [x])).
Proof.
  unfold Py.update. rewrite get_map_values.
  destruct (Py.get String.eqb d k) as [v|]; simpl;
    rewrite <- set_map_values; now rewrite ?map_app.
Qed.

End ValueMap.

Lemma group_by_cons {A K : Type} (eqk : K -> K -> bool) (key : A -> K)
  (x : A) (xs : list A) (d : list (K * list A)) :
  Spec.group_by eqk key (x :: xs) d
  = Spec.group_by eqk key xs
      (Py.update eqk d (key x) [] (fun l => l ++ [x])).
Proof. reflexivity. Qed.

Lemma gt_by_cwe_group (ground_truth : Metrics.ground_truth_t) :
  Metrics.gt_by_cwe ground_truth
  = map (Spec.map_values fst)
      (Spec.group_by String.eqb Spec.gt_cwe
         (filter (fun p => truthy (Spec.gt_cwe p)) (Spec.gt_pairs ground_truth))
         []).
Proof.
  unfold Metrics.gt_by_cwe.
  assert (Inner : forall target rows D,
            fold_left
              (fun d row =>
                 let cwe := strip (Metrics.field row "cwe") in
                 if truthy cwe
                 then Py.update String.eqb d cwe [] (fun l => l ++ [target])
                 else d) rows (map (Spec.map_values fst) D)
            = map (Spec.map_values fst)
                (Spec.group_by String.eqb Spec.gt_cwe
                   (filter (fun p => truthy (Spec.gt_cwe p))
                      (map (fun row => (target, row)) rows)) D)).
  { intros target rows. induction rows as [|row rows IH]; intros D;
      [reflexivity|].
    cbn [map filter fold_left].
    change (Spec.gt_cwe (target, row)) with (strip (Metrics.field row "cwe")).
    cbv zeta.
    destruct (truthy (strip (Metrics.field row "cwe"))) eqn:T.
    - rewrite group_by_cons.
      change (Spec.gt_cwe (target, row)) with (strip (Metrics.field row "cwe")).
      rewrite <- IH. f_equal.
      exact (update_map_values fst D _ (target, row)).
    - apply IH. }
  assert (Outer : forall gt D,
            fold_left
              (fun d '(target, gt_rows) =>
                 fold_left
                   (fun d row =>
                      let cwe := strip (Metrics.field row "cwe") in
                      if truthy cwe
                      then Py.update String.eqb d cwe [] (fun l => l ++ [target])
                      else d) gt_rows d) gt (map (Spec.map_values fst) D)
            = map (Spec.map_values fst)
                (Spec.group_by String.eqb Spec.gt_cwe
                   (filter (fun p => truthy (Spec.gt_cwe p)) (Spec.gt_pairs gt))
                   D)).
  { intros gt. induction gt as [|[target rows] gt IH]; intros D; simpl;
      [reflexivity|].
    rewrite Inner, IH. unfold Spec.group_by.
    now rewrite filter_app, fold_left_app. }
  exact (Outer ground_truth []).
Qed.

Lemma filter_filter_key (cwe : string) (l : list (string * Metrics.csv_row)) :
  truthy cwe = true ->
  filter (fun p => String.eqb cwe (Spec.gt_cwe p))
    (filter (fun p => truthy (Spec.gt_cwe p)) l)
  = filter (fun p => String.eqb cwe (Spec.gt_cwe p)) l.
Proof.
  intros T. induction l as [|p l IH]; simpl; [reflexivity|].
  destruct (truthy (Spec.gt_cwe p)) eqn:Tp; simpl.
  - now rewrite IH.
  - rewrite IH. destruct (String.eqb cwe (Spec.gt_cwe p)) eqn:E; [|reflexivity].
    apply String.eqb_eq in E. congruence.
Qed.

(** The targets stored under a CWE, for every CWE. *)
Lemma gt_by_cwe_lookup (ground_truth : Metrics.ground_truth_t) (cwe : string) :
  truthy cwe = true ->
  match Py.get String.eqb (Metrics.gt_by_cwe ground_truth) cwe with
  | Some l => l
  | None => []
  end = map fst (Spec.gt_rows_with ground_truth cwe).
Proof.
  intros T. rewrite gt_by_cwe_group.
  rewrite (get_map_values fst).
  pose proof (group_by_lookup String.eqb Spec.gt_cwe String.eqb_eq
                (filter (fun p => truthy (Spec.gt_cwe p))
                   (Spec.gt_pairs ground_truth)) [] cwe) as L.
  simpl in L. rewrite (filter_filter_key cwe _ T) in L.
  unfold Spec.gt_rows_with. rewrite <- L.
  destruct (Py.get String.eqb _ cwe); reflexivity.
Qed.

Lemma gt_by_cwe_keys (ground_truth : Metrics.ground_truth_t) :
  NoDup (map fst (Metrics.gt_by_cwe ground_truth))
  /\ forall cwe,
       In cwe (map fst (Metrics.gt_by_cwe ground_truth))
       <-> cwe <> "" /\ Spec.gt_rows_with ground_truth cwe <> [].
Proof.
  pose proof (gt_by_cwe_group ground_truth) as G.
  set (xs := filter (fun p => truthy (Spec.gt_cwe p))
               (Spec.gt_pairs ground_truth)) in *.
  destruct (group_by_spec String.eqb Spec.gt_cwe String.eqb_eq xs) as [N S].
  cbv zeta in N, S.
  assert (K : map fst (Metrics.gt_by_cwe ground_truth)
              = map fst (Spec.group_by String.eqb Spec.gt_cwe xs [])).
  { rewrite G, map_map. apply map_ext. now intros [k l]. }
  rewrite K. split; [exact N|]. intros cwe. split.
  - intros H. apply in_map_iff in H as ([k l] & E & Hin). simpl in E. subst k.
    destruct (S cwe l Hin) as [El Hne].
    assert (T : truthy cwe = true).
    { destruct l as [|p l']; [contradiction|].
      assert (Hp : In p (filter (fun x => String.eqb cwe (Spec.gt_cwe x)) xs))
        by (rewrite <- El; now left).
      apply filter_In in Hp as [Hp E]. apply String.eqb_eq in E.
      unfold xs in Hp. apply filter_In in Hp as [_ Hp]. congruence. }
    split; [intros ->; discriminate T|].
    unfold Spec.gt_rows_with. unfold xs in El.
    rewrite (filter_filter_key cwe _ T) in El. now rewrite <- El.
  - intros [Hne Hrows].
    assert (T : truthy cwe = true) by (destruct cwe; [contradiction | reflexivity]).
    pose proof (gt_by_cwe_lookup ground_truth cwe T) as L.
    destruct (Py.get String.eqb (Metrics.gt_by_cwe ground_truth) cwe)
      as [l|] eqn:Gt.
    + apply (get_Some_In String.eqb) in Gt;
        [|intros a b; apply String.eqb_eq].
      rewrite <- K. apply (in_map fst) in Gt. exact Gt.
    + destruct (Spec.gt_rows_with ground_truth cwe); [contradiction|].
      discriminate L.
Qed.

Local Open Scope Q_scope.

Lemma round1_percent (q : Q) : 0 <= q <= 100 -> 0 <= Metrics.round1 q <= 100.
Proof.
  intros [H0 H1]. unfold Metrics.round1, Metrics.round_half_even.
  assert (X0 : 0 <= q * 10) by nra.
  assert (X1 : q * 10 <= 1000) by nra.
  generalize dependent (q * 10). intros x X0 X1. clear H0 H1 q.
  unfold Qle in X0, X1. cbn [Qnum Qden] in X0, X1.
  set (n := Qnum x) in *. set (d := Zpos (Qden x)) in *.
  assert (Hd : (0 < d)%Z) by (unfold d; lia).
  pose proof (Z.div_mod n d ltac:(lia)) as DM.
  pose proof (Z.mod_pos_bound n d Hd) as MB.
  assert (F0 : (0 <= n / d)%Z) by (apply Z.div_pos; lia).
  assert (F1 : (n / d <= 1000)%Z)
    by (apply Z.div_le_upper_bound; lia).
  assert (R : (n / d = 1000 -> n mod d = 0)%Z) by nia.
  unfold Qle. cbn [Qnum Qden].
  destruct (2 * (n mod d) <? d)%Z eqn:E1; [lia|].
  apply Z.ltb_ge in E1.
  assert (n / d <> 1000)%Z by (intros E; specialize (R E); lia).
  destruct (d <? 2 * (n mod d))%Z; [lia|].
  destruct (Z.even (n / d)); lia.
Qed.

Local Close Scope Q_scope.

Lemma coverage_one_value (tool_findings : Metrics.tool_stats_t)
  (by_cwe : list (string * list string)) (tool cwe : string) :
  exists r,
    Metrics.coverage_one tool_findings by_cwe tool cwe = Ok r
    /\ Spec.coverage_fields tool_findings
         match Py.get String.eqb by_cwe cwe with Some l => l | None => [] end
         tool cwe r.
Proof.
  unfold Metrics.coverage_one. cbv zeta.
  set (targets := match Py.get String.eqb by_cwe cwe with
                  | Some l => l
                  | None => []
                  end).
  rewrite count_loop. simpl Nat.add.
  set (p := fun target : string => existsb (String.eqb cwe) _).
  pose proof (filter_length_le p targets) as Le.
  destruct (0 <? List.length targets) eqn:E.
  - rewrite (truediv_nat _ _ E). simpl.
    eexists. split; [reflexivity|].
    unfold Spec.coverage_fields. cbn [Metrics.cov_tool Metrics.cov_cwe
      Metrics.total_in_ground_truth Metrics.found_count Metrics.missed_count
      Metrics.coverage_pct].
    repeat split; try reflexivity.
    + apply round1_percent.
      apply Nat.ltb_lt in E.
      destruct (ratio_unit _ _ Le E) as [R0 R1]. nra.
    + apply round1_percent.
      apply Nat.ltb_lt in E.
      destruct (ratio_unit _ _ Le E) as [R0 R1]. nra.
  - simpl. eexists. split; [reflexivity|].
    unfold Spec.coverage_fields. cbn [Metrics.cov_tool Metrics.cov_cwe
      Metrics.total_in_ground_truth Metrics.found_count Metrics.missed_count
      Metrics.coverage_pct].
    repeat split; try reflexivity; unfold Qle; simpl; lia.
Qed.

Lemma calculate_cwe_coverage_value (tool_findings : Metrics.tool_stats_t)
  (ground_truth : Metrics.ground_truth_t) :
  exists rows,
    Metrics.calculate_cwe_coverage tool_findings ground_truth = Ok rows
    /\ Forall2
         (fun x r =>
            Spec.coverage_fields tool_findings
              match Py.get String.eqb (Metrics.gt_by_cwe ground_truth) (snd x) with
              | Some l => l
              | None => []
              end (fst x) (snd x) r)
         (list_prod
            (sorted_set (map (fun kv => fst (fst kv)) tool_findings))
            (sorted String.leb (map fst (Metrics.gt_by_cwe ground_truth))))
         rows.
Proof.
  unfold Metrics.calculate_cwe_coverage. cbv zeta.
  rewrite (flat_map_list_prod
             (fun tool cwe =>
                r <- Metrics.coverage_one tool_findings
                       (Metrics.gt_by_cwe ground_truth) tool cwe ;; Ok [r])).
  apply (concat_results_singletons
           (fun x => Metrics.coverage_one tool_findings
                       (Metrics.gt_by_cwe ground_truth) (fst x) (snd x))).
  intros x _. apply coverage_one_value.
Qed.


Lemma tp_cwes_by_target_lookup (tool_findings : Metrics.tool_stats_t)
  (tool target : string) :
  NoDup (map fst tool_findings) ->
  forall d,
    Py.get String.eqb
      (fold_left
         (fun d '((t, tg), st) =>
            if String.eqb t tool
            then Py.set String.eqb d tg (Metrics.tp_cwes st)
            else d)
         tool_findings d) target
    = match Py.get key2_eqb tool_findings (tool, target) with
      | Some st => Some (Metrics.tp_cwes st)
      | None => Py.get String.eqb d target
      end.
Proof.
  induction tool_findings as [|[[t tg] st] tf IH]; intros N d;
    [reflexivity|].
  inversion N as [|? ? Hk Hr]; subst. cbn [fold_left Py.get].
  rewrite (IH Hr). unfold key2_eqb at 2. cbn [fst snd].
  rewrite (String.eqb_sym tool t).
  destruct (String.eqb t tool) eqn:Et; cbn [andb].
  - apply String.eqb_eq in Et. subst t.
    destruct (String.eqb target tg) eqn:Eg.
    + apply String.eqb_eq in Eg. subst tg.
      destruct (Py.get key2_eqb tf (tool, target)) as [st'|] eqn:G.
      * apply (get_Some_In key2_eqb) in G;
          [|intros a b; apply key2_eqb_eq].
        apply (in_map fst) in G. contradiction.
      * apply (get_set_same String.eqb String.eqb_eq).
    + destruct (Py.get key2_eqb tf (tool, target)); [reflexivity|].
      apply (get_set_other String.eqb String.eqb_eq).
      intros ->. rewrite String.eqb_refl in Eg. discriminate Eg.
  - reflexivity.
Qed.

Lemma filter_map_length {A B : Type} (p : B -> bool) (h : A -> B)
  (l : list A) :
  List.length (filter p (map h l))
  = List.length (filter (fun x => p (h x)) l).
Proof.
  induction l as [|x l IH]; simpl; [reflexivity|].
  destruct (p (h x)); simpl; now rewrite IH.
Qed.

(** X23.  When [tool_findings] is a dictionary (no key twice), the found
    count of a coverage row is the number of ground-truth rows listing the
    row's CWE whose target has that CWE among the true-positive CWEs of
    the row's tool. *)
Theorem cwe_coverage_found_count :
  forall (tool_findings : Metrics.tool_stats_t)
         (ground_truth : Metrics.ground_truth_t)
         (rows : list Metrics.coverage_row),
    NoDup (map fst tool_findings) ->
    Metrics.calculate_cwe_coverage tool_findings ground_truth = Ok rows ->
    forall r, In r rows ->
      Metrics.found_count r
      = List.length
          (filter
             (fun p => Spec.has_tp tool_findings (Metrics.cov_tool r)
                         (Metrics.cov_cwe r) (fst p))
             (Spec.gt_rows_with ground_truth (Metrics.cov_cwe r))).
Proof.
  intros tf gt rows N E r Hr.
  destruct (calculate_cwe_coverage_value tf gt) as (rows' & E' & F).
  rewrite E in E'. inversion E'; subst rows'. clear E'.
  destruct (gt_by_cwe_keys gt) as [_ HK].
  destruct (Forall2_In_r _ _ _ _ F Hr) as ([tool cwe] & Hx & Hf).
  apply in_prod_iff in Hx as [_ Hc]. apply sorted_In, HK in Hc.
  destruct Hc as [Hne _].
  assert (T : truthy cwe = true) by (destruct cwe; [contradiction | reflexivity]).
  cbn [fst snd] in Hf. rewrite (gt_by_cwe_lookup gt cwe T) in Hf.
  destruct Hf as (Ht & Hc & _ & Hfound & _).
  rewrite Hfound, Ht, Hc, filter_map_length.
  f_equal. apply filter_ext. intros [target row]. cbn [fst].
  unfold Spec.has_tp, Metrics.tool_tp_cwes_by_target.
  rewrite (tp_cwes_by_target_lookup tf tool target N []).
  destruct (Py.get key2_eqb tf (tool, target)); reflexivity.
Qed.

Lemma cwe_coverage_found_count_witness :
  Metrics.found_count (Metrics.mkCoverage "bandit" "CWE-89" 1 1%Z 2 (500 # 10))
  = List.length
      (filter
         (fun p =>
            Spec.has_tp
              [(("bandit", "vulnpy"),
                {| Metrics.tp := 1; Metrics.fp := 0;
                   Metrics.tp_cwes := ["CWE-89"] |})]
              "bandit" "CWE-89" (fst p))
         (Spec.gt_rows_with
            [("vulnpy", [[("cwe", "CWE-89")]]);
             ("webgoat", [[("cwe", " CWE-89 ")]; [("cwe", "CWE-79")]])]
            "CWE-89")).
Proof.
  apply (cwe_coverage_found_count
           [(("bandit", "vulnpy"),
             {| Metrics.tp := 1; Metrics.fp := 0;
                Metrics.tp_cwes := ["CWE-89"] |})]
           [("vulnpy", [[("cwe", "CWE-89")]]);
            ("webgoat", [[("cwe", " CWE-89 ")]; [("cwe", "CWE-79")]])]
           [Metrics.mkCoverage "bandit" "CWE-79" 0 1%Z 1 (0 # 10);
            Metrics.mkCoverage "bandit" "CWE-89" 1 1%Z 2 (500 # 10)]).
  - constructor; [intros H; exact H | constructor].
  - reflexivity.
  - right. left. reflexivity.
Defined.

(** ** calculate-fmeasure.py: the scorecard *)

Lemma sum_nat_list_sum (l : list nat) : Metrics.sum_nat l = list_sum l.
Proof.
  unfold Metrics.sum_nat.
  assert (G : forall a, fold_left Nat.add l a = a + list_sum l).
  { induction l as [|x l IH]; intros a; simpl; [lia|]. rewrite IH. lia. }
  apply G.
Qed.

Local Open Scope Q_scope.

Lemma Qnat_S (n : nat) : Metrics.Qnat (S n) == Metrics.Qnat n + 1.
Proof.
  unfold Metrics.Qnat. rewrite Nat2Z.inj_succ, <- Z.add_1_r, inject_Z_plus.
  reflexivity.
Qed.

Lemma sum_Q_bounds (l : list Q) :
  (forall x, In x l -> 0 <= x <= 1) ->
  0 <= Metrics.sum_Q l <= Metrics.Qnat (List.length l).
Proof.
  unfold Metrics.sum_Q. intros H.
  assert (G : forall a,
             a <= fold_left Qplus l a
             /\ fold_left Qplus l a <= a + Metrics.Qnat (List.length l)).
  { induction l as [|x l IH]; intros a; cbn [fold_left List.length].
    - change (Metrics.Qnat 0) with 0. lra.
    - destruct (H x (or_introl eq_refl)) as [X0 X1].
      destruct (IH (fun y Hy => H y (or_intror Hy)) (a + x)) as [I0 I1].
      pose proof (Qnat_S (List.length l)) as S.
      split; [lra|]. rewrite S. lra. }
  destruct (G 0) as [G0 G1]. split; [exact G0|]. lra.
Qed.

Lemma average_value (l : list Q) :
  exists q,
    Metrics.average l (List.length l) = Ok q
    /\ ((forall x, In x l -> 0 <= x <= 1) -> 0 <= q <= 1).
Proof.
  unfold Metrics.average. destruct (0 <? List.length l)%nat eqn:E.
  - rewrite (truediv_nat _ _ E). simpl. eexists. split; [reflexivity|].
    intros H. apply round3_unit. apply Nat.ltb_lt in E.
    pose proof (Qnat_pos _ E) as P. destruct (sum_Q_bounds l H) as [S0 S1].
    split.
    + apply Qle_shift_div_l; [exact P|]. now rewrite Qmult_0_l.
    + apply Qle_shift_div_r; [exact P|]. now rewrite Qmult_1_l.
  - exists 0. split; [reflexivity|]. intros _. lra.
Qed.

Local Close Scope Q_scope.

Lemma set_add_In (x y : string) (s : list string) :
  In y (Metrics.set_add x s) <-> y = x \/ In y s.
Proof.
  unfold Metrics.set_add. destruct (existsb (String.eqb x) s) eqn:E.
  - split; [now right|]. intros [-> | H]; [|exact H].
    apply existsb_exists in E as (z & Hz & Ez).
    apply String.eqb_eq in Ez. now subst.
  - rewrite in_app_iff. simpl. split.
    + intros [H | [<- | []]]; [now right | now left].
    + intros [-> | H]; [right; now left | now left].
Qed.

Lemma set_add_NoDup (x : string) (s : list string) :
  NoDup s -> NoDup (Metrics.set_add x s).
Proof.
  intros N. unfold Metrics.set_add.
  destruct (existsb (String.eqb x) s) eqn:E; [exact N|].
  apply NoDup_app; [exact N | repeat constructor; intros [] |].
  intros a Ha [Hx | []]. subst a.
  assert (existsb (String.eqb x) s = true); [|congruence].
  apply existsb_exists. exists x. split; [exact Ha | apply String.eqb_refl].
Qed.

Lemma set_add_all (l s : list string) :
  NoDup s ->
  NoDup (fold_left (fun s x => Metrics.set_add x s) l s)
  /\ forall y, In y (fold_left (fun s x => Metrics.set_add x s) l s)
               <-> In y l \/ In y s.
Proof.
  revert s. induction l as [|x l IH]; intros s N; simpl.
  - split; [exact N | intros y; tauto].
  - destruct (IH _ (set_add_NoDup x s N)) as [I1 I2]. split; [exact I1|].
    intros y. rewrite I2, set_add_In. intuition auto.
Qed.

(** The set stored for a tool: its found CWEs, added one by one. *)
Lemma tool_cwes_lookup (cwe_coverage : list Metrics.coverage_row)
  (tool : string) :
  forall d,
    match Py.get String.eqb
            (fold_left
               (fun d row =>
                  if 0 <? Metrics.found_count row
                  then Py.update String.eqb d (Metrics.cov_tool row) []
                         (Metrics.set_add (Metrics.cov_cwe row))
                  else d) cwe_coverage d) tool with
    | Some s => s
    | None => []
    end
    = fold_left (fun s x => Metrics.set_add x s)
        (Spec.found_cwes cwe_coverage tool)
        match Py.get String.eqb d tool with Some s => s | None => [] end.
Proof.
  induction cwe_coverage as [|c cov IH]; intros d; [reflexivity|].
  cbn [fold_left]. rewrite IH. unfold Spec.found_cwes. cbn [filter].
  destruct (0 <? Metrics.found_count c) eqn:E.
  - destruct (String.eqb tool (Metrics.cov_tool c)) eqn:Et; cbn [andb map fold_left].
    + apply String.eqb_eq in Et. subst tool.
      rewrite (get_update_same String.eqb String.eqb_eq).
      destruct (Py.get String.eqb d (Metrics.cov_tool c)); reflexivity.
    + rewrite (get_update_other String.eqb String.eqb_eq); [reflexivity|].
      intros ->. rewrite String.eqb_refl in Et. discriminate Et.
  - rewrite andb_false_r. reflexivity.
Qed.

Lemma tool_cwes_count (cwe_coverage : list Metrics.coverage_row)
  (tool : string) :
  List.length
    match Py.get String.eqb (Metrics.tool_cwes cwe_coverage) tool with
    | Some s => s
    | None => []
    end
  = List.length (nodup string_dec (Spec.found_cwes cwe_coverage tool)).
Proof.
  unfold Metrics.tool_cwes. rewrite tool_cwes_lookup. simpl.
  destruct (set_add_all (Spec.found_cwes cwe_coverage tool) [] (NoDup_nil _))
    as [N I].
  apply Permutation_length, NoDup_Permutation;
    [exact N | apply NoDup_nodup |].
  intros y. rewrite I, nodup_In. simpl. tauto.
Qed.

(** What one row of the scorecard holds. *)
Lemma scorecard_one_value (cwes : list (string * list string))
  (tool : string) (rows : list Metrics.fmeasure_row) :
  exists r,
    Metrics.scorecard_one cwes tool rows = Ok r
    /\ Metrics.sc_tool r = tool
    /\ Metrics.targets_scanned r = List.length rows
    /\ Metrics.total_tp r = list_sum (map Metrics.fm_tp rows)
    /\ Metrics.total_fp r = list_sum (map Metrics.fm_fp rows)
    /\ Metrics.total_fn r = list_sum (map Metrics.fm_fn rows)
    /\ Metrics.unique_cwes_found r
       = List.length match Py.get String.eqb cwes tool with
                     | Some s => s
                     | None => []
                     end
    /\ ((forall x, In x rows ->
           Spec.unit_scores (Metrics.precision (Metrics.fm_scores x))
             (Metrics.recall (Metrics.fm_scores x))
             (Metrics.f1 (Metrics.fm_scores x))) ->
        Spec.unit_scores (Metrics.avg_precision r) (Metrics.avg_recall r)
          (Metrics.avg_f1 r)).
Proof.
  unfold Metrics.scorecard_one. cbv zeta.
  destruct (average_value (map (fun r => Metrics.precision (Metrics.fm_scores r)) rows))
    as (p & Ep & Hp).
  destruct (average_value (map (fun r => Metrics.recall (Metrics.fm_scores r)) rows))
    as (q & Eq & Hq).
  destruct (average_value (map (fun r => Metrics.f1 (Metrics.fm_scores r)) rows))
    as (f & Ef & Hf).
  rewrite length_map in Ep, Eq, Ef. rewrite Ep, Eq, Ef. simpl.
  eexists. split; [reflexivity|]. simpl.
  rewrite !sum_nat_list_sum. repeat split; try reflexivity.
  - apply Hp. intros x Hx. apply in_map_iff in Hx as (y & <- & Hy).
    apply (H y Hy).
  - apply Hp. intros x Hx. apply in_map_iff in Hx as (y & <- & Hy).
    apply (H y Hy).
  - apply Hq. intros x Hx. apply in_map_iff in Hx as (y & <- & Hy).
    apply (H y Hy).
  - apply Hq. intros x Hx. apply in_map_iff in Hx as (y & <- & Hy).
    apply (H y Hy).
  - apply Hf. intros x Hx. apply in_map_iff in Hx as (y & <- & Hy).
    apply (H y Hy).
  - apply Hf. intros x Hx. apply in_map_iff in Hx as (y & <- & Hy).
    apply (H y Hy).
Qed.

Lemma calculate_scorecard_value (fmeasure_results : list Metrics.fmeasure_row)
  (cwe_coverage : list Metrics.coverage_row) :
  exists results,
    Metrics.calculate_scorecard fmeasure_results cwe_coverage
    = Ok (sorted Metrics.scorecard_leb results)
    /\ Forall2
         (fun kv r =>
            Metrics.scorecard_one (Metrics.tool_cwes cwe_coverage)
              (fst kv) (snd kv) = Ok r)
         (Spec.group_by String.eqb Metrics.fm_tool fmeasure_results [])
         results.
Proof.
  unfold Metrics.calculate_scorecard. cbv zeta.
  destruct (concat_results_singletons
              (fun kv => Metrics.scorecard_one (Metrics.tool_cwes cwe_coverage)
                           (fst kv) (snd kv))
              (fun kv r =>
                 Metrics.scorecard_one (Metrics.tool_cwes cwe_coverage)
                   (fst kv) (snd kv) = Ok r)
              (Metrics.tool_data fmeasure_results)) as (rs & E & F).
  { intros [tool rows] _.
    destruct (scorecard_one_value (Metrics.tool_cwes cwe_coverage) tool rows)
      as (r & Er & _). exists r. split; exact Er. }
  rewrite (map_ext
             (fun '(tool, rows) =>
                r <- Metrics.scorecard_one (Metrics.tool_cwes cwe_coverage)
                       tool rows ;; Ok [r])
             (fun kv =>
                r <- Metrics.scorecard_one (Metrics.tool_cwes cwe_coverage)
                       (fst kv) (snd kv) ;; Ok [r]))
    by (intros [tool rows]; reflexivity).
  rewrite E. simpl. exists rs. split; [reflexivity | exact F].
Qed.

(** X24.  [calculate_scorecard] never raises and returns exactly one row
    per tool of the F-measure rows.  The row of a tool counts the
    F-measure rows of that tool as its targets scanned (at least one, so
    the guard [n > 0] always holds), sums their TP, FP and FN, and counts
    the distinct CWEs of the tool's coverage rows with a positive found
    count. *)
Theorem calculate_scorecard_rows :
  forall (fmeasure_results : list Metrics.fmeasure_row)
         (cwe_coverage : list Metrics.coverage_row),
    exists rows,
      Metrics.calculate_scorecard fmeasure_results cwe_coverage = Ok rows
      /\ NoDup (map Metrics.sc_tool rows)
      /\ (forall tool, In tool (map Metrics.sc_tool rows)
                       <-> In tool (map Metrics.fm_tool fmeasure_results))
      /\ (forall r, In r rows ->
            let mine := Spec.rows_of_tool fmeasure_results (Metrics.sc_tool r) in
            Metrics.targets_scanned r = List.length mine
            /\ 1 <= Metrics.targets_scanned r
            /\ Metrics.total_tp r = list_sum (map Metrics.fm_tp mine)
            /\ Metrics.total_fp r = list_sum (map Metrics.fm_fp mine)
            /\ Metrics.total_fn r = list_sum (map Metrics.fm_fn mine)
            /\ Metrics.unique_cwes_found r
               = List.length
                   (nodup string_dec
                      (Spec.found_cwes cwe_coverage (Metrics.sc_tool r)))).
Proof.
  intros fm cov.
  destruct (calculate_scorecard_value fm cov) as (rs & E & F).
  destruct (group_by_spec String.eqb Metrics.fm_tool String.eqb_eq fm)
    as [N S]. cbv zeta in N, S.
  exists (sorted Metrics.scorecard_leb rs). split; [exact E|].
  assert (M : map Metrics.sc_tool rs
              = map fst (Spec.group_by String.eqb Metrics.fm_tool fm [])).
  { eapply Forall2_map_eq; [|exact F].
    intros kv r H. cbv beta in H.
    destruct (scorecard_one_value (Metrics.tool_cwes cov) (fst kv) (snd kv))
      as (r' & E' & T & _).
    rewrite H in E'. inversion E'; subst r'. exact T. }
  split; [|split].
  - apply (Permutation_NoDup
             (Permutation_map _ (Permutation_sym (sorted_Permutation _ rs)))).
    rewrite M. exact N.
  - intros tool. split.
    + intros H. apply in_map_iff in H as (r & <- & Hr).
      apply sorted_In in Hr. apply (in_map Metrics.sc_tool) in Hr.
      rewrite M in Hr. apply in_map_iff in Hr as ([k l] & Ek & Hin).
      simpl in Ek. rewrite <- Ek.
      destruct (S k l Hin) as [El Hne].
      destruct l as [|x l']; [contradiction|].
      assert (Hx : In x (filter (fun y => String.eqb k (Metrics.fm_tool y)) fm))
        by (rewrite <- El; now left).
      apply filter_In in Hx as [Hx Ex]. apply String.eqb_eq in Ex.
      rewrite Ex. now apply in_map.
    + intros H. apply in_map_iff in H as (x & <- & Hx).
      pose proof (group_by_lookup String.eqb Metrics.fm_tool String.eqb_eq
                    fm [] (Metrics.fm_tool x)) as L. simpl in L.
      destruct (Py.get String.eqb
                  (Spec.group_by String.eqb Metrics.fm_tool fm [])
                  (Metrics.fm_tool x)) as [l|] eqn:G.
      * apply (get_Some_In String.eqb) in G;
          [|intros a b; apply String.eqb_eq].
        apply (in_map fst) in G. rewrite <- M in G. simpl in G.
        apply in_map_iff in G as (r & Er & Hr).
        apply in_map_iff. exists r. split; [exact Er | now apply sorted_In].
      * assert (Hin : In x (filter
                              (fun y => String.eqb (Metrics.fm_tool x)
                                          (Metrics.fm_tool y)) fm))
          by (apply filter_In; split; [exact Hx | apply String.eqb_refl]).
        rewrite <- L in Hin. contradiction.
  - intros r Hr. apply sorted_In in Hr.
    destruct (Forall2_In_r _ _ _ _ F Hr) as ([k l] & Hin & Hone).
    cbn [fst snd] in Hone.
    destruct (scorecard_one_value (Metrics.tool_cwes cov) k l)
      as (r' & E' & Ht & Hn & Htp & Hfp & Hfn & Hu & _).
    rewrite Hone in E'. inversion E'; subst r'. clear E'.
    destruct (S k l Hin) as [El Hne].
    cbv zeta. unfold Spec.rows_of_tool. rewrite Ht, <- El.
    rewrite tool_cwes_count in Hu.
    repeat split; auto.
    rewrite Hn. destruct l; [contradiction | simpl; lia].
Qed.





(** ** triage-consensus.py: order and ids of the triage rows *)

Lemma key3_leb_total (a b : key3) :
  key3_leb a b = true \/ key3_leb b a = true.
Proof.
  destruct a as [[t1 c1] i1], b as [[t2 c2] i2]. unfold key3_leb.
  rewrite (String.compare_antisym t2 t1).
  destruct (String.compare t1 t2); simpl; [|now left | now right].
  rewrite (String.compare_antisym c2 c1).
  destruct (String.compare c1 c2); simpl; [|now left | now right].
  destruct (Nat.leb_spec i1 i2); [now left | right; apply Nat.leb_le; lia].
Qed.

Lemma Sorted_adjacent {A : Type} (R : A -> A -> Prop) (l : list A) :
  Sorted R l <->
  forall i a b, nth_error l i = Some a -> nth_error l (S i) = Some b -> R a b.
Proof.
  split.
  - induction 1 as [|x l S IH Hd]; intros i a b Ha Hb.
    + destruct i; discriminate.
    + destruct i as [|i]; simpl in Ha, Hb.
      * inversion Ha; subst. destruct Hd as [|y l' Hxy]; [discriminate|].
        simpl in Hb. inversion Hb; subst. exact Hxy.
      * exact (IH i a b Ha Hb).
  - induction l as [|x l IH]; intros H; constructor.
    + apply IH. intros i a b Ha Hb. exact (H (S i) a b Ha Hb).
    + destruct l as [|y l']; constructor.
      exact (H 0 x y eq_refl eq_refl).
Qed.

Lemma filter_firstn_grows {A : Type} (p : A -> bool) (l : list A)
  (i j : nat) (a : A) :
  i < j -> nth_error l i = Some a -> p a = true ->
  List.length (filter p (firstn i l)) < List.length (filter p (firstn j l)).
Proof.
  intros Hij Hi Hp.
  destruct (nth_error_split l i Hi) as (l1 & l2 & -> & L).
  rewrite firstn_app, L, Nat.sub_diag. simpl. rewrite app_nil_r.
  rewrite (firstn_all2 (n := i)) by lia.
  rewrite firstn_app, L. rewrite (firstn_all2 (n := j)) by lia.
  destruct (j - i) as [|k] eqn:D; [lia|]. simpl.
  rewrite filter_app, length_app. simpl. rewrite Hp. simpl. lia.
Qed.

Ltac same_number :=
  match goal with
  | |- ?l = ?r =>
      match l with
      | context [format_03d ?a] =>
          match r with
          | context [format_03d ?b] => replace a with b; [reflexivity|]
          end
      end
  end.

Lemma triage_one_id (target cwe : string) (cluster : list finding)
  (gt_index : gt_index_t) (seq : nat) :
  finding_group_id (triage_one target cwe cluster gt_index seq)
  = ("GRP-" ++ target ++ "-" ++ cwe ++ "-" ++ format_03d seq)%string.
Proof.
  unfold triage_one.
  destruct (2 <=? List.length (sorted_set (map tool cluster)));
    [reflexivity|].
  destruct ((List.length (sorted_set (map tool cluster)) =? 1)
            && check_ground_truth target cwe gt_index); reflexivity.
Qed.

(** The rows the loop appends: one per key, at the key's position, with
    the running number of the key's target. *)
Lemma triage_loop_positions (groups : groups_t) (gt_index : gt_index_t)
  (keys : list key3) :
  forall (counters : list (string * nat)) (results rows : list triage_row),
    triage_loop groups gt_index keys counters results = Ok rows ->
    exists rows',
      rows = results ++ rows'
      /\ map (fun r => (row_target r, row_cwe r)) rows' = map fst keys
      /\ forall i r, nth_error rows' i = Some r ->
           finding_group_id r
           = ("GRP-" ++ row_target r ++ "-" ++ row_cwe r ++ "-"
              ++ format_03d
                   (match Py.get String.eqb counters (row_target r) with
                    | Some n => n
                    | None => 0
                    end
                    + S (List.length
                           (Spec.keys_of_target (firstn i keys) (row_target r)))))%string.
Proof.
  induction keys as [|[[t c] idx] rest IH]; intros counters results rows H.
  - simpl in H. inversion H; subst. exists []. rewrite app_nil_r.
    repeat split. intros [|i] r; discriminate.
  - cbn [triage_loop] in H.
    destruct (Py.get key3_eqb groups (t, c, idx)) as [cluster|];
      [|discriminate].
    apply IH in H as (rows' & -> & M & P).
    destruct (triage_one_fields t c cluster gt_index
                match Py.get String.eqb (Py.update String.eqb counters t 0 S) t with
                | Some n => n
                | None => 0
                end) as (Ft & Fc & _). cbv zeta in Ft, Fc.
    eexists (_ :: rows'). split; [now rewrite <- app_assoc|]. split.
    + cbn [map fst]. now rewrite Ft, Fc, M.
    + intros [|i] r Hr; cbn [nth_error] in Hr.
      * inversion Hr; subst r. rewrite triage_one_id, Ft, Fc.
        rewrite (get_update_same String.eqb String.eqb_eq).
        cbn [firstn Spec.keys_of_target filter List.length].
        same_number.
        destruct (Py.get String.eqb counters t); lia.
      * rewrite (P i r Hr). same_number.
        cbn [firstn]. unfold Spec.keys_of_target. cbn [filter fst].
        destruct (String.eqb (row_target r) t) eqn:E.
        -- apply String.eqb_eq in E. rewrite E.
           rewrite (get_update_same String.eqb String.eqb_eq).
           destruct (Py.get String.eqb counters t); simpl; lia.
        -- rewrite (get_update_other String.eqb String.eqb_eq);
             [reflexivity|].
           intros K. rewrite K, String.eqb_refl in E. discriminate E.
Qed.

Lemma uint_digits (d : Decimal.uint) :
  all_chars isdigit_char (NilEmpty.string_of_uint d) = true.
Proof. induction d; simpl; auto. Qed.

Lemma format_03d_digits (n : nat) :
  all_chars isdigit_char (format_03d n) = true.
Proof.
  assert (D : all_chars isdigit_char (str_of_nat n) = true).
  { unfold str_of_nat, NilZero.string_of_uint.
    destruct (Nat.to_uint n) eqn:E; try (rewrite <- E; apply uint_digits);
      reflexivity. }
  unfold format_03d. cbv zeta.
  destruct (String.length (str_of_nat n)) as [|[|[|k]]]; simpl; exact D.
Qed.

Lemma dash_split_unique (a b x y : string) :
  all_chars isdigit_char x = true -> all_chars isdigit_char y = true ->
  (a ++ "-" ++ x)%string = (b ++ "-" ++ y)%string -> a = b /\ x = y.
Proof.
  intros Dx Dy. revert b.
  induction a as [|c a IH]; intros [|c' b] H; simpl in H.
  - inversion H. auto.
  - inversion H as [[Hc Hx]]. rewrite Hx, all_chars_app in Dx.
    simpl in Dx. rewrite andb_false_r in Dx. discriminate Dx.
  - inversion H as [[Hc Hy]]. rewrite <- Hy, all_chars_app in Dy.
    simpl in Dy. rewrite andb_false_r in Dy. discriminate Dy.
  - inversion H as [[Hc Hr]]. destruct (IH b Hr) as [-> ->]. auto.
Qed.

Lemma key3_leb_rows (a b : key3) (ra rb : triage_row) :
  (row_target ra, row_cwe ra) = fst a ->
  (row_target rb, row_cwe rb) = fst b ->
  key3_leb a b = true -> Spec.row_leb ra rb = true.
Proof.
  destruct a as [[t1 c1] i1], b as [[t2 c2] i2]. simpl.
  intros Ea Eb. injection Ea as A1 A2. injection Eb as B1 B2.
  unfold Spec.row_leb, key3_leb. rewrite A1, A2, B1, B2.
  destruct (String.compare t1 t2); auto.
  destruct (String.compare c1 c2); auto.
Qed.

(** X26.  The rows [triage_groups] returns are ordered by target, then
    CWE.  The id of a row is [GRP-<target>-<cwe>-<seq>] where [seq], on at
    least three digits, is one plus the number of earlier rows of the same
    target: the numbering restarts with each target and runs across its
    CWEs.  Two rows of the same target never share an id. *)
Theorem triage_groups_ids :
  forall (groups : groups_t) (gt_index : gt_index_t)
         (rows : list triage_row),
    triage_groups groups gt_index = Ok rows ->
    Sorted (fun a b => Spec.row_leb a b = true) rows
    /\ (forall i r, nth_error rows i = Some r ->
          finding_group_id r
          = ("GRP-" ++ row_target r ++ "-" ++ row_cwe r ++ "-"
             ++ format_03d
                  (S (List.length
                        (Spec.rows_of_target (firstn i rows) (row_target r)))))%string)
    /\ (forall i j r r',
          i < j -> nth_error rows i = Some r -> nth_error rows j = Some r' ->
          row_target r = row_target r' ->
          finding_group_id r <> finding_group_id r').
Proof.
  intros groups gt_index rows H. unfold triage_groups in H.
  apply triage_loop_positions in H as (rows' & -> & M & P).
  cbn [app].
  pose proof (sorted_Sorted key3_leb key3_leb_total (map fst groups)) as SK.
  generalize dependent (sorted key3_leb (map fst groups)). intros keys M P SK.
  assert (Id : forall i r, nth_error rows' i = Some r ->
            finding_group_id r
            = ("GRP-" ++ row_target r ++ "-" ++ row_cwe r ++ "-"
               ++ format_03d
                    (S (List.length
                          (Spec.rows_of_target (firstn i rows') (row_target r)))))%string).
  { intros i r Hr. rewrite (P i r Hr). cbn [Py.get Nat.add]. same_number.
    f_equal. unfold Spec.rows_of_target, Spec.keys_of_target.
    rewrite <- (filter_map_length (String.eqb (row_target r))
                  (fun k : key3 => fst (fst k))).
    rewrite <- (filter_map_length (String.eqb (row_target r)) row_target).
    rewrite <- !firstn_map.
    assert (T : map row_target rows' = map (fun k : key3 => fst (fst k)) keys).
    { apply (f_equal (map fst)) in M. rewrite !map_map in M. exact M. }
    now rewrite T. }
  split; [|split].
  - apply Sorted_adjacent. intros i a b Ha Hb.
    assert (Ka : nth_error (map fst keys) i = Some (row_target a, row_cwe a)).
    { rewrite <- M, nth_error_map, Ha. reflexivity. }
    assert (Kb : nth_error (map fst keys) (S i) = Some (row_target b, row_cwe b)).
    { rewrite <- M, nth_error_map, Hb. reflexivity. }
    rewrite nth_error_map in Ka. rewrite nth_error_map in Kb.
    match type of Ka with
    | option_map _ ?x = _ => destruct x as [ka|] eqn:Na; [|discriminate Ka]
    end.
    match type of Kb with
    | option_map _ ?x = _ => destruct x as [kb|] eqn:Nb; [|discriminate Kb]
    end.
    cbn [option_map] in Ka, Kb.
    injection Ka as Ea. injection Kb as Eb.
    apply (key3_leb_rows ka kb); auto.
    apply (proj1 (Sorted_adjacent _ _) SK i ka kb Na Nb).
  - exact Id.
  - intros i j r r' Hij Hi Hj Ht E.
    rewrite (Id i r Hi), (Id j r' Hj), <- Ht in E.
    apply string_app_inv_head, string_app_inv_head in E.
    change ("-" ++ row_cwe r ++ "-" ++ format_03d ?n)%string
      with (String "-" (row_cwe r ++ "-" ++ format_03d n))%string in E.
    inversion E as [E'].
    apply dash_split_unique in E' as [_ E'];
      try apply format_03d_digits.
    apply format_03d_inj in E'.
    pose proof (filter_firstn_grows (fun x => String.eqb (row_target r) (row_target x))
                  rows' i j r Hij Hi (String.eqb_refl _)) as G.
    unfold Spec.rows_of_target in E'. lia.
Qed.

Lemma triage_groups_ids_witness :
  finding_group_id
    (triage_one "app" "CWE-89"
       [Spec.finding_at "semgrep" "app" "CWE-89" "b.py:3"] [] 2)
  <> finding_group_id
       (triage_one "app" "CWE-79"
          [Spec.finding_at "bandit" "app" "CWE-79" "a.py:1"] [] 1).
Proof.
  intros E.
  destruct (triage_groups_ids
              [(("app", "CWE-89", 0),
                [Spec.finding_at "semgrep" "app" "CWE-89" "b.py:3"]);
               (("app", "CWE-79", 0),
                [Spec.finding_at "bandit" "app" "CWE-79" "a.py:1"])]
              []
              [triage_one "app" "CWE-79"
                 [Spec.finding_at "bandit" "app" "CWE-79" "a.py:1"] [] 1;
               triage_one "app" "CWE-89"
                 [Spec.finding_at "semgrep" "app" "CWE-89" "b.py:3"] [] 2]
              eq_refl) as (_ & _ & D).
  apply (D 0 1 _ _ (Nat.lt_0_succ 0) eq_refl eq_refl eq_refl). now symmetry.
Defined.

(** ** triage-consensus.py: the files written *)

Lemma by_target_group_by (results : list triage_row) :
  by_target results = Spec.group_by String.eqb row_target results [].
Proof. reflexivity. Qed.

Lemma by_target_lookup (results : list triage_row) (target : string) :
  match Py.get String.eqb (by_target results) target with
  | Some rows => rows
  | None => []
  end = Spec.rows_of_target results target.
Proof.
  rewrite by_target_group_by.
  exact (group_by_lookup String.eqb row_target String.eqb_eq results [] target).
Qed.

Lemma by_target_keys (results : list triage_row) :
  NoDup (map fst (by_target results))
  /\ forall target, In target (map fst (by_target results))
                    <-> In target (map row_target results).
Proof.
  destruct (group_by_spec String.eqb row_target String.eqb_eq results)
    as [N S]. cbv zeta in N, S. rewrite by_target_group_by.
  split; [exact N|]. intros target. split.
  - intros H. apply in_map_iff in H as ([k l] & E & Hin). simpl in E. subst k.
    destruct (S target l Hin) as [El Hne].
    destruct l as [|r l']; [contradiction|].
    assert (Hr : In r (filter (fun x => String.eqb target (row_target x)) results))
      by (rewrite <- El; now left).
    apply filter_In in Hr as [Hr E]. apply String.eqb_eq in E.
    rewrite E. now apply in_map.
  - intros H. apply in_map_iff in H as (r & <- & Hr).
    pose proof (by_target_lookup results (row_target r)) as L.
    rewrite by_target_group_by in L.
    destruct (Py.get String.eqb
                (Spec.group_by String.eqb row_target results [])
                (row_target r)) as [l|] eqn:G.
    + apply (get_Some_In String.eqb) in G;
        [|intros a b; apply String.eqb_eq].
      apply (in_map fst) in G. exact G.
    + assert (Hin : In r (Spec.rows_of_target results (row_target r)))
        by (apply filter_In; split; [exact Hr | apply String.eqb_refl]).
      rewrite <- L in Hin. contradiction.
Qed.

Lemma string_length_app (a b : string) :
  String.length (a ++ b) = String.length a + String.length b.
Proof. induction a as [|c a IH]; simpl; [reflexivity | now rewrite IH]. Qed.






Lemma get_app_fresh {V : Type} (d : list (string * V)) (k k' : string) (v : V) :
  k' <> k -> Py.get String.eqb d k' = None ->
  Py.get String.eqb (d ++ [(k, v)]) k' = None.
Proof.
  intros N. induction d as [|[k0 v0] d IH]; simpl.
  - intros _. destruct (String.eqb k' k) eqn:E; [|reflexivity].
    apply String.eqb_eq in E. contradiction.
  - destruct (String.eqb k' k0); [discriminate | exact IH].
Qed.

Lemma fold_set_fresh {V : Type} (g : string -> V) (keys : list string) :
  NoDup keys ->
  forall acc,
    (forall k, In k keys -> Py.get String.eqb acc k = None) ->
    fold_left (fun d k => Py.set String.eqb d k (g k)) keys acc
    = acc ++ map (fun k => (k, g k)) keys.
Proof.
  induction 1 as [|k keys Hk N IH]; intros acc H; simpl.
  - now rewrite app_nil_r.
  - rewrite (set_get_None String.eqb acc k (g k) (H k (or_introl eq_refl))).
    rewrite IH.
    + now rewrite <- app_assoc.
    + intros k' Hk'. apply get_app_fresh.
      * intros ->. contradiction.
      * apply H. now right.
Qed.

Lemma triage_stats_value (results : list triage_row) :
  triage_stats results
  = map (fun target =>
           (target,
            (count_verdict "TP" (Spec.rows_of_target results target),
             count_verdict "pending" (Spec.rows_of_target results target))))
      (sorted String.leb (map fst (by_target results))).
Proof.
  unfold triage_stats. cbv zeta.
  destruct (by_target_keys results) as [N _].
  rewrite (fold_set_fresh
             (fun target =>
                (count_verdict "TP"
                   match Py.get String.eqb (by_target results) target with
                   | Some rows => rows
                   | None => []
                   end,
                 count_verdict "pending"
                   match Py.get String.eqb (by_target results) target with
                   | Some rows => rows
                   | None => []
                   end))
             _ (sorted_NoDup String.leb _ N) []) by reflexivity.
  cbn [app]. apply map_ext. intros t. now rewrite by_target_lookup.
Qed.

Lemma triage_one_verdict (target cwe : string) (cluster : list finding)
  (gt_index : gt_index_t) (seq : nat) :
  verdict (triage_one target cwe cluster gt_index seq) = "TP"
  \/ verdict (triage_one target cwe cluster gt_index seq) = "pending".
Proof.
  unfold triage_one.
  destruct (2 <=? List.length (sorted_set (map tool cluster)));
    [now left|].
  destruct ((List.length (sorted_set (map tool cluster)) =? 1)
            && check_ground_truth target cwe gt_index);
    [now left | now right].
Qed.

Lemma triage_loop_verdicts (groups : groups_t) (gt_index : gt_index_t)
  (keys : list key3) :
  forall (counters : list (string * nat)) (results rows : list triage_row),
    triage_loop groups gt_index keys counters results = Ok rows ->
    (forall r, In r results -> verdict r = "TP" \/ verdict r = "pending") ->
    forall r, In r rows -> verdict r = "TP" \/ verdict r = "pending".
Proof.
  induction keys as [|[[t c] idx] rest IH]; intros counters results rows H V.
  - simpl in H. inversion H; subst. exact V.
  - cbn [triage_loop] in H.
    destruct (Py.get key3_eqb groups (t, c, idx)) as [cluster|];
      [|discriminate].
    apply (IH _ _ _ H). intros r Hr. apply in_app_iff in Hr as [Hr | [<- | []]].
    + now apply V.
    + apply triage_one_verdict.
Qed.

Lemma count_verdicts (rows : list triage_row) :
  (forall r, In r rows -> verdict r = "TP" \/ verdict r = "pending") ->
  count_verdict "TP" rows + count_verdict "pending" rows = List.length rows.
Proof.
  unfold count_verdict. induction rows as [|r rows IH]; intros V;
    [reflexivity|].
  specialize (IH (fun x Hx => V x (or_intror Hx))).
  cbn [filter List.length].
  destruct (V r (or_introl eq_refl)) as [E | E]; rewrite E; simpl; lia.
Qed.

(** X28.  For the rows [triage_groups] returns, the statistics
    [write_triage_files] computes have one entry per target with a row, and
    in each entry the [TP] and [pending] counts add up to the number of
    rows of the target, which is at least one: every row is counted
    exactly once. *)
Theorem triage_stats_account :
  forall (groups : groups_t) (gt_index : gt_index_t)
         (results : list triage_row),
    triage_groups groups gt_index = Ok results ->
    let stats := triage_stats results in
    NoDup (map fst stats)
    /\ (forall target, In target (map fst stats)
                       <-> In target (map row_target results))
    /\ (forall target tp pending,
          In (target, (tp, pending)) stats ->
          tp + pending = List.length (Spec.rows_of_target results target)
          /\ 1 <= tp + pending).
Proof.
  intros groups gt_index results H. cbv zeta. rewrite triage_stats_value.
  destruct (by_target_keys results) as [N K].
  assert (V : forall r, In r results -> verdict r = "TP" \/ verdict r = "pending").
  { apply (triage_loop_verdicts _ _ _ _ _ _ H). intros r []. }
  split; [|split].
  - rewrite map_map. cbn [fst]. rewrite map_id.
    apply sorted_NoDup, N.
  - intros target. rewrite map_map. cbn [fst]. rewrite map_id.
    rewrite sorted_In. apply K.
  - intros target tp pending Hin.
    apply in_map_iff in Hin as (t & E & Ht). inversion E; subst. clear E.
    apply sorted_In, K in Ht.
    assert (C : count_verdict "TP" (Spec.rows_of_target results target)
                + count_verdict "pending" (Spec.rows_of_target results target)
                = List.length (Spec.rows_of_target results target)).
    { apply count_verdicts. intros r Hr. apply V.
      apply filter_In in Hr. tauto. }
    split; [exact C|]. rewrite C.
    apply in_map_iff in Ht as (r & <- & Hr).
    assert (Hin : In r (Spec.rows_of_target results (row_target r)))
      by (apply filter_In; split; [exact Hr | apply String.eqb_refl]).
    destruct (Spec.rows_of_target results (row_target r));
      [contradiction | simpl; lia].
Qed.

Lemma triage_stats_account_witness :
  1 + 1
  = List.length
      (Spec.rows_of_target
         [triage_one "app" "CWE-79"
            [Spec.finding_at "bandit" "app" "CWE-79" "a.py:1"] [] 1;
          triage_one "app" "CWE-89"
            [Spec.finding_at "semgrep" "app" "CWE-89" "b.py:3";
             Spec.finding_at "bandit" "app" "CWE-89" "b.py:9"] [] 2]
         "app")
  /\ 1 <= 1 + 1.
Proof.
  destruct (triage_stats_account
           [(("app", "CWE-89", 0),
             [Spec.finding_at "semgrep" "app" "CWE-89" "b.py:3";
              Spec.finding_at "bandit" "app" "CWE-89" "b.py:9"]);
            (("app", "CWE-79", 0),
             [Spec.finding_at "bandit" "app" "CWE-79" "a.py:1"])]
           []
           [triage_one "app" "CWE-79"
              [Spec.finding_at "bandit" "app" "CWE-79" "a.py:1"] [] 1;
            triage_one "app" "CWE-89"
              [Spec.finding_at "semgrep" "app" "CWE-89" "b.py:3";
               Spec.finding_at "bandit" "app" "CWE-89" "b.py:9"] [] 2]
           eq_refl) as (_ & _ & A).
  apply (A "app" 1 1). left. reflexivity.
Defined.

(** ** calculate-fmeasure.py: loading the triage files *)

Lemma string_eqb_length (a b : string) :
  String.length a <> String.length b -> String.eqb a b = false.
Proof.
  intros N. destruct (String.eqb a b) eqn:E; [|reflexivity].
  apply String.eqb_eq in E. now subst.
Qed.

Lemma strip_suffix_spec (suffix name t : string) :
  Metrics.strip_suffix suffix name = Some t <-> name = (t ++ suffix)%string.
Proof.
  split.
  - revert t. induction name as [|c r IH]; intros t; cbn [Metrics.strip_suffix].
    + destruct (String.eqb "" suffix) eqn:E; [|discriminate].
      apply String.eqb_eq in E. intros H. inversion H; subst. reflexivity.
    + destruct (String.eqb (String c r) suffix) eqn:E.
      * apply String.eqb_eq in E. intros H. inversion H; subst. reflexivity.
      * destruct (Metrics.strip_suffix suffix r) as [t'|]; [|discriminate].
        intros H. inversion H; subst. simpl. f_equal. now apply IH.
  - intros ->. induction t as [|c t IH].
    + simpl. destruct suffix; cbn [Metrics.strip_suffix];
        now rewrite String.eqb_refl.
    + cbn [append Metrics.strip_suffix].
      rewrite string_eqb_length
        by (simpl; rewrite string_length_app; lia).
      now rewrite IH.
Qed.

Lemma strip_suffix_None (suffix name : string) :
  (forall t, name <> (t ++ suffix)%string) ->
  Metrics.strip_suffix suffix name = None.
Proof.
  intros H. destruct (Metrics.strip_suffix suffix name) as [t|] eqn:E;
    [|reflexivity].
  apply strip_suffix_spec in E. now apply H in E.
Qed.

Lemma auto_not_final (a b : string) :
  (a ++ "-auto")%string <> (b ++ "-final")%string.
Proof.
  revert a. induction b as [|c b IH]; intros a E.
  - destruct a as [|c1 [|c2 a]]; try discriminate E.
    apply (f_equal String.length) in E. simpl in E.
    rewrite string_length_app in E. simpl in E. lia.
  - destruct a as [|c1 a].
    + apply (f_equal String.length) in E. simpl in E.
      rewrite string_length_app in E. simpl in E. lia.
    + inversion E as [[Hc Hr]]. exact (IH a Hr).
Qed.

Section FileDict.

Context {V : Type} (key : string -> option string) (suffix : string).
Hypothesis key_spec :
  forall name t, key name = Some t <-> name = (t ++ suffix)%string.

Lemma files_by_target (files : list (string * V)) (target : string) :
  NoDup (map fst files) ->
  forall d,
    Py.get String.eqb
      (fold_left
         (fun d '(name, rows) =>
            match key name with
            | Some t => Py.set String.eqb d t rows
            | None => d
            end) files d) target
    = match Py.get String.eqb files (target ++ suffix)%string with
      | Some rows => Some rows
      | None => Py.get String.eqb d target
      end.
Proof.
  induction files as [|[name rows] files IH]; intros N d; [reflexivity|].
  inversion N as [|? ? Hn Hr]; subst. cbn [fold_left Py.get].
  rewrite (IH Hr).
  destruct (String.eqb (target ++ suffix)%string name) eqn:E.
  - apply String.eqb_eq in E. subst name.
    rewrite (proj2 (key_spec _ target) eq_refl).
    destruct (Py.get String.eqb files (target ++ suffix)%string) as [r|] eqn:G.
    + apply (get_Some_In String.eqb) in G;
        [|intros a b; apply String.eqb_eq].
      apply (in_map fst) in G. contradiction.
    + apply (get_set_same String.eqb String.eqb_eq).
  - destruct (Py.get String.eqb files (target ++ suffix)%string); [reflexivity|].
    destruct (key name) as [t|] eqn:K; [|reflexivity].
    apply (get_set_other String.eqb String.eqb_eq).
    intros ->. apply key_spec in K. subst name.
    rewrite String.eqb_refl in E. discriminate E.
Qed.

End FileDict.

Lemma fold_left_ext_fun {A B : Type} (f g : A -> B -> A) (l : list B) (a : A) :
  (forall x y, f x y = g x y) -> fold_left f l a = fold_left g l a.
Proof.
  intros H. revert a. induction l as [|y l IH]; intros a; simpl;
    [reflexivity|].
  now rewrite H, IH.
Qed.

(** The key under which an [-auto] file is stored. *)
Lemma auto_key_spec (name t : string) :
  match Metrics.strip_suffix "-final" name with
  | Some _ => None
  | None => Metrics.strip_suffix "-auto" name
  end = Some t <-> name = (t ++ "-auto")%string.
Proof.
  split.
  - destruct (Metrics.strip_suffix "-final" name); [discriminate|].
    apply strip_suffix_spec.
  - intros ->. rewrite strip_suffix_None by (intros b; apply auto_not_final).
    now apply strip_suffix_spec.
Qed.

Lemma chosen_NoDup {V W : Type} (c : string -> option V)
  (h : string -> V -> W) (keys : list string) :
  NoDup keys ->
  NoDup (map fst
           (flat_map
              (fun t => match c t with
                        | Some r => [(t, h t r)]
                        | None => []
                        end) keys)).
Proof.
  induction 1 as [|k keys Hk N IH]; simpl; [constructor|].
  destruct (c k); [|exact IH]. simpl. constructor; [|exact IH].
  intros H. apply in_map_iff in H as ([k' w] & E & Hin). simpl in E. subst k'.
  apply in_flat_map in Hin as (t & Ht & Hin).
  destruct (c t); [|contradiction]. destruct Hin as [E | []].
  inversion E; subst. contradiction.
Qed.

(** What [load_triage_files] returns when no two files share a name. *)
Lemma load_triage_files_spec (files : list (string * list Metrics.csv_row)) :
  NoDup (map fst files) ->
  NoDup (map fst (Metrics.load_triage_files files))
  /\ forall target rows,
       In (target, rows) (Metrics.load_triage_files files)
       <-> exists rows0,
             Spec.chosen_file files target = Some rows0
             /\ rows = Spec.tagged target rows0.
Proof.
  intros N. unfold Metrics.load_triage_files. cbv zeta.
  set (final_files := fold_left _ files []).
  set (auto_files := fold_left _ files []).
  assert (F : forall t, Py.get String.eqb final_files t
                        = Py.get String.eqb files (t ++ "-final")%string).
  { intros t. unfold final_files.
    rewrite (files_by_target (Metrics.strip_suffix "-final") "-final"
               (strip_suffix_spec "-final") files t N []).
    simpl. destruct (Py.get String.eqb files (t ++ "-final")%string); reflexivity. }
  assert (A : forall t, Py.get String.eqb auto_files t
                        = Py.get String.eqb files (t ++ "-auto")%string).
  { intros t. unfold auto_files.
    rewrite (fold_left_ext_fun _
               (fun d '(name, rows) =>
                  match match Metrics.strip_suffix "-final" name with
                        | Some _ => None
                        | None => Metrics.strip_suffix "-auto" name
                        end with
                  | Some t => Py.set String.eqb d t rows
                  | None => d
                  end)).
    - rewrite (files_by_target _ "-auto" auto_key_spec files t N []).
      simpl. destruct (Py.get String.eqb files (t ++ "-auto")%string); reflexivity.
    - intros d [name rows].
      destruct (Metrics.strip_suffix "-final" name); reflexivity. }
  assert (C : forall t,
            match Py.get String.eqb final_files t with
            | Some rows => Some rows
            | None => Py.get String.eqb auto_files t
            end = Spec.chosen_file files t).
  { intros t. unfold Spec.chosen_file. now rewrite F, A. }
  split.
  - apply (chosen_NoDup
             (fun t => match Py.get String.eqb final_files t with
                       | Some rows => Some rows
                       | None => Py.get String.eqb auto_files t
                       end)
             (fun target rows =>
                map (fun row => Py.set String.eqb row "_target" target) rows)).
    apply sorted_set_NoDup.
  - intros target rows. rewrite in_flat_map. split.
    + intros (t & Ht & Hin). rewrite C in Hin.
      destruct (Spec.chosen_file files t) as [rows0|] eqn:E; [|contradiction].
      destruct Hin as [H | []]. inversion H; subst. exists rows0. auto.
    + intros (rows0 & E & ->). exists target. rewrite C, E.
      split; [|now left].
      apply sorted_set_In, in_app_iff. unfold Spec.chosen_file in E.
      rewrite <- F, <- A in E.
      destruct (Py.get String.eqb final_files target) as [r|] eqn:G.
      * right. apply (get_Some_In String.eqb) in G;
          [|intros a b; apply String.eqb_eq].
        apply (in_map fst) in G. exact G.
      * left. apply (get_Some_In String.eqb) in E;
          [|intros a b; apply String.eqb_eq].
        apply (in_map fst) in E. exact E.
Qed.

(** X29.  When no two triage files share a name, [load_triage_files]
    returns each target once; a target is returned exactly when it has a
    [-final] or an [-auto] file, with the rows of the [-final] file when
    there is one and of the [-auto] file otherwise, each row tagged with
    its target. *)
Theorem load_triage_files_prefers_final :
  forall files : list (string * list Metrics.csv_row),
    NoDup (map fst files) ->
    NoDup (map fst (Metrics.load_triage_files files))
    /\ forall target rows,
         In (target, rows) (Metrics.load_triage_files files)
         <-> exists rows0,
               rows = Spec.tagged target rows0
               /\ (In ((target ++ "-final")%string, rows0) files
                   \/ (~ In (target ++ "-final")%string (map fst files)
                       /\ In ((target ++ "-auto")%string, rows0) files)).
Proof.
  intros files N. destruct (load_triage_files_spec files N) as [ND S].
  split; [exact ND|]. intros target rows. rewrite S. unfold Spec.chosen_file.
  split.
  - intros (rows0 & E & ->). exists rows0. split; [reflexivity|].
    destruct (Py.get String.eqb files (target ++ "-final")%string) as [r|] eqn:G.
    + inversion E; subst. left.
      apply (get_Some_In String.eqb) in G; [exact G|].
      intros a b; apply String.eqb_eq.
    + right. split.
      * intros H.
        destruct (In_get_Some String.eqb files _ String.eqb_refl H) as [v Hv].
        congruence.
      * apply (get_Some_In String.eqb) in E; [exact E|].
        intros a b; apply String.eqb_eq.
  - intros (rows0 & -> & [H | [Hn H]]); exists rows0; split; try reflexivity.
    + now rewrite (In_NoDup_get String.eqb files _ _ String.eqb_eq N H).
    + destruct (Py.get String.eqb files (target ++ "-final")%string) as [r|] eqn:G.
      * apply (get_Some_In String.eqb) in G;
          [|intros a b; apply String.eqb_eq].
        apply (in_map fst) in G. contradiction.
      * apply (In_NoDup_get String.eqb files _ _ String.eqb_eq N H).
Qed.

Lemma load_triage_files_prefers_final_witness :
  In ("juice-shop",
      Spec.tagged "juice-shop" [[("verdict", "FP"); ("tools", "zap")]])
    (Metrics.load_triage_files
       [("juice-shop-auto", [[("verdict", "TP"); ("tools", "zap")]]);
        ("juice-shop-final", [[("verdict", "FP"); ("tools", "zap")]])]).
Proof.
  apply (load_triage_files_prefers_final
           [("juice-shop-auto", [[("verdict", "TP"); ("tools", "zap")]]);
            ("juice-shop-final", [[("verdict", "FP"); ("tools", "zap")]])]).
  - constructor; [simpl; intros [H | []]; discriminate H|].
    constructor; [intros [] | constructor].
  - exists [[("verdict", "FP"); ("tools", "zap")]].
    split; [reflexivity|]. left. right. left. reflexivity.
Defined.

(** ** From the triage files written to the triage data loaded *)



